(** * Attendance ingestion pipeline of AttendanceAPI, shallow embedding

    The development embeds the parts of the attendance pipeline that the
    specification talks about:
    - the SHA-256 record fingerprints of [routes/devices.js] and of the
      SQLite queue store ([CacheService] in [services/cacheService.js]);
    - the queue store's tables [attendance_queue] and [record_hashes] and
      its operations;
    - the [/clock] and [/batch] ingestion handlers;
    - the retry loop [safePost] of [services/erpnextService.js];
    - the drain scheduling of [SyncService];
    - the concurrent-session limit of [SessionManager];
    - the key-rotation check [verify] of the JWT helper. *)

From Stdlib Require Import ZArith List String Ascii Bool Lia Arith.
Import ListNotations.

(* ================================================================== *)
(** ** SHA-256 ([crypto.createHash('sha256').update(s).digest('hex')]) *)

Module Sha256.

Local Open Scope Z_scope.

Definition mask32 : Z := 4294967295.
Definition add32 (x y : Z) : Z := Z.land (x + y) mask32.
Definition rotr (x : Z) (n : Z) : Z :=
  Z.lor (Z.shiftr x n) (Z.land (Z.shiftl x (32 - n)) mask32).

Definition Ch (e f g : Z) : Z := Z.lxor (Z.land e f) (Z.land (Z.lxor e mask32) g).
Definition Maj (a b c : Z) : Z :=
  Z.lxor (Z.land a b) (Z.lxor (Z.land a c) (Z.land b c)).
Definition Sigma0 (a : Z) : Z := Z.lxor (rotr a 2) (Z.lxor (rotr a 13) (rotr a 22)).
Definition Sigma1 (e : Z) : Z := Z.lxor (rotr e 6) (Z.lxor (rotr e 11) (rotr e 25)).
Definition sigma0 (w : Z) : Z := Z.lxor (rotr w 7) (Z.lxor (rotr w 18) (Z.shiftr w 3)).
Definition sigma1 (w : Z) : Z := Z.lxor (rotr w 17) (Z.lxor (rotr w 19) (Z.shiftr w 10)).

(** The round constants and the initial hash value (FIPS 180-4, 4.2.2 and
    5.3.3): the first 32 bits of the fractional parts of the cube roots of
    the first 64 primes and of the square roots of the first 8 primes. *)
Definition is_prime (n : Z) : bool :=
  forallb (fun d => negb (n mod d =? 0)) (map Z.of_nat (seq 2 (Z.to_nat n - 2))).

Definition first_primes (count : nat) : list Z :=
  firstn count (filter is_prime (map Z.of_nat (seq 2 400))).

(** Integer cube root, one bit at a time from bit [b - 1] down. *)
Fixpoint icbrt_bits (b : nat) (x n : Z) : Z :=
  match b with
  | O => x
  | S b' =>
      let y := Z.lor x (Z.shiftl 1 (Z.of_nat b')) in
      if y * y * y <=? n then icbrt_bits b' y n else icbrt_bits b' x n
  end.

Definition K : list Z := Eval vm_compute in
  map (fun p => Z.land (icbrt_bits 48 0 (Z.shiftl p 96)) mask32) (first_primes 64).

Definition H0 : list Z := Eval vm_compute in
  map (fun p => Z.land (Z.sqrt (Z.shiftl p 64)) mask32) (first_primes 8).

(** Padding: the message, the byte 0x80, zeros up to 56 mod 64, and the
    bit length as a 64-bit big-endian integer. *)
Fixpoint be_bytes (n : nat) (x : Z) : list Z :=
  match n with
  | O => []
  | S n' => be_bytes n' (Z.shiftr x 8) ++ [Z.land x 255]
  end.

Definition pad (msg : list Z) : list Z :=
  let l := Z.of_nat (List.length msg) in
  let k := (55 - l) mod 64 in
  msg ++ [128] ++ repeat 0 (Z.to_nat k) ++ be_bytes 8 (8 * l).

Fixpoint words_of (fuel : nat) (bs : list Z) : list Z :=
  match fuel, bs with
  | S f, b0 :: b1 :: b2 :: b3 :: rest =>
      (Z.lor (Z.shiftl b0 24) (Z.lor (Z.shiftl b1 16) (Z.lor (Z.shiftl b2 8) b3)))
        :: words_of f rest
  | _, _ => []
  end.

Fixpoint blocks_of (fuel : nat) (bs : list Z) : list (list Z) :=
  match fuel with
  | O => []
  | S f =>
      match bs with
      | [] => []
      | _ => firstn 64 bs :: blocks_of f (skipn 64 bs)
      end
  end.

(** Message schedule: extend [w] (oldest first) to 64 words. *)
Fixpoint schedule (n : nat) (w : list Z) : list Z :=
  match n with
  | O => w
  | S n' =>
      let t := List.length w in
      let wt := add32 (add32 (sigma1 (nth (t - 2) w 0)) (nth (t - 7) w 0))
                      (add32 (sigma0 (nth (t - 15) w 0)) (nth (t - 16) w 0)) in
      schedule n' (w ++ [wt])
  end.

Definition round (st : list Z) (kw : Z * Z) : list Z :=
  match st with
  | [a; b; c; d; e; f; g; h] =>
      let t1 := add32 (add32 (add32 h (Sigma1 e)) (add32 (Ch e f g) (fst kw))) (snd kw) in
      let t2 := add32 (Sigma0 a) (Maj a b c) in
      [add32 t1 t2; a; b; c; add32 d t1; e; f; g]
  | _ => st
  end.

Definition compress (hs : list Z) (block : list Z) : list Z :=
  let w := schedule 48 (words_of 16 block) in
  let st := fold_left round (combine K w) hs in
  map (fun p => add32 (fst p) (snd p)) (combine hs st).

Definition digest (msg : list Z) : list Z :=
  let p := pad msg in
  let hs := fold_left compress (blocks_of (List.length p) p) H0 in
  flat_map (be_bytes 4) hs.

(** Lower-case hexadecimal encoding of the digest bytes. *)
Definition hex_digit (n : Z) : ascii :=
  if n <? 10 then ascii_of_nat (48 + Z.to_nat n) else ascii_of_nat (87 + Z.to_nat n).

Fixpoint hex (bs : list Z) : string :=
  match bs with
  | [] => EmptyString
  | b :: rest => String (hex_digit (Z.shiftr b 4)) (String (hex_digit (Z.land b 15)) (hex rest))
  end.

(** Strings are byte strings (their UTF-8 encoding). *)
Fixpoint bytes_of_string (s : string) : list Z :=
  match s with
  | EmptyString => []
  | String c rest => Z.of_nat (nat_of_ascii c) :: bytes_of_string rest
  end.

Definition sha256_hex (s : string) : string := hex (digest (bytes_of_string s)).

End Sha256.

Example sha256_abc :
  Sha256.sha256_hex "abc" =
  "ba7816bf8f01cfea414140de5dae2223b00361a396177a9cb410ff61f20015ad"%string.
Proof. vm_compute. reflexivity. Qed.

Example sha256_two_blocks :
  Sha256.sha256_hex "abcdbcdecdefdefgefghfghighijhijkijkljklmklmnlmnomnopnopq" =
  "248d6a61d20638b8e5c026930c3e6039a33ce45964ff2167f6ecedd419db06c1"%string.
Proof. vm_compute. reflexivity. Qed.

Example sha256_empty :
  Sha256.sha256_hex "" =
  "e3b0c44298fc1c149afbf4c8996fb92427ae41e4649b934ca495991b7852b855"%string.
Proof. vm_compute. reflexivity. Qed.

(* ================================================================== *)
(** ** Attendance records and their fingerprints *)

Open Scope string_scope.

(** The JSON body of a clock request after validation: [employee_id],
    [timestamp] (an ISO-8601 string, kept as sent) and [status]
    ([clock-in] or [clock-out]) are present; the rest is optional. *)
Record AttendanceRecord := mkRecord {
  employee_id : string;
  timestamp : string;
  status : string;
  device_id : option string;
  site_id : option string;
  latitude : option Z;
  longitude : option Z;
  record_id : option string
}.

(** JavaScript [x || d] on an optional string: [undefined], [null] and the
    empty string are falsy. *)
Definition js_or (o : option string) (d : string) : string :=
  match o with
  | Some s => if String.eqb s "" then d else s
  | None => d
  end.

(** [x || null] on an optional string and on an optional number. *)
Definition js_or_null (o : option string) : option string :=
  match o with
  | Some s => if String.eqb s "" then None else Some s
  | None => None
  end.

Definition js_or_null_num (o : option Z) : option Z :=
  match o with
  | Some 0%Z => None
  | o => o
  end.

(** [routes/devices.js], [generateRecordHash]: the string hashed. *)
Definition route_hash_string (r : AttendanceRecord) : string :=
  employee_id r ++ "-" ++ timestamp r ++ "-" ++ status r ++ "-" ++ js_or (device_id r) "default".

Definition generateRecordHash (r : AttendanceRecord) : string :=
  Sha256.sha256_hex (route_hash_string r).

(** [CacheService.generateRecordHash]: the string hashed. *)
Definition store_hash_string (r : AttendanceRecord) : string :=
  employee_id r ++ "-" ++ timestamp r ++ "-" ++ status r ++ "-" ++ js_or (device_id r) "".

Definition CacheService_generateRecordHash (r : AttendanceRecord) : string :=
  Sha256.sha256_hex (store_hash_string r).

(** The record hash of the ingestion routes:
    [record.record_id || generateRecordHash(record)]. *)
Definition recordHash (r : AttendanceRecord) : string :=
  match record_id r with
  | Some s => if String.eqb s "" then generateRecordHash r else s
  | None => generateRecordHash r
  end.

(* ================================================================== *)
(** ** The SQLite queue store ([CacheService]) *)

Module Cache.

(** Instants ([new Date().toISOString()]) as numbers. *)
Definition Time := nat.

(** A row of [attendance_queue]. *)
Record QueueRow := mkQueueRow {
  q_id : nat;
  q_employee_id : string;
  q_timestamp : string;
  q_status : string;
  q_site_id : option string;
  q_device_id : option string;
  q_latitude : option Z;
  q_longitude : option Z;
  q_record_hash : string;
  q_batch_id : option string;
  q_retry_count : nat;
  q_last_retry : option Time;
  q_created_at : Time;
  q_synced : bool;
  q_synced_at : option Time;
  q_error_message : option string
}.

(** A row of [record_hashes] (primary key [record_hash]). *)
Record HashRow := mkHashRow {
  h_record_hash : string;
  h_record_data : AttendanceRecord;
  h_is_synced : bool;
  h_created_at : Time;
  h_synced_at : option Time;
  h_batch_id : option string
}.

(** The two tables, in insertion order, and the AUTOINCREMENT counter of
    [attendance_queue]. *)
Record DB := mkDB {
  attendance_queue : list QueueRow;
  record_hashes : list HashRow;
  next_id : nat
}.

(** A storage call: it either fails with an SQLite error or returns a
    value, and yields the new database. *)
Definition M (A : Type) := DB -> (string + A) * DB.

Definition ret {A} (a : A) : M A := fun db => (inr a, db).
Definition throw {A} (e : string) : M A := fun db => (inl e, db).
Definition bind {A B} (m : M A) (k : A -> M B) : M B :=
  fun db => match m db with
            | (inl e, db') => (inl e, db')
            | (inr a, db') => k a db'
            end.

Notation "x <- m ;; k" := (bind m (fun x => k)) (at level 61, m at next level, right associativity).
Notation "m ;;; k" := (bind m (fun _ => k)) (at level 61, right associativity).

(** [storeRecordHash]: [INSERT OR REPLACE INTO record_hashes]; a replaced
    row is deleted and the new one inserted (with a fresh [created_at]). *)
Definition storeRecordHash (now : Time) (h : string) (data : AttendanceRecord)
    (isSynced : bool) (batchId : option string) : M nat :=
  fun db =>
    let row := mkHashRow h data isSynced now (if isSynced then Some now else None) batchId in
    let rest := filter (fun r => negb (String.eqb (h_record_hash r) h)) (record_hashes db) in
    (inr (List.length rest + 1)%nat,
     mkDB (attendance_queue db) (rest ++ [row]) (next_id db)).

(** [checkDuplicateRecord]: [SELECT * FROM record_hashes WHERE record_hash = ?]. *)
Definition checkDuplicateRecord (h : string) : M (option HashRow) :=
  fun db => (inr (find (fun r => String.eqb (h_record_hash r) h) (record_hashes db)), db).

(** The argument of [queueAttendance]: a record spread with [record_hash]
    and possibly [batch_id]. *)
Record QueueInput := mkQueueInput {
  qi_record : AttendanceRecord;
  qi_record_hash : option string;
  qi_batch_id : option string
}.

Definition unique_violation : string :=
  "SQLITE_CONSTRAINT: UNIQUE constraint failed: attendance_queue.record_hash".

(** [queueAttendance]: a plain [INSERT INTO attendance_queue]; the column
    [record_hash] is [UNIQUE], so a second row with the same hash is
    rejected and the table is left as it was. Resolves to [this.lastID]. *)
Definition queueAttendance (now : Time) (d : QueueInput) : M nat :=
  fun db =>
    let r := qi_record d in
    let h := match qi_record_hash d with
             | Some s => if String.eqb s "" then CacheService_generateRecordHash r else s
             | None => CacheService_generateRecordHash r
             end in
    if existsb (fun row => String.eqb (q_record_hash row) h) (attendance_queue db)
    then (inl unique_violation, db)
    else
      let id := next_id db in
      let row := mkQueueRow id (employee_id r) (timestamp r) (status r)
                   (js_or_null (site_id r)) (js_or_null (device_id r))
                   (js_or_null_num (latitude r)) (js_or_null_num (longitude r))
                   h (js_or_null (qi_batch_id d)) 0 None now false None None in
      (inr id, mkDB (attendance_queue db ++ [row]) (record_hashes db) (S id)).

(** [markAttendanceSynced]: [UPDATE attendance_queue SET synced = 1,
    synced_at = ? WHERE id = ?], then, when a hash is given, the same on
    [record_hashes]. No condition on the current state of the row. *)
Definition set_synced (now : Time) (row : QueueRow) : QueueRow :=
  mkQueueRow (q_id row) (q_employee_id row) (q_timestamp row) (q_status row)
    (q_site_id row) (q_device_id row) (q_latitude row) (q_longitude row)
    (q_record_hash row) (q_batch_id row) (q_retry_count row) (q_last_retry row)
    (q_created_at row) true (Some now) (q_error_message row).

Definition set_hash_synced (now : Time) (row : HashRow) : HashRow :=
  mkHashRow (h_record_hash row) (h_record_data row) true (h_created_at row)
    (Some now) (h_batch_id row).

Definition markAttendanceSynced (now : Time) (id : nat) (recordHash : option string) : M nat :=
  fun db =>
    let q := map (fun row => if Nat.eqb (q_id row) id then set_synced now row else row)
                 (attendance_queue db) in
    match recordHash with
    | Some h =>
        if String.eqb h "" then (inr 1%nat, mkDB q (record_hashes db) (next_id db))
        else
          let hs := map (fun row => if String.eqb (h_record_hash row) h
                                    then set_hash_synced now row else row)
                        (record_hashes db) in
          (inr (List.length (filter (fun row => String.eqb (h_record_hash row) h)
                                   (record_hashes db))),
           mkDB q hs (next_id db))
    | None => (inr 1%nat, mkDB q (record_hashes db) (next_id db))
    end.

Definition empty_db : DB := mkDB [] [] 1.

(** Rows of each table carrying a given record hash. *)
Definition queue_rows (h : string) (db : DB) : list QueueRow :=
  filter (fun row => String.eqb (q_record_hash row) h) (attendance_queue db).

Definition hash_rows (h : string) (db : DB) : list HashRow :=
  filter (fun row => String.eqb (h_record_hash row) h) (record_hashes db).

End Cache.

(* ================================================================== *)
(** ** The ingestion routes [POST /attendance/clock] and [/batch] *)

Module Ingest.

Import Cache.

(** How the promise of [erpnext.submitCheckin(record)] settles: it
    rejects with an error message ([inl e]), as when
    [new Date(record.timestamp).toISOString()] throws the [RangeError]
    ['Invalid time value'] on a timestamp that [isISO8601] accepts and
    [Date] cannot parse, or it resolves to an object whose [success] is
    [ok] ([inr ok]). *)
Definition Settlement := (string + bool)%type.

(** The handlers act on the queue store and call the ERP. A call of
    [erpnext.submitCheckin] is recorded with how it settled; that
    settlement is chosen by the environment and passed with the request. *)
Record World := mkWorld {
  db : DB;
  erp_calls : list (AttendanceRecord * Settlement)
}.

Definition WM (A : Type) := World -> (string + A) * World.

Definition wret {A} (a : A) : WM A := fun w => (inr a, w).
Definition wbind {A B} (m : WM A) (k : A -> WM B) : WM B :=
  fun w => match m w with
           | (inl e, w') => (inl e, w')
           | (inr a, w') => k a w'
           end.
(** [try { m } catch (error) { h(error.message) }] *)
Definition wcatch {A} (m : WM A) (h : string -> WM A) : WM A :=
  fun w => match m w with
           | (inl e, w') => h e w'
           | ok => ok
           end.

Notation "x <-- m ;; k" := (wbind m (fun x => k)) (at level 61, m at next level, right associativity).

(** A storage call inside a handler. *)
Definition storage {A} (m : M A) : WM A :=
  fun w => let (res, d) := m (db w) in (res, mkWorld d (erp_calls w)).

(** [await erpnext.submitCheckin(record)] and its [result.success]: the
    await throws when the promise rejects. *)
Definition submitCheckin (r : AttendanceRecord) (erp : Settlement) : WM bool :=
  fun w => (erp, mkWorld (db w) (erp_calls w ++ [(r, erp)])).

(** Response of [/clock]. [Clock500] is [handleError(res, 500, ...)]. *)
Inductive ClockResponse :=
  | ClockDuplicate (record_id : string)
  | ClockSynced (record_id : string)
  | ClockQueued (record_id : string) (queue_id : nat)
  | Clock500 (message : string).

Definition clock_status (resp : ClockResponse) : nat :=
  match resp with
  | Clock500 _ => 500
  | _ => 200
  end.

(** The body of the [/clock] handler after validation. *)
Definition clock_body (now : Time) (r : AttendanceRecord) (erp : Settlement) : WM ClockResponse :=
  let h := recordHash r in
  existing <-- storage (checkDuplicateRecord h) ;;
  match existing with
  | Some _ => wret (ClockDuplicate h)
  | None =>
      ok <-- submitCheckin r erp ;;
      if ok then
        _ <-- storage (storeRecordHash now h r true None) ;;
        wret (ClockSynced h)
      else
        queueId <-- storage (queueAttendance now (mkQueueInput r (Some h) None)) ;;
        _ <-- storage (storeRecordHash now h r false None) ;;
        wret (ClockQueued h queueId)
  end.

Definition clock (now : Time) (r : AttendanceRecord) (erp : Settlement) (w : World)
    : ClockResponse * World :=
  match wcatch (clock_body now r erp) (fun e => wret (Clock500 e)) w with
  | (inr resp, w') => (resp, w')
  | (inl e, w') => (Clock500 e, w')
  end.

(** Per-record result of [/batch]. *)
Inductive BatchItem :=
  | BDuplicate (record_id : string)
  | BQueued (record_id : string) (queue_id : nat)
  | BSynced (record_id : string)
  | BError (record_id : string) (message : string).

Definition batch_record (now : Time) (batchId : string) (offline_sync : bool)
    (r : AttendanceRecord) (erp : Settlement) : WM BatchItem :=
  let h := recordHash r in
  wcatch
    (existing <-- storage (checkDuplicateRecord h) ;;
     match existing with
     | Some _ => wret (BDuplicate h)
     | None =>
         if offline_sync then
           queueId <-- storage (queueAttendance now (mkQueueInput r (Some h) (Some batchId))) ;;
           _ <-- storage (storeRecordHash now h r false None) ;;
           wret (BQueued h queueId)
         else
           ok <-- submitCheckin r erp ;;
           if ok then
             _ <-- storage (storeRecordHash now h r true None) ;;
             wret (BSynced h)
           else
             queueId <-- storage (queueAttendance now (mkQueueInput r (Some h) (Some batchId))) ;;
             _ <-- storage (storeRecordHash now h r false None) ;;
             wret (BQueued h queueId)
     end)
    (fun e => wret (BError h e)).

(** The [for (const record of records)] loop of [/batch]; [uuid] stands
    for [crypto.randomUUID()]. *)
Fixpoint batch_loop (now : Time) (batchId : string) (offline_sync : bool)
    (records : list (AttendanceRecord * Settlement)) (w : World) : list BatchItem * World :=
  match records with
  | [] => ([], w)
  | (r, erp) :: rest =>
      let (res, w1) := batch_record now batchId offline_sync r erp w in
      let item := match res with inr it => it | inl e => BError (recordHash r) e end in
      let (items, w2) := batch_loop now batchId offline_sync rest w1 in
      (item :: items, w2)
  end.

Definition batch (now : Time) (batch_id : option string) (uuid : string) (offline_sync : bool)
    (records : list (AttendanceRecord * Settlement)) (w : World) : list BatchItem * World :=
  batch_loop now (js_or batch_id uuid) offline_sync records w.

(** A sequence of submissions, each with its arrival time. *)
Inductive Submission :=
  | SubClock (r : AttendanceRecord) (erp : Settlement)
  | SubBatch (batch_id : option string) (uuid : string) (offline_sync : bool)
             (records : list (AttendanceRecord * Settlement)).

Definition submit (now : Time) (s : Submission) (w : World) : World :=
  match s with
  | SubClock r erp => snd (clock now r erp w)
  | SubBatch b u off rs => snd (batch now b u off rs w)
  end.

Fixpoint run (subs : list (Time * Submission)) (w : World) : World :=
  match subs with
  | [] => w
  | (t, s) :: rest => run rest (submit t s w)
  end.

Definition resolved (erp : Settlement) : bool :=
  match erp with
  | inr _ => true
  | inl _ => false
  end.

Definition succeeded (erp : Settlement) : bool :=
  match erp with
  | inr ok => ok
  | inl _ => false
  end.

(** ERP calls that carried a record of fingerprint [h], those of them
    that resolved (only these can have reached the upstream: the
    rejections of [submitCheckin] all happen before a post), and those
    that resolved with [success]. *)
Definition calls_for (h : string) (w : World) : list (AttendanceRecord * Settlement) :=
  filter (fun c => String.eqb (recordHash (fst c)) h) (erp_calls w).

Definition resolved_calls_for (h : string) (w : World) : list (AttendanceRecord * Settlement) :=
  filter (fun c => resolved (snd c)) (calls_for h w).

Definition successful_calls_for (h : string) (w : World) : list (AttendanceRecord * Settlement) :=
  filter (fun c => succeeded (snd c)) (calls_for h w).

Definition empty_world : World := mkWorld empty_db [].

End Ingest.

(* ================================================================== *)
(** ** The upstream client [safePost] ([services/erpnextService.js]) *)

Module Upstream.

Local Open Scope Z_scope.

(** What one [axios.post] attempt produces: an HTTP response with its
    status, or a network error (no [error.response]). Axios resolves only
    on a 2xx status and rejects on every other one. *)
Inductive Outcome :=
  | Response (status : Z)
  | NetworkError.

Definition succeeded (o : Outcome) : bool :=
  match o with
  | Response s => (200 <=? s) && (s <? 300)
  | NetworkError => false
  end.

(** [err.response?.status] *)
Definition response_status (o : Outcome) : option Z :=
  match o with
  | Response s => Some s
  | NetworkError => None
  end.

(** [retryConfig.retryCondition] *)
Definition retryCondition (o : Outcome) : bool :=
  match o with
  | NetworkError => true
  | Response s => (500 <=? s) || (s =? 417)
  end.

(** [parseInt(process.env.ERP_RETRY_COUNT) || 3] and
    [parseInt(process.env.ERP_RETRY_DELAY) || 1000] when unset. *)
Definition default_retries : nat := 3.
Definition default_retry_delay : Z := 1000.

(** [options.retries || retryConfig.retries] *)
Definition max_retries (option_retries : option nat) (config_retries : nat) : nat :=
  match option_retries with
  | Some (S n) => S n
  | _ => config_retries
  end.

(** [retryConfig.retryDelay * Math.pow(2, attempt - 1)] *)
Definition backoff (retryDelay : Z) (attempt : nat) : Z :=
  retryDelay * 2 ^ (Z.of_nat attempt - 1).

(** The value [safePost] resolves to; [PTypeError] is the [TypeError]
    thrown by [lastError.message] when the loop made no attempt. *)
Inductive PostResult :=
  | PSuccess (status : option Z)
  | PFailure (status : option Z) (retries : nat)
  | PTypeError.

(** The result together with the attempts made and the delays slept. *)
Record Trace := mkTrace {
  t_result : PostResult;
  t_attempts : list nat;
  t_delays : list Z
}.

(** The [for (attempt = 1; attempt <= maxRetries; attempt++)] loop from
    [attempt] on, with [fuel] iterations left; [send n] is the outcome of
    the [n]-th attempt. *)
Fixpoint attempts_from (fuel attempt maxRetries : nat) (retryDelay : Z)
    (send : nat -> Outcome) : Trace :=
  match fuel with
  | O => mkTrace PTypeError [] []
  | S fuel' =>
      let o := send attempt in
      if succeeded o then mkTrace (PSuccess (response_status o)) [attempt] []
      else if Nat.ltb attempt maxRetries && retryCondition o then
        let t := attempts_from fuel' (S attempt) maxRetries retryDelay send in
        mkTrace (t_result t) (attempt :: t_attempts t) (backoff retryDelay attempt :: t_delays t)
      else mkTrace (PFailure (response_status o) maxRetries) [attempt] []
  end.

Definition safePost (maxRetries : nat) (retryDelay : Z) (send : nat -> Outcome) : Trace :=
  attempts_from maxRetries 1 maxRetries retryDelay send.

End Upstream.

(* ================================================================== *)
(** ** Drain scheduling of [SyncService] ([services/syncStatusService.js]) *)

Module Sync.

(** The fields of the service that matter for scheduling, and the number of
    [syncPendingRecords] invocations started and not yet finished (each one
    suspends at its first [await]). *)
Record SyncService := mkSync {
  isRunning : bool;
  syncTimer : bool;
  in_flight : nat
}.

(** What the event loop can run next: [start()], [stop()], the interval
    timer firing, [triggerSync()], or one pending drain running to its end. *)
Inductive Event :=
  | Start
  | Stop
  | Tick
  | Trigger
  | DrainDone.

(** Entering [syncPendingRecords]: [if (!this.isRunning) return;] and
    otherwise run until the first [await]. *)
Definition syncPendingRecords (s : SyncService) : SyncService :=
  if isRunning s then mkSync (isRunning s) (syncTimer s) (S (in_flight s)) else s.

Definition start (s : SyncService) : SyncService :=
  if isRunning s then s
  else syncPendingRecords (mkSync true true (in_flight s)).

Definition stop (s : SyncService) : SyncService :=
  if isRunning s then mkSync false false (in_flight s) else s.

Definition step (s : SyncService) (e : Event) : SyncService :=
  match e with
  | Start => start s
  | Stop => stop s
  | Tick => if syncTimer s then syncPendingRecords s else s
  | Trigger => if isRunning s then syncPendingRecords s else s
  | DrainDone => mkSync (isRunning s) (syncTimer s) (pred (in_flight s))
  end.

Definition run_events (es : list Event) (s : SyncService) : SyncService :=
  fold_left step es s.

Definition init : SyncService := mkSync false false 0.

End Sync.

(* ================================================================== *)
(** ** Concurrent-session limit of [SessionManager] ([middleware/sessionManager.js]) *)

Module Sessions.

Local Open Scope Z_scope.

(** A JWT, with the [exp] claim that [blacklistToken] reads. *)
Record Token := mkToken {
  token : string;
  token_exp : Z
}.

Record SessionData := mkSession {
  sd_userId : string;
  sd_accessToken : Token;
  sd_refreshToken : Token;
  sd_isActive : bool;
  sd_terminationReason : option string
}.

(** The Redis keys used: [session:<id>], [user_sessions:<userId>] (a set,
    kept here in insertion order) and [blacklist:<token>]. *)
Record Redis := mkRedis {
  sessions : list (string * SessionData);
  user_sessions : list (string * list string);
  blacklist : list (string * string)
}.

Fixpoint lookup {A} (k : string) (l : list (string * A)) : option A :=
  match l with
  | [] => None
  | (k', v) :: l' => if String.eqb k' k then Some v else lookup k l'
  end.

(** [SET]: the new value replaces any old one. *)
Definition put {A} (k : string) (v : A) (l : list (string * A)) : list (string * A) :=
  (k, v) :: filter (fun p => negb (String.eqb (fst p) k)) l.

Definition members (userId : string) (r : Redis) : list string :=
  match lookup userId (user_sessions r) with Some l => l | None => [] end.

Definition sAdd (userId sid : string) (r : Redis) : Redis :=
  let s := members userId r in
  if existsb (String.eqb sid) s then r
  else mkRedis (sessions r) (put userId (s ++ [sid])%list (user_sessions r)) (blacklist r).

Definition sRem (userId sid : string) (r : Redis) : Redis :=
  mkRedis (sessions r)
    (put userId (filter (fun x => negb (String.eqb x sid)) (members userId r)) (user_sessions r))
    (blacklist r).

(** [blacklistToken]: [setEx] only when the token has time left. *)
Definition blacklistToken (now : Z) (t : Token) (reason : string) (r : Redis) : Redis :=
  if 0 <? token_exp t - now
  then mkRedis (sessions r) (user_sessions r) ((token t, reason) :: blacklist r)
  else r.

Definition terminateSession (now : Z) (sid reason : string) (r : Redis) : bool * Redis :=
  match lookup sid (sessions r) with
  | None => (false, r)
  | Some sd =>
      let r1 := blacklistToken now (sd_accessToken sd) reason r in
      let r2 := blacklistToken now (sd_refreshToken sd) reason r1 in
      let sd' := mkSession (sd_userId sd) (sd_accessToken sd) (sd_refreshToken sd) false (Some reason) in
      let r3 := mkRedis (put sid sd' (sessions r2)) (user_sessions r2) (blacklist r2) in
      (true, sRem (sd_userId sd) sid r3)
  end.

(** [addUserSession]. [SMEMBERS] returns the members of the set in an
    order Redis does not specify; [enumerate] is that order. *)
Definition addUserSession (enumerate : list string -> list string) (now : Z)
    (maxConcurrentSessions : nat) (userId sid : string) (r : Redis) : Redis :=
  let r1 := sAdd userId sid r in
  let activeSessions := enumerate (members userId r1) in
  if Nat.ltb maxConcurrentSessions (List.length activeSessions) then
    fold_left (fun r oldSessionId => snd (terminateSession now oldSessionId "concurrent_limit_exceeded" r))
      (firstn (List.length activeSessions - maxConcurrentSessions) activeSessions) r1
  else r1.

(** The storage part of [createTokens]: store the new active session, then
    [addUserSession]. *)
Definition createTokens (enumerate : list string -> list string) (now : Z)
    (maxConcurrentSessions : nat) (userId sid : string) (access refresh : Token) (r : Redis) : Redis :=
  let sd := mkSession userId access refresh true None in
  addUserSession enumerate now maxConcurrentSessions userId sid
    (mkRedis (put sid sd (sessions r)) (user_sessions r) (blacklist r)).

End Sessions.

(* ================================================================== *)
(** ** Token verification with key rotation ([verify], [unnamed/part_008]) *)

Module Auth.

Local Open Scope Z_scope.

(** A JWT: the secret it was signed with and its [iat] and [exp] claims
    (seconds). *)
Record Jwt := mkJwt {
  signed_with : string;
  iat : Z;
  exp : option Z
}.

(** [process.env.JWT_SECRET], [process.env.JWT_SECRET_OLD] and
    [parseInt(process.env.JWT_SECRET_GRACE_DAYS || '0', 10)] (a value that
    does not parse gives [NaN], which behaves as 0 below). *)
Record Config := mkConfig {
  JWT_SECRET : option string;
  JWT_SECRET_OLD : option string;
  GRACE_DAYS : Z
}.

Definition truthy (o : option string) : list string :=
  match o with
  | Some s => if String.eqb s "" then [] else [s]
  | None => []
  end.

(** [[JWT_SECRET, JWT_SECRET_OLD].filter(Boolean)] *)
Definition JWT_SECRETS (c : Config) : list string :=
  (truthy (JWT_SECRET c) ++ truthy (JWT_SECRET_OLD c))%list.

(** [jwt.verify] expiry check: [Math.floor(Date.now() / 1000) < exp]. *)
Definition unexpired (t : Jwt) (now_ms : Z) : bool :=
  match exp t with
  | None => true
  | Some e => now_ms / 1000 <? e
  end.

Definition jwt_verify (t : Jwt) (secret : string) (now_ms : Z) : bool :=
  String.eqb (signed_with t) secret && unexpired t now_ms.

(** The [for (const secret of JWT_SECRETS)] loop: the first secret that
    verifies. *)
Fixpoint secret_used (t : Jwt) (now_ms : Z) (secrets : list string) : option string :=
  match secrets with
  | [] => None
  | s :: rest => if jwt_verify t s now_ms then Some s else secret_used t now_ms rest
  end.

Inductive VerifyResult :=
  | Decoded (t : Jwt)
  | INVALID_TOKEN
  | TOKEN_NEEDS_REFRESH.

Definition verify (c : Config) (now_ms : Z) (t : Jwt) : VerifyResult :=
  match secret_used t now_ms (JWT_SECRETS c) with
  | None => INVALID_TOKEN
  | Some s =>
      let not_current := match JWT_SECRET c with Some cur => negb (String.eqb s cur) | None => true end in
      if not_current && negb (GRACE_DAYS c =? 0) && (GRACE_DAYS c * 86400000 <? now_ms - iat t * 1000)
      then TOKEN_NEEDS_REFRESH
      else Decoded t
  end.

End Auth.


(* ================================================================== *)
(** ** The other queries of [CacheService] ([unnamed/part_006]) *)

Module CacheOps.

Import Cache.

(** [ORDER BY created_at ASC]: an insertion sort on [created_at]; rows with
    the same [created_at] keep their table order. *)
Fixpoint insert_by_created (row : QueueRow) (l : list QueueRow) : list QueueRow :=
  match l with
  | [] => [row]
  | r :: l' =>
      if Nat.leb (q_created_at row) (q_created_at r) then row :: l
      else r :: insert_by_created row l'
  end.

Definition order_by_created (l : list QueueRow) : list QueueRow :=
  fold_right insert_by_created [] l.

(** [WHERE synced = 0 AND (retry_count < ? OR retry_count IS NULL)];
    [retry_count] is never [NULL] (it defaults to 0). *)
Definition pending_eligible (maxRetries : nat) (row : QueueRow) : bool :=
  negb (q_synced row) && Nat.ltb (q_retry_count row) maxRetries.

(** [getPendingAttendance(limit = 50, maxRetries = 3)]:
    [... ORDER BY created_at ASC LIMIT ?]. *)
Definition getPendingAttendance (limit maxRetries : nat) : M (list QueueRow) :=
  fun db =>
    (inr (firstn limit (order_by_created
            (filter (pending_eligible maxRetries) (attendance_queue db)))), db).

(** [markAttendanceFailed]: [SET retry_count = COALESCE(retry_count, 0) + 1,
    last_retry = CURRENT_TIMESTAMP, error_message = ? WHERE id = ?];
    resolves to [this.changes]. *)
Definition set_failed (now : Time) (errorMessage : option string) (row : QueueRow) : QueueRow :=
  mkQueueRow (q_id row) (q_employee_id row) (q_timestamp row) (q_status row)
    (q_site_id row) (q_device_id row) (q_latitude row) (q_longitude row)
    (q_record_hash row) (q_batch_id row) (S (q_retry_count row)) (Some now)
    (q_created_at row) (q_synced row) (q_synced_at row) errorMessage.

Definition markAttendanceFailed (now : Time) (id : nat) (errorMessage : option string) : M nat :=
  fun db =>
    (inr (List.length (filter (fun row => Nat.eqb (q_id row) id) (attendance_queue db))),
     mkDB (map (fun row => if Nat.eqb (q_id row) id then set_failed now errorMessage row else row)
               (attendance_queue db))
          (record_hashes db) (next_id db)).

(** [SET retry_count = 0, error_message = NULL] on one row. *)
Definition reset_row (row : QueueRow) : QueueRow :=
  mkQueueRow (q_id row) (q_employee_id row) (q_timestamp row) (q_status row)
    (q_site_id row) (q_device_id row) (q_latitude row) (q_longitude row)
    (q_record_hash row) (q_batch_id row) 0 (q_last_retry row)
    (q_created_at row) (q_synced row) (q_synced_at row) None.

(** [resetFailedRecords]: [... WHERE retry_count >= 3] (a fixed 3). *)
Definition retry_exhausted (row : QueueRow) : bool := Nat.leb 3 (q_retry_count row).

Definition resetFailedRecords : M nat :=
  fun db =>
    (inr (List.length (filter retry_exhausted (attendance_queue db))),
     mkDB (map (fun row => if retry_exhausted row then reset_row row else row)
               (attendance_queue db))
          (record_hashes db) (next_id db)).

(** The row of [getSyncStats]. *)
Record SyncStats := mkSyncStats {
  total_records : nat;
  synced_records : option nat;
  pending_records : option nat;
  failed_records : option nat
}.

(** [SUM(CASE WHEN c THEN 1 ELSE 0 END)]: [NULL] when there is no row. *)
Definition sql_sum (rows : list QueueRow) (c : QueueRow -> bool) : option nat :=
  match rows with
  | [] => None
  | _ => Some (List.length (filter c rows))
  end.

Definition getSyncStats : M SyncStats :=
  fun db =>
    let q := attendance_queue db in
    (inr (mkSyncStats (List.length q)
            (sql_sum q q_synced)
            (sql_sum q (fun row => negb (q_synced row)))
            (sql_sum q retry_exhausted)), db).

(** [cleanupOldRecords(daysOld = 30)]: the cutoff is [daysOld] days of
    86400000 ms before now. *)
Definition day_ms : nat := 86400000.

Definition cutoff (now : Time) (daysOld : nat) : Time := now - daysOld * day_ms.

(** [synced = 1 AND synced_at < ?] and [is_synced = 1 AND synced_at < ?];
    [NULL < x] is not true. *)
Definition old_queue_row (c : Time) (row : QueueRow) : bool :=
  q_synced row && match q_synced_at row with Some t => Nat.ltb t c | None => false end.

Definition old_hash_row (c : Time) (row : HashRow) : bool :=
  h_is_synced row && match h_synced_at row with Some t => Nat.ltb t c | None => false end.

Definition cleanupOldRecords (now : Time) (daysOld : nat) : M nat :=
  fun db =>
    let c := cutoff now daysOld in
    let q := attendance_queue db in
    let hs := record_hashes db in
    (inr (List.length (filter (old_queue_row c) q) + List.length (filter (old_hash_row c) hs)),
     mkDB (filter (fun row => negb (old_queue_row c row)) q)
          (filter (fun row => negb (old_hash_row c row)) hs)
          (next_id db)).

(** The object [getRecordStatus] resolves to. *)
Record QueueStatus := mkQueueStatus {
  qs_queue_id : nat;
  qs_synced : bool;
  qs_retry_count : nat;
  qs_error_message : option string;
  qs_last_retry : option Time
}.

Record RecordStatus := mkRecordStatus {
  rs_record_hash : string;
  rs_is_synced : bool;
  rs_created_at : Time;
  rs_synced_at : option Time;
  rs_batch_id : option string;
  rs_queue_status : option QueueStatus;
  rs_record_data : AttendanceRecord
}.

(** [getRecordStatus]: [record_hashes LEFT JOIN attendance_queue ON
    record_hash], first row; [null] when there is no hash row, and
    [queue_status] is [null] when the join found no queue row
    ([row.queue_id ?]). *)
Definition getRecordStatus (h : string) : M (option RecordStatus) :=
  fun db =>
    (inr (match find (fun row => String.eqb (h_record_hash row) h) (record_hashes db) with
          | None => None
          | Some hr =>
              let aq := find (fun row => String.eqb (q_record_hash row) h) (attendance_queue db) in
              Some (mkRecordStatus (h_record_hash hr) (h_is_synced hr) (h_created_at hr)
                      (h_synced_at hr) (h_batch_id hr)
                      (match aq with
                       | Some row =>
                           if Nat.eqb (q_id row) 0 then None
                           else Some (mkQueueStatus (q_id row) (q_synced row) (q_retry_count row)
                                        (q_error_message row) (q_last_retry row))
                       | None => None
                       end)
                      (h_record_data hr))
          end), db).

(** A row of [batch_log] (primary key [batch_id]). *)
Record BatchLogRow := mkBatchLogRow {
  bl_batch_id : string;
  bl_total_records : nat;
  bl_processed_records : nat;
  bl_success_count : nat;
  bl_error_count : nat;
  bl_status : string;
  bl_created_at : Time;
  bl_completed_at : option Time
}.

(** [createBatchLog]: [INSERT OR REPLACE INTO batch_log (batch_id,
    total_records)]; a row with that key is deleted and a new one gets the
    column defaults. (It resolves to [this.lastID], which no caller reads.) *)
Definition createBatchLog (now : Time) (batchId : string) (totalRecords : nat)
    (rows : list BatchLogRow) : list BatchLogRow :=
  (filter (fun r => negb (String.eqb (bl_batch_id r) batchId)) rows
   ++ [mkBatchLogRow batchId totalRecords 0 0 0 "processing" now None])%list.

(** [updateBatchLog(batchId, processed, success, error, status = 'processing')];
    [completed_at] is set only for the status [completed]; resolves to
    [this.changes]. *)
Definition updateBatchLog (now : Time) (batchId : string)
    (processedRecords successCount errorCount : nat) (status : string)
    (rows : list BatchLogRow) : nat * list BatchLogRow :=
  let completedAt := if String.eqb status "completed" then Some now else None in
  (List.length (filter (fun r => String.eqb (bl_batch_id r) batchId) rows),
   map (fun r => if String.eqb (bl_batch_id r) batchId
                 then mkBatchLogRow (bl_batch_id r) (bl_total_records r) processedRecords
                        successCount errorCount status (bl_created_at r) completedAt
                 else r) rows).

(** [getBatchStatus]: [SELECT * FROM batch_log WHERE batch_id = ?]. *)
Definition getBatchStatus (batchId : string) (rows : list BatchLogRow) : option BatchLogRow :=
  find (fun r => String.eqb (bl_batch_id r) batchId) rows.

End CacheOps.

(* ================================================================== *)
(** ** The answer of [POST /attendance/batch] ([routes/devices.js]) *)

Module BatchRoute.

Import Ingest.

(** The four counters of the handler. *)
Record Summary := mkSummary {
  s_synced : nat;
  s_queued : nat;
  s_duplicates : nat;
  s_errors : nat
}.

(** The counter each pushed result increments. *)
Definition count_item (s : Summary) (it : BatchItem) : Summary :=
  match it with
  | BSynced _ => mkSummary (S (s_synced s)) (s_queued s) (s_duplicates s) (s_errors s)
  | BQueued _ _ => mkSummary (s_synced s) (S (s_queued s)) (s_duplicates s) (s_errors s)
  | BDuplicate _ => mkSummary (s_synced s) (s_queued s) (S (s_duplicates s)) (s_errors s)
  | BError _ _ => mkSummary (s_synced s) (s_queued s) (s_duplicates s) (S (s_errors s))
  end.

(** [record_id] of a pushed result. *)
Definition item_record_id (it : BatchItem) : string :=
  match it with
  | BSynced h | BQueued h _ | BDuplicate h | BError h _ => h
  end.

(** [data] of the JSON answer. *)
Record BatchResponse := mkBatchResponse {
  resp_batch_id : string;
  resp_total_records : nat;
  resp_summary : Summary;
  resp_results : list BatchItem
}.

Definition batch_response (now : Cache.Time) (batch_id : option string) (uuid : string)
    (offline_sync : bool) (records : list (AttendanceRecord * Settlement)) (w : World)
    : BatchResponse * World :=
  let (results, w') := batch now batch_id uuid offline_sync records w in
  (mkBatchResponse (js_or batch_id uuid) (List.length records)
     (fold_left count_item results (mkSummary 0 0 0 0)) results, w').

End BatchRoute.

(* ================================================================== *)
(** ** Check-ins sent to the ERP ([services/erpnextService.js]) *)

Module Erp.

(** JavaScript truthiness of an optional string, and [a || b] on two. *)
Definition truthy_str (o : option string) : bool :=
  match o with
  | Some s => negb (String.eqb s "")
  | None => false
  end.

Definition js_or_opt (a b : option string) : option string :=
  if truthy_str a then a else b.

(** Truthiness of an optional number ([0] is falsy). *)
Definition truthy_num (o : option Z) : bool :=
  match o with
  | Some z => negb (Z.eqb z 0)
  | None => false
  end.

(** The fields [submitCheckin] and [submitBatchCheckin] read from the
    object they are given (a request body or a queue row). *)
Record CheckinInput := mkCheckinInput {
  ci_employee_id : option string;
  ci_timestamp : option string;
  ci_status : option string;
  ci_log_type : option string;
  ci_device_id : option string;
  ci_site_id : option string;
  ci_latitude : option Z;
  ci_longitude : option Z;
  ci_record_id : option string;
  ci_record_hash : option string
}.

(** A validated request body of [/clock] or [/batch], as [submitCheckin]
    reads it. *)
Definition of_request (r : AttendanceRecord) : CheckinInput :=
  mkCheckinInput (Some (employee_id r)) (Some (timestamp r)) (Some (status r)) None
    (device_id r) (site_id r) (latitude r) (longitude r) (record_id r) None.

(** The payload posted to [/api/resource/Employee Checkin]. *)
Record Checkin := mkCheckin {
  c_employee : string;
  c_time : string;
  c_log_type : string;
  c_device_id : string;
  c_custom_site : option string;
  c_custom_latitude : option Z;
  c_custom_longitude : option Z
}.

Definition missing_fields : string :=
  "Missing required fields: employee_id, timestamp, and status are mandatory".

(** The message of the [RangeError] thrown by [toISOString] on an invalid
    date. *)
Definition invalid_time : string := "Invalid time value".

(** [.replace('T', ' ')]: the first [T] only. *)
Fixpoint replace_first_T (s : string) : string :=
  match s with
  | EmptyString => EmptyString
  | String c s' => if Ascii.eqb c "T"%char then String " "%char s' else String c (replace_first_T s')
  end.

(** [iso.slice(0, 19).replace('T', ' ')] *)
Definition format_time (iso : string) : string := replace_first_T (substring 0 19 iso).

(** A field if it is truthy. *)
Definition present (o : option string) : option string :=
  if truthy_str o then o else None.

(** What [submitCheckin] does before posting: resolve with the
    missing-field failure, throw, or build the payload. [toISOString]
    stands for [new Date(ts).toISOString()], [None] for an invalid date. *)
Inductive Prepared :=
  | Missing
  | Throws (message : string)
  | Payload (p : Checkin).

Definition prepareCheckin (toISOString : string -> option string)
    (DEFAULT_DEVICE_ID : option string) (record : CheckinInput) : Prepared :=
  let status := js_or_opt (ci_status record) (ci_log_type record) in
  match present (ci_employee_id record), present (ci_timestamp record), present status with
  | Some emp, Some ts, Some st =>
      match toISOString ts with
      | None => Throws invalid_time
      | Some iso =>
          let has_coords := truthy_num (ci_latitude record) && truthy_num (ci_longitude record) in
          Payload (mkCheckin emp (format_time iso)
                     (if String.eqb st "clock-in" then "IN"
                      else if String.eqb st "IN" then "IN" else "OUT")
                     (js_or (ci_device_id record) (js_or DEFAULT_DEVICE_ID "KBAI-Device-001"))
                     (js_or_null (ci_site_id record))
                     (if has_coords then ci_latitude record else None)
                     (if has_coords then ci_longitude record else None))
      end
  | _, _, _ => Missing
  end.

(** The value [submitCheckin] resolves to: [success] and [error]. *)
Record CheckinOutcome := mkOutcome {
  co_success : bool;
  co_error : option string
}.

(** The [TypeError] of [lastError.message] when [safePost] made no
    attempt. *)
Definition undefined_message : string :=
  "Cannot read properties of undefined (reading 'message')".

(** [submitCheckin(record)]: [inl e] is a rejection with message [e].
    [send p n] is the outcome of the [n]-th attempt to post [p] and
    [error_text o] is [err.response?.data?.message || err.message] of a
    failed attempt. *)
Definition submitCheckin (toISOString : string -> option string)
    (DEFAULT_DEVICE_ID : option string) (maxRetries : nat) (retryDelay : Z)
    (send : Checkin -> nat -> Upstream.Outcome) (error_text : Upstream.Outcome -> string)
    (record : CheckinInput) : string + CheckinOutcome :=
  match prepareCheckin toISOString DEFAULT_DEVICE_ID record with
  | Missing => inr (mkOutcome false (Some missing_fields))
  | Throws e => inl e
  | Payload p =>
      let t := Upstream.safePost maxRetries retryDelay (send p) in
      match Upstream.t_result t with
      | Upstream.PSuccess _ => inr (mkOutcome true None)
      | Upstream.PFailure _ _ =>
          inr (mkOutcome false (Some (error_text (send p (last (Upstream.t_attempts t) 0%nat)))))
      | Upstream.PTypeError => inl undefined_message
      end
  end.

(** One element of [results] in [submitBatchCheckin]. *)
Record BatchResult := mkBatchResult {
  res_index : nat;
  res_record_id : option string;
  res_employee_id : option string;
  res_success : bool;
  res_error : option string
}.

(** The [batch.map(async (record, index) => ...)] callback; [submit k]
    is [submitCheckin] for the record of global index [k], whose ERP
    outcome may differ from one record to the next. *)
Definition batch_result (submit : nat -> CheckinInput -> string + CheckinOutcome)
    (k : nat) (record : CheckinInput) : BatchResult :=
  let rid := js_or_opt (ci_record_id record) (ci_record_hash record) in
  match submit k record with
  | inr o => mkBatchResult k rid (ci_employee_id record) (co_success o) (co_error o)
  | inl e => mkBatchResult k rid (ci_employee_id record) false (Some e)
  end.

Fixpoint mapi_from {A B} (f : nat -> A -> B) (k : nat) (l : list A) : list B :=
  match l with
  | [] => []
  | x :: l' => f k x :: mapi_from f (S k) l'
  end.

(** [for (let i = 0; i < records.length; i += batchSize)] over the
    chunks [records.slice(i, i + batchSize)], with [fuel] iterations. *)
Fixpoint chunks_from (fuel i batchSize : nat) (f : nat -> CheckinInput -> BatchResult)
    (records : list CheckinInput) : list BatchResult :=
  match fuel with
  | O => []
  | S fuel' =>
      if Nat.ltb i (List.length records) then
        (mapi_from f i (firstn batchSize (skipn i records))
         ++ chunks_from fuel' (i + batchSize) batchSize f records)%list
      else []
  end.

Record BatchCheckin := mkBatchCheckin {
  bc_success : bool;
  bc_total : nat;
  bc_successful : nat;
  bc_failed : nat;
  bc_results : list BatchResult
}.

(** [submitBatchCheckin(records)]; [batchSize] is
    [options.batchSize || parseInt(process.env.ERP_BATCH_SIZE) || 10]. *)
Definition submitBatchCheckin (batchSize : nat)
    (submit : nat -> CheckinInput -> string + CheckinOutcome)
    (records : list CheckinInput) : BatchCheckin :=
  let results := chunks_from (List.length records) 0 batchSize (batch_result submit) records in
  let successful := List.length (filter res_success results) in
  let failed := List.length (filter (fun r => negb (res_success r)) results) in
  mkBatchCheckin (Nat.eqb failed 0) (List.length records) successful failed results.

(** [safeGet] runs the loop of [safePost] with [axios.get]. *)
Definition safeGet (maxRetries : nat) (retryDelay : Z) (send : nat -> Upstream.Outcome)
    : Upstream.Trace :=
  Upstream.safePost maxRetries retryDelay send.

(** [healthCheck()]: one [GET /api/method/ping] with [{ retries: 1 }];
    [true] is the status [connected]. *)
Definition healthCheck (config_retries : nat) (retryDelay : Z)
    (send : nat -> Upstream.Outcome) : bool * Upstream.Trace :=
  let t := safeGet (Upstream.max_retries (Some 1%nat) config_retries) retryDelay send in
  (match Upstream.t_result t with Upstream.PSuccess _ => true | _ => false end, t).

End Erp.

(** ** The queue drain of [SyncService] *)

Module SyncDrain.

Import Cache CacheOps Erp.

(** A queue row (a [SELECT *] row) as the object handed to
    [submitBatchCheckin]: it has [status] but no [log_type], and
    [record_hash] but no [record_id]. *)
Definition of_row (row : QueueRow) : CheckinInput :=
  mkCheckinInput (Some (q_employee_id row)) (Some (q_timestamp row)) (Some (q_status row)) None
    (q_device_id row) (q_site_id row) (q_latitude row) (q_longitude row)
    None (Some (q_record_hash row)).

Definition hash_matches (res : BatchResult) (row : QueueRow) : bool :=
  match res_record_id res with
  | Some h => String.eqb (q_record_hash row) h
  | None => false
  end.

Definition id_matches (res : BatchResult) (row : QueueRow) : bool :=
  Nat.eqb (q_id row) (res_index res).

(** [syncPendingRecords]: [pendingRecords.find(r => r.record_hash ===
    result.record_id || r.id === result.index)]. *)
Definition pair_one_stage (rows : list QueueRow) (res : BatchResult) : option QueueRow :=
  find (fun r => hash_matches res r || id_matches res r) rows.

(** [retryFailedRecords] and [forceSyncRecords]: [rows.find(r =>
    r.record_hash === result.record_id) || rows.find(r => r.id ===
    result.index)]. *)
Definition pair_two_stage (rows : list QueueRow) (res : BatchResult) : option QueueRow :=
  match find (hash_matches res) rows with
  | Some r => Some r
  | None => find (id_matches res) rows
  end.

(** The [for (const result of batchResult.results)] loop: the matched row
    is marked synced (with its hash) or failed (with [result.error]);
    results without a match are skipped. Returns the two counters. *)
Fixpoint apply_results (now : Time) (pair : list QueueRow -> BatchResult -> option QueueRow)
    (rows : list QueueRow) (results : list BatchResult) (succ fail : nat) : M (nat * nat) :=
  match results with
  | [] => ret (succ, fail)
  | res :: rest =>
      match pair rows res with
      | None => apply_results now pair rows rest succ fail
      | Some row =>
          if res_success res then
            markAttendanceSynced now (q_id row) (Some (q_record_hash row)) ;;;
            apply_results now pair rows rest (S succ) fail
          else
            markAttendanceFailed now (q_id row) (res_error res) ;;;
            apply_results now pair rows rest succ (S fail)
      end
  end.

(** What a drain resolves to: [undefined] when the service is stopped,
    [{ success: true, processed: 0 }], the summary, or
    [{ success: false, error }] from the [catch]. *)
Inductive DrainResult :=
  | NotRunning
  | NothingToDo
  | Completed (success : bool) (total successful failed : nat)
  | DrainError (message : string).

Definition catch_error (m : M DrainResult) : M DrainResult :=
  fun db =>
    match m db with
    | (inl e, db') => (inr (DrainError e), db')
    | ok => ok
    end.

(** [syncPendingRecords()]; [batchSize] and [maxRetries] are the
    service's, [erpBatchSize] the chunk size of [submitBatchCheckin] and
    [submit k] the ERP outcome of the record of index [k]. *)
Definition syncPendingRecords (now : Time) (batchSize maxRetries erpBatchSize : nat)
    (submit : nat -> CheckinInput -> string + CheckinOutcome) (isRunning : bool)
    : M DrainResult :=
  if negb isRunning then ret NotRunning
  else catch_error (
    pending <- getPendingAttendance batchSize maxRetries ;;
    if Nat.eqb (List.length pending) 0 then ret NothingToDo
    else
      let batchResult := submitBatchCheckin erpBatchSize submit (map of_row pending) in
      counts <- apply_results now pair_one_stage pending (bc_results batchResult) 0 0 ;;
      let '(s, f) := counts in
      ret (Completed (Nat.eqb f 0) (List.length pending) s f)).

(** [UPDATE attendance_queue SET retry_count = 0, error_message = NULL
    WHERE id = ?] *)
Definition reset_by_id (id : nat) : M nat :=
  fun db =>
    (inr (List.length (filter (fun row => Nat.eqb (q_id row) id) (attendance_queue db))),
     mkDB (map (fun row => if Nat.eqb (q_id row) id then reset_row row else row)
               (attendance_queue db))
          (record_hashes db) (next_id db)).

Fixpoint reset_all (rows : list QueueRow) : M unit :=
  match rows with
  | [] => ret tt
  | row :: rest => reset_by_id (q_id row) ;;; reset_all rest
  end.

Definition retry_selected (maxRetries : nat) (row : QueueRow) : bool :=
  negb (q_synced row) && Nat.leb maxRetries (q_retry_count row).

(** [retryFailedRecords()]: [SELECT * FROM attendance_queue WHERE synced
    = 0 AND retry_count >= ? ORDER BY created_at ASC LIMIT ?], reset of
    each selected row, resubmission of the rows as selected, two-stage
    matching. *)
Definition retryFailedRecords (now : Time) (batchSize maxRetries erpBatchSize : nat)
    (submit : nat -> CheckinInput -> string + CheckinOutcome) : M DrainResult :=
  catch_error (
    failedRecords <- (fun db => (inr (firstn batchSize
                         (order_by_created (filter (retry_selected maxRetries)
                                              (attendance_queue db)))), db)) ;;
    if Nat.eqb (List.length failedRecords) 0 then ret NothingToDo
    else
      reset_all failedRecords ;;;
      let batchResult := submitBatchCheckin erpBatchSize submit (map of_row failedRecords) in
      counts <- apply_results now pair_two_stage failedRecords (bc_results batchResult) 0 0 ;;
      let '(s, f) := counts in
      ret (Completed (Nat.eqb f 0) (List.length failedRecords) s f)).

(** [ORDER BY created_at DESC] (stable on ties). *)
Fixpoint insert_desc (row : QueueRow) (l : list QueueRow) : list QueueRow :=
  match l with
  | [] => [row]
  | r :: l' =>
      if Nat.leb (q_created_at r) (q_created_at row) then row :: l
      else r :: insert_desc row l'
  end.

Definition order_desc (l : list QueueRow) : list QueueRow :=
  fold_right insert_desc [] l.

(** The columns of [recent_records]. *)
Record RecentRecord := mkRecent {
  rr_employee_id : string;
  rr_synced : bool;
  rr_retry_count : nat;
  rr_error_message : option string;
  rr_created_at : Time;
  rr_synced_at : option Time
}.

Definition recent_of (row : QueueRow) : RecentRecord :=
  mkRecent (q_employee_id row) (q_synced row) (q_retry_count row) (q_error_message row)
    (q_created_at row) (q_synced_at row).

Record BatchCounts := mkBatchCounts {
  b_total : nat;
  b_successful : nat;
  b_failed : nat;
  b_pending : nat
}.

(** What [SyncService.getBatchStatus] resolves to ([completion_rate], the
    string [(successful / total * 100).toFixed(2)], is left out). *)
Inductive BatchStatus :=
  | BatchStatusError (error : string)
  | BatchStatusOk (batch_id : string) (status : BatchCounts) (recent_records : list RecentRecord).

Definition batch_id_required : string := "Batch ID is required".
Definition batch_not_found : string := "Batch not found".

(** [SyncService.getBatchStatus(batchId)] with [this.maxRetries]. *)
Definition getBatchStatus (maxRetries : nat) (batchId : option string) : M BatchStatus :=
  fun db =>
    match batchId with
    | Some b =>
        if String.eqb b "" then (inr (BatchStatusError batch_id_required), db)
        else
          let rows := filter (fun row => match q_batch_id row with
                                         | Some b' => String.eqb b' b
                                         | None => false
                                         end) (attendance_queue db) in
          let total := List.length rows in
          if Nat.eqb total 0 then (inr (BatchStatusError batch_not_found), db)
          else
            let successful := List.length (filter q_synced rows) in
            let failed := List.length (filter (fun row => negb (q_synced row) &&
                                                  Nat.leb maxRetries (q_retry_count row)) rows) in
            let pending := List.length (filter (fun row => negb (q_synced row) &&
                                                   Nat.ltb (q_retry_count row) maxRetries) rows) in
            (inr (BatchStatusOk b (mkBatchCounts total successful failed pending)
                    (map recent_of (firstn 10 (order_desc rows)))), db)
    | None => (inr (BatchStatusError batch_id_required), db)
    end.

End SyncDrain.

(** ** Token validation, refresh and logout of [SessionManager] *)

Module SessionOps.

Import Sessions.

Local Open Scope Z_scope.

(** The claims of a session token. *)
Record Payload := mkPayload {
  p_userId : string;
  p_sessionId : string;
  p_type : string;
  p_iat : Z;
  p_exp : Z
}.

Section Jwt.

(** [jwt.verify(token, secret)] at the current instant: the decoded
    claims, or the message of the error it throws. *)
Variable jwt_verify : string -> string -> string + Payload.

(** [jwt.decode(token)], which checks no signature. *)
Variable jwt_decode : string -> option Payload.

Definition validation_failed (msg : string) : string :=
  "Token validation failed: " ++ msg.

(** [isTokenBlacklisted]: [GET blacklist:<token>] is not [null]. *)
Definition isTokenBlacklisted (t : string) (r : Redis) : bool :=
  match lookup t (blacklist r) with Some _ => true | None => false end.

(** [validateToken(token, tokenType)]; the [lastActivity] refresh at the
    end writes a field this model does not keep, so the store is not
    returned. *)
Definition validateToken (jwtSecret refreshSecret : string) (t tokenType : string) (r : Redis)
    : string + Payload :=
  let secret := if String.eqb tokenType "access" then jwtSecret else refreshSecret in
  match jwt_verify t secret with
  | inl e => inl (validation_failed e)
  | inr decoded =>
      if isTokenBlacklisted t r then inl (validation_failed "Token is blacklisted")
      else
        match lookup (p_sessionId decoded) (sessions r) with
        | Some sd =>
            if sd_isActive sd then inr decoded
            else inl (validation_failed "Session is not active")
        | None => inl (validation_failed "Session is not active")
        end
  end.

(** [refreshAccessToken(refreshToken)]; [newAccess] is the token
    [jwt.sign] returns for the new access payload. *)
Definition refreshAccessToken (jwtSecret refreshSecret : string) (refreshToken : string)
    (newAccess : Token) (r : Redis) : (string + Token) * Redis :=
  match validateToken jwtSecret refreshSecret refreshToken "refresh" r with
  | inl e => (inl ("Token refresh failed: " ++ e), r)
  | inr decoded =>
      let sid := p_sessionId decoded in
      match lookup sid (sessions r) with
      | Some sd =>
          let sd' := mkSession (sd_userId sd) newAccess (sd_refreshToken sd) (sd_isActive sd)
                       (sd_terminationReason sd) in
          (inr newAccess, mkRedis (put sid sd' (sessions r)) (user_sessions r) (blacklist r))
      | None => (inr newAccess, r)
      end
  end.

(** [logout(accessToken, refreshToken, reason)]: the refresh token is not
    used. *)
Definition logout (now : Z) (accessToken refreshToken : string) (reason : string) (r : Redis)
    : bool * Redis :=
  match jwt_decode accessToken with
  | Some decoded =>
      if String.eqb (p_sessionId decoded) "" then (true, r)
      else (true, snd (terminateSession now (p_sessionId decoded) reason r))
  | None => (true, r)
  end.

End Jwt.

End SessionOps.
(* ================================================================== *)
(** * Properties *)

(** ** SHA-256 digests are never empty *)

Module Sha256Facts.

Import Sha256.

Lemma round_length : forall st kw, List.length (round st kw) = List.length st.
Proof.
  intros st kw; unfold round.
  do 9 (destruct st as [|? st]; [reflexivity|]); reflexivity.
Qed.

Lemma fold_round_length : forall l st, List.length (fold_left round l st) = List.length st.
Proof.
  induction l as [|kw l IH]; intros st; simpl; [reflexivity|].
  rewrite IH; apply round_length.
Qed.

Lemma compress_length : forall hs b, List.length (compress hs b) = List.length hs.
Proof.
  intros hs b; unfold compress.
  rewrite length_map, length_combine, fold_round_length. apply Nat.min_id.
Qed.

Lemma fold_compress_length : forall bl hs, List.length (fold_left compress bl hs) = List.length hs.
Proof.
  induction bl as [|b bl IH]; intros hs; simpl; [reflexivity|].
  rewrite IH; apply compress_length.
Qed.

Lemma be_bytes_length : forall n x, List.length (be_bytes n x) = n.
Proof.
  induction n as [|n IH]; intros x; simpl; [reflexivity|].
  rewrite length_app, IH; simpl; lia.
Qed.

Lemma digest_nonempty : forall m, digest m <> [].
Proof.
  intros m; unfold digest.
  remember (fold_left compress _ H0) as hs eqn:Ehs.
  assert (Hl : List.length hs = 8%nat) by (subst; apply fold_compress_length).
  destruct hs as [|x hs]; [discriminate|].
  cbn [flat_map]. intro E. apply (f_equal (@List.length Z)) in E.
  rewrite length_app, be_bytes_length in E. cbn [List.length] in E. lia.
Qed.

Lemma sha256_hex_nonempty : forall s, sha256_hex s <> "".
Proof.
  intros s; unfold sha256_hex.
  destruct (digest (bytes_of_string s)) eqn:E; [exfalso; eapply digest_nonempty; eauto|].
  simpl; discriminate.
Qed.

End Sha256Facts.

Lemma recordHash_nonempty : forall r, recordHash r <> "".
Proof.
  intros r; unfold recordHash, generateRecordHash.
  destruct (record_id r) as [s|]; [destruct (String.eqb s "") eqn:E|];
    try apply Sha256Facts.sha256_hex_nonempty.
  intro H; subst; discriminate.
Qed.

(** ** Fingerprints *)

Module Fingerprint.



(** Two spellings of the same instant at second precision. *)
Definition e_plain_time : AttendanceRecord :=
  mkRecord "E1" "2024-06-10T08:30:00Z" "clock-in" (Some "D1") None None None None.

(** A record sent without a device id. *)
Definition e_no_device : AttendanceRecord :=
  mkRecord "E1" "2024-06-10T08:30:00Z" "clock-in" None None None None None.






(** C10 (code bug). The ingestion route and the queue store hash a record
    without device id differently: the route appends ['default'], the
    store appends the empty string. *)
Theorem route_and_store_hash_differ_without_device :
  device_id e_no_device = None /\
  route_hash_string e_no_device = "E1-2024-06-10T08:30:00Z-clock-in-default" /\
  store_hash_string e_no_device = "E1-2024-06-10T08:30:00Z-clock-in-" /\
  generateRecordHash e_no_device <> CacheService_generateRecordHash e_no_device.
Proof.
  split; [reflexivity|]. split; [reflexivity|]. split; [reflexivity|].
  vm_compute. discriminate.
Qed.

End Fingerprint.

(** ** Effects of the storage calls on the rows of one record hash *)

Module CacheFacts.

Import Cache.

Lemma filter_filter_other : forall (k h : string) (l : list HashRow),
  String.eqb h k = false ->
  filter (fun r => String.eqb (h_record_hash r) k)
         (filter (fun r => negb (String.eqb (h_record_hash r) h)) l) =
  filter (fun r => String.eqb (h_record_hash r) k) l.
Proof.
  intros k h l Hhk; induction l as [|r l IH]; simpl; [reflexivity|].
  destruct (String.eqb (h_record_hash r) h) eqn:E1; simpl.
  - apply String.eqb_eq in E1. rewrite E1, Hhk. exact IH.
  - destruct (String.eqb (h_record_hash r) k); simpl; rewrite IH; reflexivity.
Qed.

Lemma filter_filter_same : forall (h : string) (l : list HashRow),
  filter (fun r => String.eqb (h_record_hash r) h)
         (filter (fun r => negb (String.eqb (h_record_hash r) h)) l) = [].
Proof.
  intros h l; induction l as [|r l IH]; simpl; [reflexivity|].
  destruct (String.eqb (h_record_hash r) h) eqn:E1; simpl; [exact IH|].
  rewrite E1; exact IH.
Qed.

(** [storeRecordHash] leaves exactly one row for its hash and does not
    touch the rows of other hashes nor the queue. *)
Lemma storeRecordHash_spec : forall now h data s b db k,
  let '(res, db') := storeRecordHash now h data s b db in
  (exists n, res = inr n) /\
  attendance_queue db' = attendance_queue db /\ next_id db' = next_id db /\
  hash_rows k db' =
    (if String.eqb h k
     then [mkHashRow h data s now (if s then Some now else None) b]
     else hash_rows k db).
Proof.
  intros now h data s b db k; unfold storeRecordHash, hash_rows; simpl.
  split; [eexists; reflexivity|]. split; [reflexivity|]. split; [reflexivity|].
  rewrite filter_app. simpl.
  destruct (String.eqb h k) eqn:E.
  - apply String.eqb_eq in E; subst k. rewrite filter_filter_same. reflexivity.
  - rewrite filter_filter_other by exact E. rewrite app_nil_r. reflexivity.
Qed.

Lemma existsb_queue_rows : forall h db,
  existsb (fun row => String.eqb (q_record_hash row) h) (attendance_queue db) = true <->
  queue_rows h db <> [].
Proof.
  intros h db; unfold queue_rows.
  induction (attendance_queue db) as [|r l IH]; simpl.
  - split; [discriminate | intro H; exfalso; apply H; reflexivity].
  - destruct (String.eqb (q_record_hash r) h); simpl; [split; [discriminate|reflexivity]|exact IH].
Qed.

(** [queueAttendance] with a non-empty [record_hash]: it fails exactly
    when a row already has that hash, and then changes nothing; otherwise
    it appends one pending row with the next id. *)
Lemma queueAttendance_spec : forall now r h b db k,
  h <> "" ->
  let '(res, db') := queueAttendance now (mkQueueInput r (Some h) b) db in
  record_hashes db' = record_hashes db /\
  (queue_rows h db <> [] -> res = inl unique_violation /\ db' = db) /\
  (queue_rows h db = [] ->
     res = inr (next_id db) /\ next_id db' = S (next_id db) /\
     exists row, q_id row = next_id db /\ q_record_hash row = h /\
       q_synced row = false /\ q_synced_at row = None /\ q_retry_count row = 0%nat /\
       q_batch_id row = js_or_null b /\
       attendance_queue db' = (attendance_queue db ++ [row])%list /\
       queue_rows k db' = (queue_rows k db ++ (if String.eqb h k then [row] else []))%list).
Proof.
  intros now r h b db k Hh; unfold queueAttendance; cbn.
  assert (E : String.eqb h "" = false) by (apply String.eqb_neq; exact Hh).
  rewrite E.
  destruct (existsb (fun row => String.eqb (q_record_hash row) h) (attendance_queue db)) eqn:Ex.
  - cbn. split; [reflexivity|]. split; [intros _; split; reflexivity|].
    intro Hq. apply existsb_queue_rows in Ex. contradiction.
  - cbn. split; [reflexivity|]. split.
    + intro Hq. apply existsb_queue_rows in Hq. congruence.
    + intros _. split; [reflexivity|]. split; [reflexivity|].
      match goal with
      | |- context [ (attendance_queue db ++ [?row])%list ] => exists row
      end.
      do 7 (split; [reflexivity|]).
      unfold queue_rows; cbn. rewrite filter_app. cbn.
      destruct (String.eqb h k); reflexivity.
Qed.

Lemma find_hash_rows : forall h db,
  find (fun r => String.eqb (h_record_hash r) h) (record_hashes db) = None <->
  hash_rows h db = [].
Proof.
  intros h db; unfold hash_rows.
  induction (record_hashes db) as [|r l IH]; simpl; [tauto|].
  destruct (String.eqb (h_record_hash r) h); [split; discriminate|exact IH].
Qed.

End CacheFacts.

(** ** The queue operations *)

Module QueueOps.

Import Cache.

Definition d_sample : QueueInput :=
  mkQueueInput Fingerprint.e_plain_time (Some "fp-1") None.

Definition db_after_one : DB := snd (queueAttendance 0 d_sample empty_db).

(** C4 (counterexample). Queueing the same record hash twice does not
    return the existing entry: the second [INSERT] is rejected with the
    UNIQUE-constraint error (the queue itself is left unchanged). *)
Lemma queueAttendance_twice_rejected :
  fst (queueAttendance 0 d_sample empty_db) = inr 1%nat /\
  queueAttendance 1 d_sample db_after_one = (inl unique_violation, db_after_one).
Proof. split; reflexivity. Qed.

(** C4 (amended). [queueAttendance] with a non-empty record hash inserts a
    new pending row (synced = 0, retry_count = 0) under the next id when
    no row has that hash; when one has, it rejects the call with the
    UNIQUE-constraint error and leaves the store unchanged, so a repeated
    call changes nothing but does not report the existing entry. *)
Theorem queueAttendance_insert_or_reject : forall now r h b db,
  h <> "" ->
  let '(res, db') := queueAttendance now (mkQueueInput r (Some h) b) db in
  (queue_rows h db <> [] -> res = inl unique_violation /\ db' = db) /\
  (queue_rows h db = [] ->
     res = inr (next_id db) /\
     exists row, q_id row = next_id db /\ q_record_hash row = h /\
       q_synced row = false /\ q_retry_count row = 0%nat /\
       attendance_queue db' = (attendance_queue db ++ [row])%list /\
       record_hashes db' = record_hashes db).
Proof.
  intros now r h b db Hh.
  pose proof (CacheFacts.queueAttendance_spec now r h b db h Hh) as Hs.
  destruct (queueAttendance now (mkQueueInput r (Some h) b) db) as [res db'].
  destruct Hs as (Hrh & Hdup & Hnew). split; [exact Hdup|].
  intros Hq. destruct (Hnew Hq) as (Hres & _ & row & Hid & Hrow & Hsy & _ & Hrc & _ & Hq' & _).
  split; [exact Hres|]. exists row. repeat split; assumption.
Qed.

Lemma queueAttendance_insert_or_reject_witness :
  let '(res, db') := queueAttendance 0 (mkQueueInput Fingerprint.e_plain_time (Some "fp-1") None) empty_db in
  (queue_rows "fp-1" empty_db <> [] -> res = inl unique_violation /\ db' = empty_db) /\
  (queue_rows "fp-1" empty_db = [] ->
     res = inr (next_id empty_db) /\
     exists row, q_id row = next_id empty_db /\ q_record_hash row = "fp-1" /\
       q_synced row = false /\ q_retry_count row = 0%nat /\
       attendance_queue db' = (attendance_queue empty_db ++ [row])%list /\
       record_hashes db' = record_hashes empty_db).
Proof.
  apply (queueAttendance_insert_or_reject 0 Fingerprint.e_plain_time "fp-1" None empty_db).
  discriminate.
Defined.

Definition db_synced_at_5 : DB := snd (markAttendanceSynced 5 1 None db_after_one).
Definition db_synced_again_at_9 : DB := snd (markAttendanceSynced 9 1 None db_synced_at_5).

(** C5 (counterexample). A second [markAttendanceSynced] on an already
    synced row is not a no-op: it overwrites [synced_at] (5 becomes 9). *)
Lemma markAttendanceSynced_second_call_restamps :
  map q_synced (attendance_queue db_synced_at_5) = [true] /\
  map q_synced_at (attendance_queue db_synced_at_5) = [Some 5%nat] /\
  fst (markAttendanceSynced 9 1 None db_synced_at_5) = inr 1%nat /\
  map q_synced_at (attendance_queue db_synced_again_at_9) = [Some 9%nat].
Proof. repeat split; reflexivity. Qed.

(** C5 (amended). [markAttendanceSynced now id h] never rejects: whatever
    the current state of the rows (pending, failed or already synced), every
    row with that id gets [synced = 1] and [synced_at = now], the other
    fields and rows being unchanged; a repeated call re-stamps
    [synced_at]. *)
Theorem markAttendanceSynced_unconditional : forall now id rh db,
  let '(res, db') := markAttendanceSynced now id rh db in
  (exists n, res = inr n) /\
  next_id db' = next_id db /\
  attendance_queue db' =
    map (fun row => if Nat.eqb (q_id row) id then set_synced now row else row)
        (attendance_queue db) /\
  (forall row, q_synced (set_synced now row) = true /\
               q_synced_at (set_synced now row) = Some now /\
               q_record_hash (set_synced now row) = q_record_hash row /\
               q_retry_count (set_synced now row) = q_retry_count row).
Proof.
  intros now id rh db; unfold markAttendanceSynced.
  destruct rh as [h|]; [destruct (String.eqb h "")|]; cbn;
    (split; [eexists; reflexivity|]);
    repeat split; reflexivity.
Qed.

End QueueOps.

(** ** The [/clock] handler *)

Module IngestFacts.

Import Cache Ingest.

Lemma queue_rows_of_queue : forall k d d',
  attendance_queue d' = attendance_queue d -> queue_rows k d' = queue_rows k d.
Proof. intros k d d' E; unfold queue_rows; rewrite E; reflexivity. Qed.

Lemma hash_rows_of_hashes : forall k d d',
  record_hashes d' = record_hashes d -> hash_rows k d' = hash_rows k d.
Proof. intros k d d' E; unfold hash_rows; rewrite E; reflexivity. Qed.

(** What one [/clock] request does to the store and to the ERP. *)
Lemma clock_spec : forall now r erp d calls k,
  let h := recordHash r in
  let '(resp, w') := clock now r erp (mkWorld d calls) in
  (hash_rows h d <> [] -> resp = ClockDuplicate h /\ w' = mkWorld d calls) /\
  (hash_rows h d = [] ->
     erp_calls w' = (calls ++ [(r, erp)])%list /\
     (forall e, erp = inl e -> resp = Clock500 e /\ db w' = d) /\
     (erp = inr true ->
        resp = ClockSynced h /\ attendance_queue (db w') = attendance_queue d /\
        hash_rows k (db w') =
          (if String.eqb h k then [mkHashRow h r true now (Some now) None] else hash_rows k d)) /\
     (erp = inr false -> queue_rows h d <> [] ->
        resp = Clock500 unique_violation /\ db w' = d) /\
     (erp = inr false -> queue_rows h d = [] ->
        resp = ClockQueued h (next_id d) /\
        (exists row, q_id row = next_id d /\ q_record_hash row = h /\
           q_synced row = false /\ q_retry_count row = 0%nat /\
           queue_rows k (db w') = (queue_rows k d ++ (if String.eqb h k then [row] else []))%list) /\
        hash_rows k (db w') =
          (if String.eqb h k then [mkHashRow h r false now None None] else hash_rows k d))).
Proof.
  intros now r erp d calls k h.
  unfold clock, wcatch, clock_body, wbind, storage, wret, submitCheckin, checkDuplicateRecord.
  cbn -[storeRecordHash queueAttendance]. cbn [db erp_calls]. fold h.
  destruct (find _ _) eqn:Hf.
  - split; [intros _; split; reflexivity|].
    intro Hn. apply CacheFacts.find_hash_rows in Hn. fold h in Hf. congruence.
  - assert (Hn : hash_rows h d = []) by (apply CacheFacts.find_hash_rows; exact Hf).
    destruct erp as [e|[|]]; cbn [db erp_calls].
    + split; [intro C; contradiction|]. intros _.
      split; [reflexivity|].
      split; [intros e' E; injection E as <-; split; reflexivity|].
      split; [intros; discriminate|]. split; intros; discriminate.
    + pose proof (CacheFacts.storeRecordHash_spec now h r true None d k) as Hs.
      destruct (storeRecordHash now h r true None d) as [res d'].
      destruct Hs as ([n ->] & Hq & _ & Hh). cbn -[storeRecordHash queueAttendance].
      split; [intro C; contradiction|]. intros _.
      split; [reflexivity|]. split; [intros e E; discriminate|].
      split; [|split; intros; discriminate].
      intros _. split; [reflexivity|]. split; assumption.
    + pose proof (CacheFacts.queueAttendance_spec now r h None d k (recordHash_nonempty r)) as Hq.
      destruct (queueAttendance now (mkQueueInput r (Some h) None) d) as [res d1].
      destruct Hq as (Hrh & Hdup & Hnew).
      destruct (queue_rows h d) as [|row0 rows0] eqn:Eq.
      * destruct (Hnew eq_refl) as (-> & _ & row & Hid & Hrow & Hsy & _ & Hrc & _ & _ & Hqk).
        cbn [db erp_calls].
        pose proof (CacheFacts.storeRecordHash_spec now h r false None d1 k) as Hs.
        destruct (storeRecordHash now h r false None d1) as [res2 d2].
        destruct Hs as ([n ->] & Hq2 & _ & Hh2). cbn -[storeRecordHash queueAttendance].
        split; [intro C; contradiction|]. intros _.
        split; [reflexivity|]. split; [intros e E; discriminate|].
        split; [intros; discriminate|].
        split; [intros _ Hc; exfalso; apply Hc; reflexivity|].
        intros _ _. split; [reflexivity|]. split.
        -- exists row. rewrite (queue_rows_of_queue k d1 d2 Hq2). repeat split; assumption.
        -- rewrite Hh2. destruct (String.eqb h k); [reflexivity|].
           apply hash_rows_of_hashes; exact Hrh.
      * destruct (Hdup ltac:(discriminate)) as [-> ->]. cbn -[storeRecordHash queueAttendance].
        split; [intro C; contradiction|]. intros _.
        split; [reflexivity|]. split; [intros e E; discriminate|].
        split; [intros; discriminate|].
        split; [intros _ _; split; reflexivity|].
        intros _ Hc; discriminate.
Qed.

(** What one record of a [/batch] request does to the store and to the ERP. *)
Lemma batch_record_spec : forall now bid off r erp d calls k,
  let h := recordHash r in
  let '(res, w') := batch_record now bid off r erp (mkWorld d calls) in
  (hash_rows h d <> [] -> w' = mkWorld d calls) /\
  (hash_rows h d = [] ->
     erp_calls w' = (if off then calls else (calls ++ [(r, erp)])%list) /\
     (off = false -> resolved erp = false -> db w' = d) /\
     (queue_rows h d <> [] -> (off = true \/ erp = inr false) -> db w' = d) /\
     ((queue_rows h d = [] /\ (off = true \/ resolved erp = true)) \/ (off = false /\ erp = inr true) ->
        (exists rows, queue_rows k (db w') = (queue_rows k d ++ (if String.eqb h k then rows else []))%list /\
                      (List.length rows <= 1)%nat) /\
        (exists hr, hash_rows k (db w') = (if String.eqb h k then [hr] else hash_rows k d)))).
Proof.
  intros now bid off r erp d calls k h.
  unfold batch_record, wcatch, wbind, storage, wret, submitCheckin, checkDuplicateRecord.
  cbn -[storeRecordHash queueAttendance]. cbn [db erp_calls]. fold h.
  destruct (find _ _) eqn:Hf.
  - split; [intros _; reflexivity|].
    intro Hn. apply CacheFacts.find_hash_rows in Hn. fold h in Hf. congruence.
  - assert (Hn : hash_rows h d = []) by (apply CacheFacts.find_hash_rows; exact Hf).
    destruct off; [|destruct erp as [e|[|]]]; cbn [db erp_calls].
    3: { (* resolved with success: only a synced record-hash row *)
      pose proof (CacheFacts.storeRecordHash_spec now h r true None d k) as Hs.
      destruct (storeRecordHash now h r true None d) as [res d'].
      destruct Hs as ([n ->] & Hq & _ & Hh). cbn -[storeRecordHash queueAttendance].
      split; [intro C; contradiction|]. intros _.
      split; [reflexivity|]. split; [intros _ C; discriminate|].
      split; [intros _ [C|C]; discriminate|].
      intros _. split.
      - exists []. rewrite (queue_rows_of_queue k d d' Hq).
        destruct (String.eqb h k); cbn; rewrite ?app_nil_r; split; auto.
      - eexists; exact Hh. }
    2: { (* rejected: nothing stored *)
      cbn. split; [intro C; contradiction|]. intros _.
      split; [reflexivity|]. split; [intros _ _; reflexivity|].
      split; [intros _ [C|C]; discriminate|].
      intros [[_ [C|C]]|[_ C]]; discriminate. }
    all: pose proof (CacheFacts.queueAttendance_spec now r h (Some bid) d k (recordHash_nonempty r)) as Hq;
      destruct (queueAttendance now (mkQueueInput r (Some h) (Some bid)) d) as [res d1];
      destruct Hq as (Hrh & Hdup & Hnew);
      (destruct (queue_rows h d) as [|row0 rows0] eqn:Eq;
       [ destruct (Hnew eq_refl) as (-> & _ & row & _ & _ & _ & _ & _ & _ & _ & Hqk);
         cbn [db erp_calls];
         pose proof (CacheFacts.storeRecordHash_spec now h r false None d1 k) as Hs;
         destruct (storeRecordHash now h r false None d1) as [res2 d2];
         destruct Hs as ([n ->] & Hq2 & _ & Hh2); cbn -[storeRecordHash queueAttendance];
         split; [intro C; contradiction|]; intros _;
         split; [reflexivity|]; split; [intros C; discriminate|];
         split; [intro C; exfalso; apply C; reflexivity|];
         intros _; split;
         [ exists [row]; rewrite (queue_rows_of_queue k d1 d2 Hq2); split; [exact Hqk|cbn; lia]
         | eexists; rewrite Hh2; destruct (String.eqb h k); [reflexivity|];
           apply hash_rows_of_hashes; exact Hrh ]
       | destruct (Hdup ltac:(discriminate)) as [-> ->]; cbn -[storeRecordHash queueAttendance];
         split; [intro C; contradiction|]; intros _;
         split; [reflexivity|]; split; [intros C; discriminate|];
         split; [intros _ _; reflexivity|];
         intros [[C _]|[C1 C2]]; discriminate ]).
Qed.

(** *** One fingerprint across a sequence of submissions *)

Section OneFingerprint.

Variable fp : string.

(** The record-hash rows, queue rows and resolved ERP calls of [fp]: none
    yet, or one record-hash row with at most one queue row and one
    resolved call. *)
Definition Inv (w : World) : Prop :=
  (List.length (hash_rows fp (db w)) = 0 /\ List.length (queue_rows fp (db w)) = 0 /\
   List.length (resolved_calls_for fp w) = 0)%nat \/
  (List.length (hash_rows fp (db w)) = 1 /\ List.length (queue_rows fp (db w)) <= 1 /\
   List.length (resolved_calls_for fp w) <= 1)%nat.

(** What a request on a record of hash [h] may do to the rows of [fp];
    [stored] says whether the record reaches the storage calls (it is
    queued offline, or its ERP call resolved). *)
Definition Effect (h : string) (stored : bool) (d : DB) (calls : list (AttendanceRecord * Settlement))
    (w' : World) : Prop :=
  (hash_rows h d <> [] -> w' = mkWorld d calls) /\
  (hash_rows h d = [] ->
     (exists extra, calls_for fp w' = (calls_for fp (mkWorld d calls) ++
                                       (if String.eqb h fp then extra else []))%list /\
                    (List.length extra <= 1)%nat /\
                    (stored = false -> filter (fun c => resolved (snd c)) extra = [])) /\
     (stored = false -> db w' = d) /\
     (stored = true -> String.eqb h fp = false ->
        hash_rows fp (db w') = hash_rows fp d /\ queue_rows fp (db w') = queue_rows fp d) /\
     (stored = true -> String.eqb h fp = true -> queue_rows fp d = [] ->
        List.length (hash_rows fp (db w')) = 1%nat /\ (List.length (queue_rows fp (db w')) <= 1)%nat)).

Definition Good (h : string) (stored : bool) (w w' : World) : Prop :=
  (Inv w -> Inv w') /\
  (hash_rows fp (db w) <> [] -> hash_rows fp (db w') <> []) /\
  (stored = true -> h = fp -> Inv w -> hash_rows fp (db w') <> []).

Lemma length_nil : forall {A} (l : list A), List.length l = 0%nat -> l = [].
Proof. intros A [|x l] H; [reflexivity|discriminate]. Qed.

Lemma resolved_calls_app : forall w w' extra,
  calls_for fp w' = (calls_for fp w ++ extra)%list ->
  resolved_calls_for fp w' =
    (resolved_calls_for fp w ++ filter (fun c => resolved (snd c)) extra)%list.
Proof. intros w w' extra E. unfold resolved_calls_for. rewrite E, filter_app. reflexivity. Qed.

Lemma inv_same : forall w w',
  hash_rows fp (db w') = hash_rows fp (db w) -> queue_rows fp (db w') = queue_rows fp (db w) ->
  resolved_calls_for fp w' = resolved_calls_for fp w -> Inv w -> Inv w'.
Proof. intros w w' E1 E2 E3. unfold Inv. rewrite E1, E2, E3. tauto. Qed.

Lemma effect_good : forall h stored d calls w',
  Effect h stored d calls w' -> Good h stored (mkWorld d calls) w'.
Proof.
  intros h stored d calls w' [Hdup Hnew]. cbn [db].
  destruct (hash_rows h d) as [|hr hrs] eqn:Eh.
  - destruct (Hnew eq_refl) as ([extra [Hc [Hx Hxr]]] & Hkeep & Hother & Hsame).
    destruct (String.eqb h fp) eqn:Ef.
    + apply String.eqb_eq in Ef. subst h.
      assert (Hq : Inv (mkWorld d calls) ->
                   queue_rows fp d = [] /\ resolved_calls_for fp (mkWorld d calls) = []).
      { intros [(H1 & H2 & H3) | (H1 & _ & _)]; cbn [db] in *.
        - split; apply length_nil; assumption.
        - rewrite Eh in H1; discriminate. }
      pose proof (resolved_calls_app _ _ _ Hc) as Hr.
      destruct stored.
      * split; [|split].
        -- intros HI. destruct (Hq HI) as [Hq0 Hc0]. destruct (Hsame eq_refl eq_refl Hq0) as [Hh1 Hq1].
           right. rewrite Hr, Hc0. cbn.
           pose proof (filter_length_le (fun c : AttendanceRecord * Settlement => resolved (snd c)) extra).
           lia.
        -- intros C; contradiction.
        -- intros _ _ HI. destruct (Hq HI) as [Hq0 _]. destruct (Hsame eq_refl eq_refl Hq0) as [Hh1 _].
           intro C. rewrite C in Hh1. discriminate.
      * rewrite (Hxr eq_refl), app_nil_r in Hr.
        split; [|split].
        -- apply inv_same; [rewrite (Hkeep eq_refl); reflexivity..|exact Hr].
        -- intros C; contradiction.
        -- intros C; discriminate.
    + rewrite app_nil_r in Hc.
      assert (Hr : resolved_calls_for fp w' = resolved_calls_for fp (mkWorld d calls))
        by (unfold resolved_calls_for; rewrite Hc; reflexivity).
      assert (Hrows : hash_rows fp (db w') = hash_rows fp d /\ queue_rows fp (db w') = queue_rows fp d).
      { destruct stored; [exact (Hother eq_refl eq_refl)|].
        rewrite (Hkeep eq_refl). split; reflexivity. }
      destruct Hrows as [Hh Hq].
      split; [apply inv_same; assumption|].
      split; [rewrite Hh; tauto|].
      intros _ E. subst h. rewrite String.eqb_refl in Ef. discriminate.
  - rewrite (Hdup ltac:(discriminate)). unfold Good. cbn [db].
    split; [tauto|]. split; [tauto|].
    intros _ E _. subst h. rewrite Eh. discriminate.
Qed.

Lemma calls_for_snoc : forall d d' calls r erp,
  calls_for fp (mkWorld d' (calls ++ [(r, erp)])%list) =
  (calls_for fp (mkWorld d calls) ++ (if String.eqb (recordHash r) fp then [(r, erp)] else []))%list.
Proof.
  intros; unfold calls_for; cbn [erp_calls]. rewrite filter_app. cbn.
  destruct (String.eqb (recordHash r) fp); reflexivity.
Qed.

Lemma clock_effect : forall now r erp d calls,
  Effect (recordHash r) (resolved erp) d calls (snd (clock now r erp (mkWorld d calls))).
Proof.
  intros now r erp d calls.
  pose proof (clock_spec now r erp d calls fp) as Hs. cbv zeta in Hs.
  destruct (clock now r erp (mkWorld d calls)) as [resp w']. cbn [snd].
  destruct Hs as [Hdup Hnew]. split; [intros C; exact (proj2 (Hdup C))|].
  intros Hn. destruct (Hnew Hn) as (Hc & Hrej & Hok & H500 & Hq).
  destruct w' as [d' calls']. cbn [db erp_calls] in *. subst calls'.
  destruct erp as [e|ok].
  { destruct (Hrej e eq_refl) as [_ ->].
    split; [exists [(r, inl e)]; split; [apply calls_for_snoc|split; [cbn; lia|reflexivity]]|].
    split; [intros _; reflexivity|]. split; intros C; discriminate. }
  split; [exists [(r, inr ok)]; split; [apply calls_for_snoc | split; [cbn; lia|intros C; discriminate]]|].
  split; [intros C; discriminate|].
  destruct ok.
  - destruct (Hok eq_refl) as (_ & Haq & Hh).
    split.
    + intros _ Ef. rewrite Ef in Hh. split; [exact Hh|]. apply queue_rows_of_queue; exact Haq.
    + intros _ Ef Hq0. rewrite Ef in Hh. rewrite Hh.
      apply String.eqb_eq in Ef. rewrite <- Ef in Hq0 |- *.
      rewrite (queue_rows_of_queue _ d d' Haq), Hq0. cbn. lia.
  - destruct (queue_rows (recordHash r) d) as [|q0 qs] eqn:Eq.
    + destruct (Hq eq_refl eq_refl) as (_ & (row & _ & _ & _ & _ & Hqk) & Hh).
      split.
      * intros _ Ef. rewrite Ef in Hh, Hqk. rewrite app_nil_r in Hqk. split; assumption.
      * intros _ Ef Hq0. rewrite Ef in Hh, Hqk. rewrite Hh, Hqk, Hq0. cbn. lia.
    + destruct (H500 eq_refl ltac:(discriminate)) as [_ Hd]. subst d'.
      split; [intros _ _; split; reflexivity|].
      intros _ Ef Hq0. apply String.eqb_eq in Ef. rewrite Ef in Eq. congruence.
Qed.

Lemma batch_record_effect : forall now bid off r erp d calls,
  Effect (recordHash r) (off || resolved erp) d calls
         (snd (batch_record now bid off r erp (mkWorld d calls))).
Proof.
  intros now bid off r erp d calls.
  pose proof (batch_record_spec now bid off r erp d calls fp) as Hs. cbv zeta in Hs.
  destruct (batch_record now bid off r erp (mkWorld d calls)) as [res w']. cbn [snd].
  destruct Hs as [Hdup Hnew]. split; [exact Hdup|].
  intros Hn. destruct (Hnew Hn) as (Hc & Hrej & Hkeep & Hchg).
  destruct w' as [d' calls']. cbn [db erp_calls] in *. subst calls'.
  split.
  { destruct off.
    - exists []. split; [|cbn; split; [lia|reflexivity]].
      destruct (String.eqb (recordHash r) fp); rewrite app_nil_r; reflexivity.
    - exists [(r, erp)]. split; [apply calls_for_snoc | split; [cbn; lia|]].
      cbn. intros E. rewrite E. reflexivity. }
  split.
  { intros Hst. apply orb_false_iff in Hst as [Ho Hr]. exact (Hrej Ho Hr). }
  assert (Hcase : (queue_rows (recordHash r) d = [] /\ (off = true \/ resolved erp = true)) \/
                  (off = false /\ erp = inr true) \/
                  (queue_rows (recordHash r) d <> [] /\ (off = true \/ erp = inr false)) \/
                  (off = false /\ resolved erp = false)).
  { destruct off; [|destruct erp as [e|[|]]]; cbn [resolved];
      [ | right; right; right; split; reflexivity | right; left; split; reflexivity | ];
      (destruct (queue_rows (recordHash r) d) eqn:Eq;
       [ left; split; [reflexivity|auto]
       | right; right; left; split; [discriminate|auto] ]). }
  destruct Hcase as [Hc1 | [Hc1 | [[Hc1 Hc2] | [Ho Hr]]]].
  - destruct (Hchg (or_introl Hc1)) as ([rows [Hqk Hlen]] & [hr Hh]).
    split.
    + intros _ Ef. rewrite Ef in Hh, Hqk. rewrite app_nil_r in Hqk. split; assumption.
    + intros _ Ef Hq0. rewrite Ef in Hh, Hqk. rewrite Hh, Hqk, Hq0. cbn. lia.
  - destruct (Hchg (or_intror Hc1)) as ([rows [Hqk Hlen]] & [hr Hh]).
    split.
    + intros _ Ef. rewrite Ef in Hh, Hqk. rewrite app_nil_r in Hqk. split; assumption.
    + intros _ Ef Hq0. rewrite Ef in Hh, Hqk. rewrite Hh, Hqk, Hq0. cbn. lia.
  - rewrite (Hkeep Hc1 Hc2). split; [intros _ _; split; reflexivity|].
    intros _ Ef Hq0. apply String.eqb_eq in Ef. rewrite Ef in Hc1. contradiction.
  - rewrite (Hrej Ho Hr). split; [intros _ _; split; reflexivity|].
    intros C. subst off. cbn in C. congruence.
Qed.

(** Fingerprints of the records of a submission that reach the storage
    calls when nothing is stored for them yet. *)
Definition submission_stored (s : Submission) : list string :=
  match s with
  | SubClock r erp => if resolved erp then [recordHash r] else []
  | SubBatch _ _ off rs =>
      map (fun p => recordHash (fst p)) (filter (fun p => off || resolved (snd p)) rs)
  end.

Definition run_stored (subs : list (Time * Submission)) : list string :=
  flat_map (fun p => submission_stored (snd p)) subs.

Definition GoodSeq (hs : list string) (w w' : World) : Prop :=
  (Inv w -> Inv w') /\
  (hash_rows fp (db w) <> [] -> hash_rows fp (db w') <> []) /\
  (In fp hs -> Inv w -> hash_rows fp (db w') <> []).

Lemma goodseq_nil : forall w, GoodSeq [] w w.
Proof. intros w; unfold GoodSeq; cbn; tauto. Qed.

Lemma goodseq_app : forall hs1 hs2 w w1 w2,
  GoodSeq hs1 w w1 -> GoodSeq hs2 w1 w2 -> GoodSeq (hs1 ++ hs2) w w2.
Proof.
  intros hs1 hs2 w w1 w2 (G1 & G2 & G3) (S1 & S2 & S3). unfold GoodSeq.
  split; [tauto|]. split; [tauto|].
  intros Hin HI. apply in_app_or in Hin. destruct Hin as [Hin | Hin]; auto.
Qed.

Lemma goodseq_of_good : forall h stored w w',
  Good h stored w w' -> GoodSeq (if stored then [h] else []) w w'.
Proof.
  intros h stored w w' (G1 & G2 & G3). unfold GoodSeq.
  split; [exact G1|]. split; [exact G2|].
  destruct stored; [|intros []].
  intros [E|[]] HI. exact (G3 eq_refl E HI).
Qed.

Lemma clock_good : forall now r erp w,
  Good (recordHash r) (resolved erp) w (snd (clock now r erp w)).
Proof. intros now r erp [d calls]. apply effect_good, clock_effect. Qed.

Lemma batch_record_good : forall now bid off r erp w,
  Good (recordHash r) (off || resolved erp) w (snd (batch_record now bid off r erp w)).
Proof. intros now bid off r erp [d calls]. apply effect_good, batch_record_effect. Qed.

Lemma batch_loop_good : forall now bid off rs w,
  GoodSeq (map (fun p => recordHash (fst p)) (filter (fun p => off || resolved (snd p)) rs))
          w (snd (batch_loop now bid off rs w)).
Proof.
  intros now bid off rs. induction rs as [|[r erp] rs IH]; intros w.
  - apply goodseq_nil.
  - cbn [batch_loop].
    pose proof (batch_record_good now bid off r erp w) as G.
    destruct (batch_record now bid off r erp w) as [res w1]. cbn [snd] in G.
    specialize (IH w1).
    destruct (batch_loop now bid off rs w1) as [items w2]. cbn [snd] in IH |- *.
    replace (map (fun p => recordHash (fst p)) (filter (fun p => off || resolved (snd p)) ((r, erp) :: rs)))
      with ((if off || resolved erp then [recordHash r] else []) ++
            map (fun p => recordHash (fst p)) (filter (fun p => off || resolved (snd p)) rs))%list
      by (cbn [filter fst snd]; destruct (off || resolved erp); reflexivity).
    eapply goodseq_app; [apply goodseq_of_good; exact G | exact IH].
Qed.

Lemma submit_good : forall now s w,
  GoodSeq (submission_stored s) w (submit now s w).
Proof.
  intros now [r erp | b u off rs] w; cbn [submission_stored submit].
  - apply goodseq_of_good, clock_good.
  - apply batch_loop_good.
Qed.

Lemma run_good : forall subs w, GoodSeq (run_stored subs) w (run subs w).
Proof.
  induction subs as [|[t s] subs IH]; intros w.
  - apply goodseq_nil.
  - cbn [run run_stored flat_map snd]. fold (run_stored subs).
    eapply goodseq_app; [apply submit_good | apply IH].
Qed.

End OneFingerprint.

Lemma clock_duplicate : forall now r erp w,
  hash_rows (recordHash r) (db w) <> [] ->
  clock now r erp w = (ClockDuplicate (recordHash r), w).
Proof.
  intros now r erp [d calls] Hn. cbn [db] in Hn.
  unfold clock, wcatch, clock_body, wbind, storage, wret, checkDuplicateRecord.
  cbn -[storeRecordHash queueAttendance submitCheckin].
  destruct (find _ _) eqn:Hf; [reflexivity|].
  apply CacheFacts.find_hash_rows in Hf. contradiction.
Qed.

Lemma batch_record_duplicate : forall now bid off r erp w,
  hash_rows (recordHash r) (db w) <> [] ->
  batch_record now bid off r erp w = (inr (BDuplicate (recordHash r)), w).
Proof.
  intros now bid off r erp [d calls] Hn. cbn [db] in Hn.
  unfold batch_record, wcatch, wbind, storage, wret, checkDuplicateRecord.
  cbn -[storeRecordHash queueAttendance submitCheckin].
  destruct (find _ _) eqn:Hf; [reflexivity|].
  apply CacheFacts.find_hash_rows in Hf. contradiction.
Qed.

Lemma clock_rejected : forall now r e w,
  hash_rows (recordHash r) (db w) = [] ->
  clock now r (inl e) w = (Clock500 e, mkWorld (db w) (erp_calls w ++ [(r, inl e)])%list).
Proof.
  intros now r e [d calls] Hn. cbn [db erp_calls] in *.
  unfold clock, wcatch, clock_body, wbind, storage, wret, submitCheckin, checkDuplicateRecord.
  cbn -[storeRecordHash queueAttendance].
  destruct (find _ _) eqn:Hf; [|reflexivity].
  exfalso. assert (C : find (fun row => String.eqb (h_record_hash row) (recordHash r)) (record_hashes d) = None)
    by (apply CacheFacts.find_hash_rows; exact Hn). congruence.
Qed.

Lemma batch_record_rejected : forall now bid r e w,
  hash_rows (recordHash r) (db w) = [] ->
  batch_record now bid false r (inl e) w =
    (inr (BError (recordHash r) e), mkWorld (db w) (erp_calls w ++ [(r, inl e)])%list).
Proof.
  intros now bid r e [d calls] Hn. cbn [db erp_calls] in *.
  unfold batch_record, wcatch, wbind, storage, wret, submitCheckin, checkDuplicateRecord.
  cbn -[storeRecordHash queueAttendance].
  destruct (find _ _) eqn:Hf; [|reflexivity].
  exfalso. assert (C : find (fun row => String.eqb (h_record_hash row) (recordHash r)) (record_hashes d) = None)
    by (apply CacheFacts.find_hash_rows; exact Hn). congruence.
Qed.

Lemma successful_calls_le : forall h w,
  (List.length (successful_calls_for h w) <= List.length (resolved_calls_for h w))%nat.
Proof.
  intros h w. unfold successful_calls_for, resolved_calls_for.
  induction (calls_for h w) as [|c cs IH]; cbn; [lia|].
  destruct (snd c) as [e|[|]]; cbn; lia.
Qed.

(** A clock event whose timestamp is an ISO-8601 week date: [isISO8601]
    accepts it, [Date] cannot parse it. *)
Definition rec_week : AttendanceRecord :=
  mkRecord "EMP-001" "2024-W01-1" "clock-in" (Some "D1") None None None None.

(** [erpnext.submitCheckin] rejects with ['Invalid time value'] on such a
    record, whatever the ERP and the settings, as soon as [Date] cannot
    parse the timestamp. *)
Lemma submitCheckin_rejects_unparsed_time : forall r toISOString dflt m delay send text,
  employee_id r <> "" -> status r <> "" -> timestamp r <> "" ->
  toISOString (timestamp r) = None ->
  Erp.submitCheckin toISOString dflt m delay send text (Erp.of_request r) = inl Erp.invalid_time.
Proof.
  intros r toISOString dflt m delay send text He Hs Ht Hd.
  unfold Erp.submitCheckin, Erp.prepareCheckin, Erp.of_request, Erp.present, Erp.js_or_opt.
  cbn [Erp.ci_employee_id Erp.ci_timestamp Erp.ci_status Erp.ci_log_type].
  unfold Erp.truthy_str.
  apply String.eqb_neq in He, Hs, Ht. cbn. rewrite ?He, ?Hs, ?Ht. cbn. rewrite ?Hs, Hd. reflexivity.
Qed.

Lemma rec_week_rejected : forall toISOString dflt m delay send text,
  toISOString (timestamp rec_week) = None ->
  Erp.submitCheckin toISOString dflt m delay send text (Erp.of_request rec_week) = inl Erp.invalid_time.
Proof.
  intros. apply submitCheckin_rejects_unparsed_time; [discriminate..|assumption].
Qed.

(** Two [/clock] requests for the week-date event. *)
Definition two_week_clocks : list (Time * Submission) :=
  [(0%nat, SubClock rec_week (inl Erp.invalid_time)); (1%nat, SubClock rec_week (inl Erp.invalid_time))].

(** C1 (counterexample). [submitCheckin] rejects a record whose timestamp
    [Date] cannot parse, such as the week date ['2024-W01-1'] that the
    validator accepts. Sending that event twice to [/clock] answers 500
    both times, the second time not as a duplicate, and leaves no queue
    entry and no record-hash row for its fingerprint: the queue does not
    end with exactly one entry. *)
Lemma run_week_date_twice_no_queue_entry :
  (forall toISOString dflt m delay send text,
     toISOString (timestamp rec_week) = None ->
     Erp.submitCheckin toISOString dflt m delay send text (Erp.of_request rec_week) = inl Erp.invalid_time) /\
  fst (clock 0 rec_week (inl Erp.invalid_time) empty_world) = Clock500 Erp.invalid_time /\
  fst (clock 1 rec_week (inl Erp.invalid_time) (run [(0%nat, SubClock rec_week (inl Erp.invalid_time))] empty_world))
    = Clock500 Erp.invalid_time /\
  queue_rows (recordHash rec_week) (db (run two_week_clocks empty_world)) = [] /\
  hash_rows (recordHash rec_week) (db (run two_week_clocks empty_world)) = [] /\
  List.length (calls_for (recordHash rec_week) (run two_week_clocks empty_world)) = 2%nat /\
  successful_calls_for (recordHash rec_week) (run two_week_clocks empty_world) = [].
Proof.
  split; [exact rec_week_rejected|].
  vm_compute. repeat split.
Qed.

(** C1 (amended). Start from a state with no record-hash row, no queue
    entry and no resolved ERP call for a fingerprint [fp]. After any
    sequence of [/clock] and [/batch] submissions there is at most one
    queue entry and at most one record-hash row for [fp], and at most one
    resolved call of [submitCheckin] for it, so at most one successful
    one; without a record-hash row there is no queue entry and no resolved
    call either; and there is exactly one record-hash row once a record of
    fingerprint [fp] was queued offline or had its ERP call resolve. A
    record whose fingerprint has a record-hash row is answered as a
    duplicate with the state unchanged. A record whose [submitCheckin]
    rejects is answered 500 ([/clock]) or with an error item ([/batch]):
    only the call is recorded, nothing is stored. *)
Theorem run_at_most_once : forall fp subs w,
  hash_rows fp (db w) = [] -> queue_rows fp (db w) = [] -> resolved_calls_for fp w = [] ->
  let w' := run subs w in
  ((List.length (queue_rows fp (db w')) <= 1)%nat /\
   (List.length (hash_rows fp (db w')) <= 1)%nat /\
   (List.length (resolved_calls_for fp w') <= 1)%nat /\
   (List.length (successful_calls_for fp w') <= 1)%nat /\
   (hash_rows fp (db w') = [] -> queue_rows fp (db w') = [] /\ resolved_calls_for fp w' = []) /\
   (In fp (run_stored subs) -> List.length (hash_rows fp (db w')) = 1%nat)) /\
  (forall now r erp w0, hash_rows (recordHash r) (db w0) <> [] ->
     clock now r erp w0 = (ClockDuplicate (recordHash r), w0)) /\
  (forall now bid off r erp w0, hash_rows (recordHash r) (db w0) <> [] ->
     batch_record now bid off r erp w0 = (inr (BDuplicate (recordHash r)), w0)) /\
  (forall now r e w0, hash_rows (recordHash r) (db w0) = [] ->
     clock now r (inl e) w0 = (Clock500 e, mkWorld (db w0) (erp_calls w0 ++ [(r, inl e)])%list)) /\
  (forall now bid r e w0, hash_rows (recordHash r) (db w0) = [] ->
     batch_record now bid false r (inl e) w0 =
       (inr (BError (recordHash r) e), mkWorld (db w0) (erp_calls w0 ++ [(r, inl e)])%list)).
Proof.
  intros fp subs w Hh Hq Hc w'.
  split; [|split; [exact clock_duplicate|split; [exact batch_record_duplicate|
                   split; [exact clock_rejected | exact batch_record_rejected]]]].
  destruct (run_good fp subs w) as (G1 & _ & G3). fold w' in G1, G3.
  assert (HI : Inv fp w) by (left; rewrite Hh, Hq, Hc; cbn; lia).
  specialize (G1 HI).
  pose proof (successful_calls_le fp w') as Hs.
  destruct G1 as [(H1 & H2 & H3) | (H1 & H2 & H3)].
  - apply length_nil in H1, H2, H3.
    rewrite H1, H2, H3. cbn. split; [lia|]. split; [lia|]. split; [lia|]. split; [rewrite H3 in Hs; cbn in Hs; lia|].
    split; [intros _; split; reflexivity|].
    intros Hin. specialize (G3 Hin HI). contradiction.
  - split; [lia|]. split; [lia|]. split; [lia|]. split; [lia|].
    split; [intros E; rewrite E in H1; discriminate|]. intros _; exact H1.
Qed.

(** A device first sends record [dev-42] with a week-date timestamp, then
    again with the timestamp corrected. *)
Definition rec_week_42 : AttendanceRecord :=
  mkRecord "EMP-001" "2024-W01-1" "clock-in" (Some "D1") None None None (Some "dev-42").
Definition rec_fixed_42 : AttendanceRecord :=
  mkRecord "EMP-001" "2024-01-01T08:00:00Z" "clock-in" (Some "D1") None None None (Some "dev-42").

Definition resend_corrected : list (Time * Submission) :=
  [(0%nat, SubClock rec_week_42 (inl Erp.invalid_time)); (1%nat, SubClock rec_fixed_42 (inr false))].

Lemma run_at_most_once_witness :
  (hash_rows "dev-42" (db empty_world) = [] /\ queue_rows "dev-42" (db empty_world) = [] /\
   resolved_calls_for "dev-42" empty_world = []) /\
  List.length (queue_rows "dev-42" (db (run resend_corrected empty_world))) = 1%nat /\
  List.length (hash_rows "dev-42" (db (run resend_corrected empty_world))) = 1%nat.
Proof.
  split; [split; [reflexivity | split; reflexivity]|].
  split; [vm_compute; reflexivity|].
  apply (run_at_most_once "dev-42" resend_corrected empty_world);
    [reflexivity .. | vm_compute; tauto].
Defined.

(** C2 (counterexample). On the week-date record the [/clock] handler
    calls [submitCheckin], which rejects with ['Invalid time value'], and
    answers 500 with no queue entry and no record-hash row: the handler
    does not enqueue the event before it attempts the upstream call. *)
Lemma clock_rejected_before_enqueue :
  (forall toISOString dflt m delay send text,
     toISOString (timestamp rec_week) = None ->
     Erp.submitCheckin toISOString dflt m delay send text (Erp.of_request rec_week) = inl Erp.invalid_time) /\
  let '(resp, w') := clock 0 rec_week (inl Erp.invalid_time) empty_world in
  clock_status resp = 500%nat /\
  resp = Clock500 Erp.invalid_time /\
  erp_calls w' = [(rec_week, inl Erp.invalid_time)] /\
  queue_rows (recordHash rec_week) (db w') = [] /\
  hash_rows (recordHash rec_week) (db w') = [].
Proof.
  split; [exact rec_week_rejected|].
  vm_compute. repeat split.
Qed.

(** C2 (amended). The [/clock] handler first looks the fingerprint up in
    the record-hash table and answers [duplicate] with the state unchanged
    if it is there. Otherwise it calls [submitCheckin] before any storage
    write. If the call rejects, it answers 500 with that message and the
    storage unchanged. If it resolves with [success], it stores a synced
    record-hash row and answers [synced] without touching the queue. If it
    resolves without [success], it enqueues a pending entry (retry count
    0), stores an unsynced record-hash row and answers [queued] with the
    entry's id, or, when the queue already holds an entry for the
    fingerprint, answers 500 with the storage unchanged. *)
Theorem clock_outcomes : forall now r erp d calls,
  let h := recordHash r in
  let '(resp, w') := clock now r erp (mkWorld d calls) in
  match resp with
  | ClockDuplicate h' => h' = h /\ hash_rows h d <> [] /\ w' = mkWorld d calls
  | ClockSynced h' =>
      h' = h /\ erp = inr true /\ hash_rows h d = [] /\
      erp_calls w' = (calls ++ [(r, inr true)])%list /\
      attendance_queue (db w') = attendance_queue d /\
      hash_rows h (db w') = [mkHashRow h r true now (Some now) None]
  | ClockQueued h' qid =>
      h' = h /\ erp = inr false /\ hash_rows h d = [] /\ queue_rows h d = [] /\
      erp_calls w' = (calls ++ [(r, inr false)])%list /\
      (exists row, q_id row = qid /\ qid = next_id d /\ q_synced row = false /\
                   q_retry_count row = 0%nat /\ queue_rows h (db w') = [row]) /\
      hash_rows h (db w') = [mkHashRow h r false now None None]
  | Clock500 m =>
      hash_rows h d = [] /\ erp_calls w' = (calls ++ [(r, erp)])%list /\ db w' = d /\
      (erp = inl m \/
       (m = unique_violation /\ erp = inr false /\ queue_rows h d <> []))
  end.
Proof.
  intros now r erp d calls h.
  pose proof (clock_spec now r erp d calls h) as Hs. cbv zeta in Hs. fold h in Hs.
  destruct (clock now r erp (mkWorld d calls)) as [resp w'].
  destruct Hs as [Hdup Hnew].
  destruct (hash_rows h d) as [|hr hrs] eqn:Eh.
  - destruct (Hnew eq_refl) as (Hc & Hrej & Hok & H500 & Hq). rewrite String.eqb_refl in Hok, Hq.
    destruct erp as [e|[|]].
    + destruct (Hrej e eq_refl) as (-> & Hd). rewrite Hc.
      repeat split; try assumption; try reflexivity. left; reflexivity.
    + destruct (Hok eq_refl) as (-> & Haq & Hh). rewrite Hc.
      repeat split; assumption.
    + destruct (queue_rows h d) as [|q0 qs] eqn:Eq.
      * destruct (Hq eq_refl eq_refl) as (-> & (row & Hid & _ & Hsy & Hrc & Hqk) & Hh).
        rewrite Hc.
        repeat split; try assumption; try reflexivity.
        exists row. repeat split; assumption.
      * destruct (H500 eq_refl ltac:(discriminate)) as (-> & Hd). rewrite Hc.
        repeat split; try assumption; try reflexivity.
        right. repeat split; discriminate.
  - destruct (Hdup ltac:(discriminate)) as (-> & Hw).
    repeat split; try assumption; discriminate.
Qed.

End IngestFacts.

(** ** The retry loop of [safePost] *)

Module UpstreamFacts.

Import Upstream.

Definition retryable (o : Outcome) : bool := negb (succeeded o) && retryCondition o.

Definition final_result (maxRetries : nat) (o : Outcome) : PostResult :=
  if succeeded o then PSuccess (response_status o) else PFailure (response_status o) maxRetries.

Lemma attempts_from_spec : forall retryDelay send M fuel a,
  (1 <= a)%nat -> (a + fuel = S M)%nat -> (1 <= fuel)%nat ->
  let t := attempts_from fuel a M retryDelay send in
  exists n, (a <= n <= M)%nat /\
    t_attempts t = seq a (S n - a) /\
    t_delays t = map (backoff retryDelay) (seq a (n - a)) /\
    (forall b, (a <= b < n)%nat -> retryable (send b) = true) /\
    ((n < M)%nat -> retryable (send n) = false) /\
    t_result t = final_result M (send n).
Proof.
  intros retryDelay send M fuel. induction fuel as [|fuel IH]; intros a Ha Hsum Hf; [lia|].
  cbn [attempts_from].
  destruct (succeeded (send a)) eqn:Es.
  - exists a. cbn [t_attempts t_delays t_result].
    replace (S a - a)%nat with 1%nat by lia. replace (a - a)%nat with 0%nat by lia.
    split; [lia|]. split; [reflexivity|]. split; [reflexivity|].
    split; [intros b Hb; lia|].
    unfold retryable, final_result. rewrite Es. split; reflexivity.
  - destruct (Nat.ltb a M && retryCondition (send a)) eqn:Er.
    + apply andb_true_iff in Er. destruct Er as [Hlt Hrc]. apply Nat.ltb_lt in Hlt.
      destruct (IH (S a) ltac:(lia) ltac:(lia) ltac:(lia))
        as (n & Hn & Hatt & Hdel & Hbefore & Hlast & Hres).
      exists n. cbn [t_attempts t_delays t_result].
      split; [lia|].
      split; [rewrite Hatt; replace (S n - a)%nat with (S (S n - S a)) by lia; reflexivity|].
      split; [rewrite Hdel; replace (n - a)%nat with (S (n - S a)) by lia; reflexivity|].
      split; [|split; assumption].
      intros b Hb. destruct (Nat.eq_dec b a) as [->|Hne].
      * unfold retryable. rewrite Es, Hrc. reflexivity.
      * apply Hbefore. lia.
    + exists a. cbn [t_attempts t_delays t_result].
      replace (S a - a)%nat with 1%nat by lia. replace (a - a)%nat with 0%nat by lia.
      split; [lia|]. split; [reflexivity|]. split; [reflexivity|].
      split; [intros b Hb; lia|].
      split.
      * intros Hlt. apply Nat.ltb_lt in Hlt. rewrite Hlt in Er. cbn in Er.
        unfold retryable. rewrite Es, Er. reflexivity.
      * unfold final_result. rewrite Es. reflexivity.
Qed.

(** Every attempt of a request to an upstream that keeps answering 503. *)
Definition always_503 (_ : nat) : Outcome := Response 503.

(** C6 (counterexample): with [retries] = 3 (the default) and every attempt
    answered 503, [safePost] makes 3 attempts in total, i.e. it retries only
    twice (after delays of 1000 and 2000 ms), not 3 times; it reports
    [retries: 3]. *)
Lemma safePost_three_attempts_two_retries :
  max_retries None default_retries = 3%nat /\
  safePost (max_retries None default_retries) default_retry_delay always_503 =
    mkTrace (PFailure (Some 503%Z) 3) [1; 2; 3]%nat [1000; 2000]%Z.
Proof. split; reflexivity. Qed.

(** C6 (amended): with [maxRetries] >= 1, [safePost] makes attempts
    1, 2, ..., n for some n <= [maxRetries], [maxRetries] being the total
    number of attempts (so at most [maxRetries] - 1 retries). Every attempt
    before the last failed with a network error, a status >= 500 or the
    status 417, and was followed by a delay of
    [retryDelay * 2^(attempt - 1)]. The last attempt either succeeded (2xx),
    or failed in a way that is not retried (any other status, e.g. every
    4xx other than 417, is terminal), or was attempt [maxRetries]; the result
    is its success or a failure carrying its status and [retries:
    maxRetries]. *)
Theorem safePost_retry_policy : forall m retryDelay send,
  let t := safePost (S m) retryDelay send in
  exists n, (1 <= n <= S m)%nat /\
    t_attempts t = seq 1 n /\
    t_delays t = map (backoff retryDelay) (seq 1 (n - 1)) /\
    (forall a, (1 <= a < n)%nat ->
       succeeded (send a) = false /\ retryCondition (send a) = true) /\
    ((n < S m)%nat -> succeeded (send n) = true \/ retryCondition (send n) = false) /\
    t_result t = (if succeeded (send n) then PSuccess (response_status (send n))
                  else PFailure (response_status (send n)) (S m)).
Proof.
  intros m retryDelay send. cbv zeta. unfold safePost.
  destruct (attempts_from_spec retryDelay send (S m) (S m) 1 ltac:(lia) ltac:(lia) ltac:(lia))
    as (n & Hn & Hatt & Hdel & Hbefore & Hlast & Hres).
  exists n.
  split; [lia|].
  split; [rewrite Hatt; f_equal; lia|].
  split; [exact Hdel|].
  split.
  { intros a Ha. specialize (Hbefore a Ha). unfold retryable in Hbefore.
    apply andb_true_iff in Hbefore. destruct Hbefore as [H1 H2].
    apply negb_true_iff in H1. split; assumption. }
  split; [|exact Hres].
  intros Hlt. specialize (Hlast Hlt). unfold retryable in Hlast.
  destruct (succeeded (send n)); [left; reflexivity|right; exact Hlast].
Qed.

End UpstreamFacts.

(** ** Overlapping drains *)

Module SyncFacts.

Import Sync.

(** C7 (counterexample): [start()] begins a drain and the interval timer
    firing before that drain has finished begins a second one: two
    invocations of [syncPendingRecords] are in flight. *)
Lemma start_then_tick_overlaps :
  in_flight (run_events [Start; Tick] init) = 2%nat.
Proof. reflexivity. Qed.

Lemma run_events_ticks : forall n s,
  isRunning s = true -> syncTimer s = true ->
  run_events (repeat Tick n) s = mkSync (isRunning s) (syncTimer s) (n + in_flight s).
Proof.
  induction n as [|n IH]; intros s Hr Ht.
  - destruct s; reflexivity.
  - cbn [repeat]. unfold run_events. cbn [fold_left].
    fold (run_events (repeat Tick n) (step s Tick)).
    assert (Hs : step s Tick = mkSync (isRunning s) (syncTimer s) (S (in_flight s)))
      by (destruct s as [run timer k]; cbn in *; subst; reflexivity).
    rewrite Hs, IH by assumption. cbn. f_equal. lia.
Qed.

(** C7 (amended): nothing keeps drains from overlapping. While the service
    is running, a manual trigger, and a timer tick while the timer is set,
    each start a new invocation of [syncPendingRecords] whatever the number
    already in flight; so [start()] followed by [n] timer ticks before any
    drain completes leaves [n + 1] drains in flight. *)
Theorem drains_not_serialised : forall s n,
  isRunning s = true ->
  in_flight (step s Trigger) = S (in_flight s) /\
  (syncTimer s = true -> in_flight (step s Tick) = S (in_flight s)) /\
  in_flight (run_events (Start :: repeat Tick n) init) = S n.
Proof.
  intros [run timer k] n Hr. cbn in Hr. subst run.
  split; [reflexivity|]. split; [intros Ht; cbn in Ht; subst timer; reflexivity|].
  cbn [run_events fold_left]. fold (run_events (repeat Tick n) (step init Start)).
  rewrite run_events_ticks by reflexivity. cbn. lia.
Qed.

Lemma drains_not_serialised_witness :
  in_flight (step (mkSync true true 1) Trigger) = 2%nat /\
  in_flight (run_events (Start :: repeat Tick 3) init) = 4%nat.
Proof.
  destruct (drains_not_serialised (mkSync true true 1) 3 ltac:(reflexivity)) as (H1 & _ & H3).
  split; [exact H1 | exact H3].
Defined.

End SyncFacts.

(** ** The concurrent-session limit *)

Module SessionFacts.

Import Sessions.

Local Open Scope Z_scope.

Definition tok (name : string) (e : Z) : Token := mkToken name e.

(** User [u] has one active session [s1]; the limit is one session. *)
Definition redis_one_session : Redis :=
  mkRedis [("s1", mkSession "u" (tok "a1" 900) (tok "r1" 604800) true None)]
          [("u", ["s1"])] [].

(** [u] logs in again at time 100 and gets session [s2]. *)
Definition login_again (enumerate : list string -> list string) : Redis :=
  createTokens enumerate 100 1 "u" "s2" (tok "a2" 1000) (tok "r2" 604900) redis_one_session.

(** C8 (divergence): when [SMEMBERS] lists the members newest first,
    the login that exceeds the limit terminates the session it has just
    created ([s2], whose tokens are blacklisted although [createTokens]
    returns them) and keeps the older [s1]; the slice [0 .. length - max]
    removes the oldest sessions only when [SMEMBERS] happens to list them
    in insertion order. *)
Theorem addUserSession_terminates_newest :
  lookup "s2" (sessions (login_again (@rev string))) =
    Some (mkSession "u" (tok "a2" 1000) (tok "r2" 604900) false (Some "concurrent_limit_exceeded")) /\
  option_map sd_isActive (lookup "s1" (sessions (login_again (@rev string)))) = Some true /\
  In ("a2", "concurrent_limit_exceeded") (blacklist (login_again (@rev string))) /\
  members "u" (login_again (@rev string)) = ["s1"] /\
  option_map sd_isActive (lookup "s1" (sessions (login_again (fun l => l)))) = Some false /\
  option_map sd_isActive (lookup "s2" (sessions (login_again (fun l => l)))) = Some true.
Proof. cbv. repeat split; auto. Qed.

End SessionFacts.

(** ** Tokens signed with the previous secret *)

Module AuthFacts.

Import Auth.

Local Open Scope Z_scope.

Definition rotated (grace : Z) : Config := mkConfig (Some "new-secret") (Some "old-secret") grace.

(** C9 (counterexample): with the grace window at its default 0, a token
    signed with the previous secret is accepted: 20 hours after issue (a
    token of [sign], which expires after 24 h), and a year after issue for
    a token without [exp]. *)
Lemma grace_zero_accepts_old_tokens :
  verify (rotated 0) (20 * 3600000) (mkJwt "old-secret" 0 (Some 86400)) =
    Decoded (mkJwt "old-secret" 0 (Some 86400)) /\
  verify (rotated 0) (365 * 86400000) (mkJwt "old-secret" 0 None) =
    Decoded (mkJwt "old-secret" 0 None).
Proof. split; reflexivity. Qed.

(** C9 (amended): for a token signed with the previous secret (both
    secrets set and different): an expired token is [INVALID_TOKEN]; an
    unexpired one is accepted whatever its age when [GRACE_DAYS] = 0 (so
    the default disables the grace-window check, not the acceptance), and
    otherwise is rejected with [TOKEN_NEEDS_REFRESH] exactly when
    [now - iat * 1000 > GRACE_DAYS * 86400000] and accepted before. *)
Theorem verify_previous_secret : forall cur old grace t now,
  cur <> "" -> old <> "" -> old <> cur -> signed_with t = old ->
  verify (mkConfig (Some cur) (Some old) grace) now t =
    if unexpired t now then
      if grace =? 0 then Decoded t
      else if grace * 86400000 <? now - iat t * 1000 then TOKEN_NEEDS_REFRESH
      else Decoded t
    else INVALID_TOKEN.
Proof.
  intros cur old grace t now Hcur Hold Hne Hs.
  unfold verify, JWT_SECRETS, truthy. cbn [JWT_SECRET JWT_SECRET_OLD GRACE_DAYS].
  apply String.eqb_neq in Hcur, Hold. rewrite Hcur, Hold. cbn [app secret_used].
  unfold jwt_verify. rewrite Hs.
  assert (Hoc : String.eqb old cur = false) by (apply String.eqb_neq; exact Hne).
  rewrite Hoc, String.eqb_refl. cbn [andb negb].
  destruct (unexpired t now); cbn [andb negb]; [|reflexivity].
  rewrite Hoc. destruct (grace =? 0); reflexivity.
Qed.

Lemma verify_previous_secret_witness :
  verify (rotated 7) (8 * 86400000) (mkJwt "old-secret" 0 None) = TOKEN_NEEDS_REFRESH.
Proof.
  unfold rotated.
  rewrite (verify_previous_secret "new-secret" "old-secret" 7 (mkJwt "old-secret" 0 None) (8 * 86400000));
    [reflexivity | discriminate .. | reflexivity].
Defined.

End AuthFacts.

(* ================================================================== *)
(** ** The other queries of the queue store *)

From Stdlib Require Import Sorted Permutation.

Module CacheOpsFacts.

Import Cache CacheOps.

Definition created_le (a b : QueueRow) : Prop := (q_created_at a <= q_created_at b)%nat.

Lemma insert_perm : forall x l, Permutation (insert_by_created x l) (x :: l).
Proof.
  intros x l; induction l as [|a l IH]; simpl; [reflexivity|].
  destruct (Nat.leb _ _); [reflexivity|].
  eapply perm_trans; [apply perm_skip; exact IH | apply perm_swap].
Qed.

Lemma order_perm : forall l, Permutation (order_by_created l) l.
Proof.
  induction l as [|a l IH]; simpl; [constructor|].
  eapply perm_trans; [apply insert_perm | apply perm_skip; exact IH].
Qed.

Lemma insert_hd : forall a x l,
  HdRel created_le a l -> created_le a x -> HdRel created_le a (insert_by_created x l).
Proof.
  intros a x [|b l] H Hx; simpl; [constructor; exact Hx|].
  destruct (Nat.leb _ _); constructor; [exact Hx | inversion H; assumption].
Qed.

Lemma insert_sorted : forall x l,
  Sorted created_le l -> Sorted created_le (insert_by_created x l).
Proof.
  intros x l; induction l as [|a l IH]; intros H; simpl.
  - constructor; constructor.
  - destruct (Nat.leb (q_created_at x) (q_created_at a)) eqn:E.
    + constructor; [exact H|]. constructor. apply Nat.leb_le; exact E.
    + inversion H as [|? ? Hs Hh]; subst. constructor; [apply IH; exact Hs|].
      apply insert_hd; [exact Hh|]. unfold created_le. apply Nat.leb_gt in E. lia.
Qed.

Lemma order_sorted : forall l, Sorted created_le (order_by_created l).
Proof.
  induction l as [|a l IH]; simpl; [constructor | apply insert_sorted; exact IH].
Qed.

Lemma firstn_sorted : forall n l, Sorted created_le l -> Sorted created_le (firstn n l).
Proof.
  induction n as [|n IH]; intros [|a l] H; simpl; try constructor.
  - inversion H as [|? ? Hs Hh]; subst. apply IH; exact Hs.
  - inversion H as [|? ? Hs Hh]; subst.
    destruct n as [|n]; destruct l as [|b l]; simpl; try constructor.
    inversion Hh; assumption.
Qed.

Lemma in_firstn : forall {A} n (l : list A) x, In x (firstn n l) -> In x l.
Proof.
  intros A n l x H; rewrite <- (firstn_skipn n l); apply in_or_app; left; exact H.
Qed.

(** X1. [getPendingAttendance(limit, maxRetries)] leaves the store as it
    is and returns at most [limit] rows, only unsynced rows of the queue
    with fewer than [maxRetries] retries, in ascending [created_at] order;
    when there are no more than [limit] such rows it returns all of them. *)
Theorem getPendingAttendance_selection : forall limit maxRetries db,
  let eligible := filter (pending_eligible maxRetries) (attendance_queue db) in
  exists rows,
    getPendingAttendance limit maxRetries db = (inr rows, db) /\
    List.length rows = Nat.min limit (List.length eligible) /\
    (forall r, In r rows ->
       In r (attendance_queue db) /\ q_synced r = false /\ (q_retry_count r < maxRetries)%nat) /\
    Sorted created_le rows /\
    ((List.length eligible <= limit)%nat -> Permutation rows eligible).
Proof.
  intros limit maxRetries db eligible.
  exists (firstn limit (order_by_created eligible)). split; [reflexivity|].
  pose proof (order_perm eligible) as Hp.
  split; [rewrite length_firstn, (Permutation_length Hp); reflexivity|].
  split; [|split; [apply firstn_sorted, order_sorted|]].
  - intros r Hr. apply in_firstn in Hr. apply (Permutation_in _ Hp) in Hr.
    unfold eligible in Hr. apply filter_In in Hr as [Hin He].
    unfold pending_eligible in He. apply andb_prop in He as [Hs Hc].
    apply negb_true_iff in Hs. apply Nat.ltb_lt in Hc. auto.
  - intros Hle. rewrite firstn_all2; [exact Hp|].
    rewrite (Permutation_length Hp); exact Hle.
Qed.

Lemma iter_set_failed : forall now msg k row,
  let row' := Nat.iter k (set_failed now msg) row in
  q_id row' = q_id row /\ q_record_hash row' = q_record_hash row /\
  q_synced row' = q_synced row /\ q_synced_at row' = q_synced_at row /\
  q_retry_count row' = (q_retry_count row + k)%nat.
Proof.
  intros now msg k row; cbv zeta; induction k as [|k IH].
  - cbn. repeat split; try reflexivity; lia.
  - rewrite Nat.iter_succ. destruct IH as (H1 & H2 & H3 & H4 & H5). cbn.
    repeat split; try assumption. rewrite H5; lia.
Qed.

Lemma iter_markAttendanceFailed : forall now id msg k db,
  let db' := Nat.iter k (fun d => snd (markAttendanceFailed now id msg d)) db in
  record_hashes db' = record_hashes db /\ next_id db' = next_id db /\
  attendance_queue db' =
    map (fun row => if Nat.eqb (q_id row) id then Nat.iter k (set_failed now msg) row else row)
        (attendance_queue db).
Proof.
  intros now id msg k db; cbv zeta; induction k as [|k IH].
  - cbn. split; [reflexivity|]. split; [reflexivity|].
    rewrite <- (map_id (attendance_queue db)) at 1. apply map_ext.
    intros row; destruct (Nat.eqb _ _); reflexivity.
  - rewrite Nat.iter_succ. destruct IH as (H1 & H2 & H3).
    set (d := Nat.iter k (fun d => snd (markAttendanceFailed now id msg d)) db) in *.
    unfold markAttendanceFailed; cbn [snd record_hashes next_id attendance_queue].
    rewrite H1, H2, H3. split; [reflexivity|]. split; [reflexivity|].
    rewrite map_map. apply map_ext. intros row.
    destruct (Nat.eqb (q_id row) id) eqn:E.
    + destruct (iter_set_failed now msg k row) as (Hid & _).
      rewrite Hid, E. reflexivity.
    + rewrite E. reflexivity.
Qed.

(** X2. Calling [markAttendanceFailed(id, msg)] [k] times changes only
    rows with that id: it leaves [record_hashes], the other rows, and the
    [synced] flag and hash of every row as they were, and adds [k] to the
    retry count of the rows with that id; once [k] reaches [maxRetries],
    [getPendingAttendance(_, maxRetries)] no longer returns such a row,
    although it is still unsynced. *)
Theorem markAttendanceFailed_repeated : forall now id msg k db,
  let db' := Nat.iter k (fun d => snd (markAttendanceFailed now id msg d)) db in
  record_hashes db' = record_hashes db /\ next_id db' = next_id db /\
  List.length (attendance_queue db') = List.length (attendance_queue db) /\
  (forall j row, nth_error (attendance_queue db) j = Some row ->
     exists row', nth_error (attendance_queue db') j = Some row' /\
       q_id row' = q_id row /\ q_record_hash row' = q_record_hash row /\
       q_synced row' = q_synced row /\
       q_retry_count row' =
         (if Nat.eqb (q_id row) id then q_retry_count row + k else q_retry_count row)%nat) /\
  (forall limit maxRetries rows, (maxRetries <= k)%nat ->
     fst (getPendingAttendance limit maxRetries db') = inr rows ->
     forall r, In r rows -> q_id r <> id).
Proof.
  intros now id msg k db db'.
  destruct (iter_markAttendanceFailed now id msg k db) as (H1 & H2 & H3). fold db' in H1, H2, H3.
  split; [exact H1|]. split; [exact H2|].
  split; [rewrite H3, length_map; reflexivity|].
  split.
  - intros j row Hj. rewrite H3, nth_error_map, Hj. cbn [option_map].
    eexists; split; [reflexivity|].
    destruct (Nat.eqb (q_id row) id) eqn:E; [|repeat split; reflexivity].
    destruct (iter_set_failed now msg k row) as (Hid & Hh & Hs & _ & Hr). auto.
  - intros limit maxRetries rows Hk Hg r Hr Hid.
    cbn [getPendingAttendance fst] in Hg. injection Hg as <-.
    apply in_firstn in Hr. apply (Permutation_in _ (order_perm _)) in Hr.
    apply filter_In in Hr as [Hin He]. rewrite H3 in Hin.
    apply in_map_iff in Hin as (row & Hrow & Hin).
    destruct (Nat.eqb (q_id row) id) eqn:E.
    + subst r. destruct (iter_set_failed now msg k row) as (_ & _ & _ & _ & Hc).
      unfold pending_eligible in He. rewrite Hc in He.
      apply andb_prop in He as [_ Hlt]. apply Nat.ltb_lt in Hlt. lia.
    + subst r. apply Nat.eqb_neq in E. contradiction.
Qed.

(** X3. [resetFailedRecords()] answers the number of rows with at least
    3 retries (a fixed 3). Row by row, in place, each such row gets retry
    count 0 and no error message, its other columns unchanged, and every
    row with fewer than 3 retries, synced or not, is left as it was; the
    hash table, the counter and the synced flags are unchanged. So every
    row then has fewer than 3 retries. With [maxRetries] of at least 3,
    every unsynced row is then pending again; with a smaller
    [maxRetries], an unsynced row whose retry count is between
    [maxRetries] and 2 is neither reset nor pending. *)
Theorem resetFailedRecords_threshold : forall db maxRetries,
  let '(res, db') := resetFailedRecords db in
  res = inr (List.length (filter (fun row => Nat.leb 3 (q_retry_count row)) (attendance_queue db))) /\
  record_hashes db' = record_hashes db /\ next_id db' = next_id db /\
  List.length (attendance_queue db') = List.length (attendance_queue db) /\
  (forall i row, nth_error (attendance_queue db) i = Some row ->
     exists row', nth_error (attendance_queue db') i = Some row' /\
       ((3 <= q_retry_count row)%nat ->
          row' = reset_row row /\ q_retry_count row' = 0%nat /\ q_error_message row' = None) /\
       ((q_retry_count row < 3)%nat -> row' = row)) /\
  map q_synced (attendance_queue db') = map q_synced (attendance_queue db) /\
  (forall row, In row (attendance_queue db') -> (q_retry_count row < 3)%nat) /\
  ((3 <= maxRetries)%nat -> forall row, In row (attendance_queue db') ->
     q_synced row = false -> pending_eligible maxRetries row = true) /\
  (forall row, In row (attendance_queue db) -> q_synced row = false ->
     (maxRetries <= q_retry_count row < 3)%nat ->
     In row (attendance_queue db') /\ pending_eligible maxRetries row = false).
Proof.
  intros db maxRetries. unfold resetFailedRecords. cbn [attendance_queue record_hashes next_id].
  assert (Hlt : forall row, In row (map (fun row => if retry_exhausted row then reset_row row else row)
                                       (attendance_queue db)) -> (q_retry_count row < 3)%nat).
  { intros row Hin. apply in_map_iff in Hin as (r & <- & _).
    unfold retry_exhausted. destruct (Nat.leb 3 (q_retry_count r)) eqn:E; cbn; [lia|].
    apply Nat.leb_gt in E; exact E. }
  split; [reflexivity|]. split; [reflexivity|]. split; [reflexivity|].
  split; [apply length_map|].
  split.
  { intros i row Hi. exists (if retry_exhausted row then reset_row row else row).
    split; [rewrite nth_error_map, Hi; reflexivity|].
    unfold retry_exhausted. split.
    - intros H3. replace (Nat.leb 3 (q_retry_count row)) with true
        by (symmetry; apply Nat.leb_le; exact H3).
      repeat split.
    - intros H3. replace (Nat.leb 3 (q_retry_count row)) with false
        by (symmetry; apply Nat.leb_gt; exact H3).
      reflexivity. }
  split; [rewrite map_map; apply map_ext; intros r; destruct (retry_exhausted r); reflexivity|].
  split; [exact Hlt|]. split.
  - intros H3 row Hin Hs. unfold pending_eligible. rewrite Hs.
    apply Hlt in Hin. cbn. apply Nat.ltb_lt. lia.
  - intros row Hin Hs Hr. split.
    + apply in_map_iff. exists row. split; [|exact Hin].
      unfold retry_exhausted. replace (Nat.leb 3 (q_retry_count row)) with false; [reflexivity|].
      symmetry; apply Nat.leb_gt; lia.
    + unfold pending_eligible. rewrite Hs. cbn. apply Nat.ltb_ge. lia.
Qed.

(** X4. [getSyncStats()] reads without writing; on an empty queue its
    three sums are [NULL], and otherwise synced plus pending rows make the
    total and the failed rows are at most the total. *)
Theorem getSyncStats_counts : forall db,
  let '(res, db') := getSyncStats db in
  db' = db /\
  exists s, res = inr s /\ total_records s = List.length (attendance_queue db) /\
    (attendance_queue db = [] ->
       synced_records s = None /\ pending_records s = None /\ failed_records s = None) /\
    (attendance_queue db <> [] ->
       exists a b c, synced_records s = Some a /\ pending_records s = Some b /\
         failed_records s = Some c /\ (a + b = total_records s)%nat /\ (c <= total_records s)%nat).
Proof.
  intros db. unfold getSyncStats. split; [reflexivity|].
  eexists; split; [reflexivity|]. cbn [total_records synced_records pending_records failed_records].
  split; [reflexivity|].
  destruct (attendance_queue db) as [|row q]; cbn [sql_sum].
  - split; [intros _; repeat split; reflexivity | intros C; contradiction].
  - split; [intros C; discriminate|]. intros _.
    do 3 eexists. split; [reflexivity|]. split; [reflexivity|]. split; [reflexivity|].
    split; [apply filter_length | apply filter_length_le].
Qed.

(** X5. [cleanupOldRecords(daysOld)] deletes only synced rows whose
    [synced_at] is before the cutoff, from both tables: every unsynced row
    stays, no row is added, no row left is older than the cutoff, the
    id counter is kept, and the count it resolves to is the number of rows
    deleted. *)
Theorem cleanupOldRecords_spec : forall now daysOld db,
  let c := cutoff now daysOld in
  let '(res, db') := cleanupOldRecords now daysOld db in
  next_id db' = next_id db /\
  res = inr (List.length (attendance_queue db) - List.length (attendance_queue db')
             + (List.length (record_hashes db) - List.length (record_hashes db')))%nat /\
  incl (attendance_queue db') (attendance_queue db) /\
  incl (record_hashes db') (record_hashes db) /\
  (forall row, In row (attendance_queue db) -> q_synced row = false -> In row (attendance_queue db')) /\
  (forall row, In row (record_hashes db) -> h_is_synced row = false -> In row (record_hashes db')) /\
  (forall row, In row (attendance_queue db') -> old_queue_row c row = false) /\
  (forall row, In row (record_hashes db') -> old_hash_row c row = false).
Proof.
  intros now daysOld db c. unfold cleanupOldRecords. fold c.
  cbn [next_id attendance_queue record_hashes].
  split; [reflexivity|]. split.
  - f_equal. rewrite <- (filter_length (old_queue_row c) (attendance_queue db)) at 1.
    rewrite <- (filter_length (old_hash_row c) (record_hashes db)) at 1. lia.
  - split; [intros r Hr; apply filter_In in Hr; apply Hr|].
    split; [intros r Hr; apply filter_In in Hr; apply Hr|].
    split; [intros r Hr Hs; apply filter_In; split; [exact Hr|unfold old_queue_row; rewrite Hs; reflexivity]|].
    split; [intros r Hr Hs; apply filter_In; split; [exact Hr|unfold old_hash_row; rewrite Hs; reflexivity]|].
    split; intros r Hr; apply filter_In in Hr as [_ Hr]; apply negb_true_iff in Hr; exact Hr.
Qed.

Lemma find_hd_filter : forall {A} (f : A -> bool) l, find f l = hd_error (filter f l).
Proof.
  intros A f l; induction l as [|a l IH]; simpl; [reflexivity|].
  destruct (f a); [reflexivity|exact IH].
Qed.

Lemma filter_nil_iff : forall {A} (f : A -> bool) l,
  filter f l = [] <-> (forall x, In x l -> f x = false).
Proof.
  intros A f l; induction l as [|a l IH]; simpl; [tauto|].
  destruct (f a) eqn:E; split.
  - discriminate.
  - intros H; rewrite (H a (or_introl eq_refl)) in E; discriminate.
  - intros H x [<-|Hx]; [exact E|]. apply IH; assumption.
  - intros H; apply IH; intros x Hx; apply H; right; exact Hx.
Qed.

Lemma filter_batch_other : forall b b' rows, b <> b' ->
  filter (fun r => String.eqb (bl_batch_id r) b)
         (filter (fun r => negb (String.eqb (bl_batch_id r) b')) rows) =
  filter (fun r => String.eqb (bl_batch_id r) b) rows.
Proof.
  intros b b' rows Hne; induction rows as [|a rows IH]; simpl; [reflexivity|].
  destruct (String.eqb (bl_batch_id a) b') eqn:E1; destruct (String.eqb (bl_batch_id a) b) eqn:E2;
    simpl; rewrite ?E2, ?IH; try reflexivity.
  apply String.eqb_eq in E1, E2. congruence.
Qed.

Lemma filter_batch_same : forall b rows,
  filter (fun r => String.eqb (bl_batch_id r) b)
         (filter (fun r => negb (String.eqb (bl_batch_id r) b)) rows) = [].
Proof.
  intros b rows; apply filter_nil_iff; intros x Hx.
  apply filter_In in Hx as [_ Hx]. apply negb_true_iff in Hx; exact Hx.
Qed.

(** X6. [createBatchLog(batchId, total)] followed by [getBatchStatus]
    gives a fresh row ([processing], counters 0, no [completed_at]), also
    when the batch was already logged, whose progress is then lost.
    [updateBatchLog] on a batch that is not logged changes no row and
    resolves to 0; on a logged batch it changes that one row, sets
    [completed_at] only for the status [completed], and leaves the other
    batches as they were. *)
Theorem batchLog_round_trip : forall now t batchId total processed succ err status rows,
  let rows1 := createBatchLog now batchId total rows in
  getBatchStatus batchId rows1 = Some (mkBatchLogRow batchId total 0 0 0 "processing" now None) /\
  (getBatchStatus batchId rows = None ->
     updateBatchLog t batchId processed succ err status rows = (0%nat, rows)) /\
  (let '(n, rows2) := updateBatchLog t batchId processed succ err status rows1 in
   n = 1%nat /\
   getBatchStatus batchId rows2 =
     Some (mkBatchLogRow batchId total processed succ err status now
             (if String.eqb status "completed" then Some t else None)) /\
   (forall b, b <> batchId -> getBatchStatus b rows2 = getBatchStatus b rows)).
Proof.
  intros now t batchId total processed succ err status rows rows1.
  unfold rows1, createBatchLog, getBatchStatus, updateBatchLog.
  rewrite !find_hd_filter, filter_app, filter_batch_same. cbn [filter bl_batch_id app].
  rewrite String.eqb_refl. split; [reflexivity|]. split.
  - intros Hn.
    destruct (filter (fun r => String.eqb (bl_batch_id r) batchId) rows) as [|x l] eqn:E;
      [|discriminate].
    rewrite filter_nil_iff in E. cbn [List.length]. f_equal.
    rewrite <- (map_id rows) at 2. apply map_ext_in. intros r Hr. rewrite (E r Hr). reflexivity.
  - rewrite map_app. cbn [map bl_batch_id]. rewrite String.eqb_refl.
    rewrite (map_ext_in _ (fun r => r)), map_id.
    2:{ intros r Hr. apply filter_In in Hr as [_ Hr]. apply negb_true_iff in Hr. rewrite Hr. reflexivity. }
    split; [reflexivity|].
    rewrite filter_app, filter_batch_same. cbn [filter bl_batch_id app].
    rewrite String.eqb_refl. split; [reflexivity|].
    intros b Hb. rewrite !find_hd_filter, filter_app, filter_batch_other by exact Hb.
    cbn [filter bl_batch_id]. replace (String.eqb batchId b) with false.
    2:{ symmetry; apply String.eqb_neq; intro C; apply Hb; symmetry; exact C. }
    rewrite app_nil_r. reflexivity.
Qed.

End CacheOpsFacts.

(** ** The ingestion routes and the other queries *)

Module RouteQueryFacts.

Import Cache CacheOps Ingest.

Lemma hash_rows_after_cleanup : forall now daysOld d h,
  (forall hr, In hr (hash_rows h d) -> old_hash_row (cutoff now daysOld) hr = true) ->
  hash_rows h (snd (cleanupOldRecords now daysOld d)) = [].
Proof.
  intros now daysOld d h Hold. unfold hash_rows, cleanupOldRecords. cbn [snd record_hashes].
  apply CacheOpsFacts.filter_nil_iff. intros x Hx.
  destruct (String.eqb (h_record_hash x) h) eqn:E; [|reflexivity]. exfalso.
  apply filter_In in Hx as [Hx Hn]. apply negb_true_iff in Hn.
  assert (Hin : In x (hash_rows h d)) by (apply filter_In; split; assumption).
  apply Hold in Hin. congruence.
Qed.

(** X7. Once [cleanupOldRecords] has deleted the synced hash rows of a
    fingerprint, the fingerprint is forgotten: a [/clock] request for the
    same record is no longer answered as a duplicate and calls the ERP
    again. *)
Theorem cleanup_then_clock_calls_erp : forall now daysOld d calls t r ok,
  (forall hr, In hr (hash_rows (recordHash r) d) -> old_hash_row (cutoff now daysOld) hr = true) ->
  let d' := snd (cleanupOldRecords now daysOld d) in
  hash_rows (recordHash r) d' = [] /\
  erp_calls (snd (clock t r ok (mkWorld d' calls))) = (calls ++ [(r, ok)])%list.
Proof.
  intros now daysOld d calls t r ok Hold d'.
  assert (He : hash_rows (recordHash r) d' = []) by (apply hash_rows_after_cleanup; exact Hold).
  split; [exact He|].
  pose proof (IngestFacts.clock_spec t r ok d' calls (recordHash r)) as Hc. cbv zeta in Hc.
  destruct (clock t r ok (mkWorld d' calls)) as [resp w']. cbn [snd].
  destruct Hc as [_ Hc]. apply Hc in He. apply He.
Qed.

Definition rec_w : AttendanceRecord :=
  mkRecord "EMP-001" "2024-05-01T08:00:00Z" "clock-in" None None None None (Some "rec-1").

Definition db_w : DB := snd (storeRecordHash 0 "rec-1" rec_w true None empty_db).

Lemma cleanup_then_clock_calls_erp_witness :
  (forall hr, In hr (hash_rows (recordHash rec_w) db_w) -> old_hash_row (cutoff 1 0) hr = true) /\
  hash_rows (recordHash rec_w) (snd (cleanupOldRecords 1 0 db_w)) = [] /\
  erp_calls (snd (clock 2 rec_w (inr true) (mkWorld (snd (cleanupOldRecords 1 0 db_w)) [])))
    = ([] ++ [(rec_w, inr true)])%list.
Proof.
  assert (H : forall hr, In hr (hash_rows (recordHash rec_w) db_w) ->
                         old_hash_row (cutoff 1 0) hr = true).
  { intros hr Hin. vm_compute in Hin. destruct Hin as [<-|[]].
    unfold cutoff. rewrite Nat.mul_0_l. vm_compute. reflexivity. }
  split; [exact H|]. exact (cleanup_then_clock_calls_erp 1 0 db_w [] 2 rec_w (inr true) H).
Defined.

Lemma find_queue_rows : forall h d,
  find (fun row => String.eqb (q_record_hash row) h) (attendance_queue d) = hd_error (queue_rows h d).
Proof. intros h d; apply CacheOpsFacts.find_hd_filter. Qed.

Lemma find_hash_rows_hd : forall h d,
  find (fun row => String.eqb (h_record_hash row) h) (record_hashes d) = hd_error (hash_rows h d).
Proof. intros h d; apply CacheOpsFacts.find_hd_filter. Qed.

(** X8. [GET /status/:record_id] after a [/clock] request for a new
    record: before it the status is [null] (a 404). When the ERP call of
    the request rejects, nothing is stored and the status stays [null].
    When it resolves, the status carries the hash, the record and its
    [created_at]; it is synced with no queue entry when the ERP accepted
    the record, and otherwise unsynced with a queue entry that has the new
    id, [synced] false and no retry. *)
Theorem getRecordStatus_after_clock : forall now r erp d calls,
  hash_rows (recordHash r) d = [] -> queue_rows (recordHash r) d = [] -> next_id d <> 0%nat ->
  fst (getRecordStatus (recordHash r) d) = inr None /\
  (forall e, erp = inl e ->
     fst (getRecordStatus (recordHash r) (db (snd (clock now r erp (mkWorld d calls))))) = inr None) /\
  (forall ok, erp = inr ok ->
  exists st,
    fst (getRecordStatus (recordHash r) (db (snd (clock now r erp (mkWorld d calls))))) = inr (Some st) /\
    rs_record_hash st = recordHash r /\ rs_is_synced st = ok /\ rs_created_at st = now /\
    rs_batch_id st = None /\ rs_record_data st = r /\
    (ok = true -> rs_synced_at st = Some now /\ rs_queue_status st = None) /\
    (ok = false -> rs_synced_at st = None /\
       exists qs, rs_queue_status st = Some qs /\ qs_queue_id qs = next_id d /\
                  qs_synced qs = false /\ qs_retry_count qs = 0%nat)).
Proof.
  intros now r erp d calls Hh Hq Hid.
  assert (Hnone : fst (getRecordStatus (recordHash r) d) = inr None)
    by (unfold getRecordStatus; cbn [fst]; rewrite find_hash_rows_hd, Hh; reflexivity).
  split; [exact Hnone|].
  pose proof (IngestFacts.clock_spec now r erp d calls (recordHash r)) as Hc. cbv zeta in Hc.
  destruct (clock now r erp (mkWorld d calls)) as [resp w']. cbn [snd].
  destruct Hc as [_ Hc]. destruct (Hc Hh) as (_ & Hrej & Hok & _ & Hko). clear Hc.
  split.
  { intros e ->. destruct (Hrej e eq_refl) as [_ ->]. exact Hnone. }
  intros ok ->.
  unfold getRecordStatus. cbn [fst]. rewrite find_hash_rows_hd, find_queue_rows.
  destruct ok.
  - destruct (Hok eq_refl) as (_ & Haq & Hhr). rewrite String.eqb_refl in Hhr.
    rewrite Hhr, (IngestFacts.queue_rows_of_queue (recordHash r) d (db w') Haq), Hq. cbn.
    eexists; split; [reflexivity|]. cbn.
    repeat split; try reflexivity; try congruence.
  - destruct (Hko eq_refl Hq) as (_ & (row & Hrid & _ & Hrs & Hrc & Hqk) & Hhr).
    rewrite String.eqb_refl in Hhr, Hqk. rewrite Hhr, Hqk, Hq. cbn [app hd_error].
    destruct (Nat.eqb (q_id row) 0) eqn:E0; [apply Nat.eqb_eq in E0; congruence|].
    eexists; split; [reflexivity|]. cbn.
    repeat split; try reflexivity; try congruence.
    eexists; split; [reflexivity|]. cbn. auto.
Qed.

(** The status of the week-date record of [rec_w] after its [/clock]
    request, whose ERP call rejects. *)
Definition rec_w_week : AttendanceRecord :=
  mkRecord "EMP-001" "2024-W18-3" "clock-in" None None None None (Some "rec-1").

Lemma getRecordStatus_after_clock_witness :
  (hash_rows (recordHash rec_w_week) empty_db = [] /\ queue_rows (recordHash rec_w_week) empty_db = [] /\
   next_id empty_db <> 0%nat) /\
  fst (getRecordStatus (recordHash rec_w_week)
         (db (snd (clock 0 rec_w_week (inl Erp.invalid_time) (mkWorld empty_db []))))) = inr None.
Proof.
  assert (H1 : hash_rows (recordHash rec_w_week) empty_db = []) by reflexivity.
  assert (H2 : queue_rows (recordHash rec_w_week) empty_db = []) by reflexivity.
  assert (H3 : next_id empty_db <> 0%nat) by discriminate.
  split; [split; [exact H1|split; [exact H2|exact H3]]|].
  exact (proj1 (proj2 (getRecordStatus_after_clock 0 rec_w_week (inl Erp.invalid_time) empty_db []
                          H1 H2 H3)) Erp.invalid_time eq_refl).
Defined.

End RouteQueryFacts.

(** ** The answer of a batch upload *)

Module BatchRouteFacts.

Import Cache Ingest BatchRoute.

(** The result of one record of [/batch], and the record-hash row it
    leaves. *)
Lemma batch_record_result : forall now bid off r erp d calls,
  let h := recordHash r in
  let '(res, w') := batch_record now bid off r erp (mkWorld d calls) in
  (hash_rows h d <> [] /\ res = inr (BDuplicate h)) \/
  (hash_rows h d = [] /\ off = false /\ erp = inr true /\ res = inr (BSynced h) /\
     hash_rows h (db w') <> []) \/
  (hash_rows h d = [] /\ (off = true \/ erp = inr false) /\ queue_rows h d = [] /\
     res = inr (BQueued h (next_id d)) /\ hash_rows h (db w') <> []) \/
  (hash_rows h d = [] /\ (off = true \/ erp = inr false) /\ queue_rows h d <> [] /\
     res = inr (BError h unique_violation)) \/
  (exists e, hash_rows h d = [] /\ off = false /\ erp = inl e /\ res = inr (BError h e) /\
     db w' = d).
Proof.
  intros now bid off r erp d calls h.
  unfold batch_record, wcatch, wbind, storage, wret, submitCheckin, checkDuplicateRecord.
  cbn -[storeRecordHash queueAttendance]. cbn [db erp_calls]. fold h.
  destruct (find _ _) eqn:Hf.
  - left. split; [|reflexivity].
    intro Hn. apply CacheFacts.find_hash_rows in Hn. fold h in Hf. congruence.
  - assert (Hn : hash_rows h d = []) by (apply CacheFacts.find_hash_rows; exact Hf).
    destruct off; [|destruct erp as [e|[|]]]; cbn [db erp_calls].
    3: { pose proof (CacheFacts.storeRecordHash_spec now h r true None d h) as Hs.
         destruct (storeRecordHash now h r true None d) as [res d'].
         destruct Hs as ([n ->] & _ & _ & Hh). cbn -[storeRecordHash queueAttendance].
         rewrite String.eqb_refl in Hh.
         right; left; repeat split; try assumption; rewrite Hh; discriminate. }
    2: { cbn. right; right; right; right. exists e. repeat split; assumption. }
    all: pose proof (CacheFacts.queueAttendance_spec now r h (Some bid) d h (recordHash_nonempty r)) as Hq;
      destruct (queueAttendance now (mkQueueInput r (Some h) (Some bid)) d) as [res d1];
      destruct Hq as (Hrh & Hdup & Hnew);
      (destruct (queue_rows h d) as [|row0 rows0] eqn:Eq;
       [ destruct (Hnew eq_refl) as (-> & _); cbn [db erp_calls];
         pose proof (CacheFacts.storeRecordHash_spec now h r false None d1 h) as Hs;
         destruct (storeRecordHash now h r false None d1) as [res2 d2];
         destruct Hs as ([n ->] & _ & _ & Hh2); cbn -[storeRecordHash queueAttendance];
         rewrite String.eqb_refl in Hh2;
         right; right; left; repeat split; auto; rewrite Hh2; discriminate
       | destruct (Hdup ltac:(discriminate)) as [-> ->]; cbn -[storeRecordHash queueAttendance];
         right; right; right; left; repeat split; auto; discriminate ]).
Qed.

Lemma batch_record_item_id : forall now bid off r erp w,
  match fst (batch_record now bid off r erp w) with
  | inr it => item_record_id it = recordHash r
  | inl _ => True
  end.
Proof.
  intros now bid off r erp [d calls].
  pose proof (batch_record_result now bid off r erp d calls) as H. cbv zeta in H.
  destruct (batch_record now bid off r erp (mkWorld d calls)) as [res w']. cbn [fst].
  destruct H as [(_ & ->)|[(_ & _ & _ & -> & _)|[(_ & _ & _ & -> & _)|[(_ & _ & _ & ->)|(e & _ & _ & _ & -> & _)]]]];
    reflexivity.
Qed.

Lemma batch_loop_ids : forall now bid off rs w,
  map item_record_id (fst (batch_loop now bid off rs w)) = map (fun p => recordHash (fst p)) rs.
Proof.
  intros now bid off rs; induction rs as [|[r erp] rs IH]; intros w; [reflexivity|].
  cbn [batch_loop map fst].
  pose proof (batch_record_item_id now bid off r erp w) as Hi.
  destruct (batch_record now bid off r erp w) as [res w1]. cbn [fst] in Hi.
  specialize (IH w1). destruct (batch_loop now bid off rs w1) as [items w2]. cbn [fst map] in IH |- *.
  rewrite IH. f_equal. destruct res as [e|it]; [reflexivity|exact Hi].
Qed.

Definition summary_total (s : Summary) : nat :=
  s_synced s + s_queued s + s_duplicates s + s_errors s.

Lemma fold_count_item : forall items s,
  summary_total (fold_left count_item items s) = (summary_total s + List.length items)%nat.
Proof.
  induction items as [|it items IH]; intros s; cbn [fold_left List.length]; [lia|].
  rewrite IH. destruct it; unfold summary_total; cbn; lia.
Qed.

(** X9. The answer of [/batch] has one result per record, in the order of
    the records and carrying each record's hash, and its four counters
    (synced, queued, duplicates, errors) add up to [total_records], the
    number of records sent. *)
Theorem batch_response_accounts_for_every_record : forall now b u off rs w,
  let resp := fst (batch_response now b u off rs w) in
  resp_total_records resp = List.length rs /\
  map item_record_id (resp_results resp) = map (fun p => recordHash (fst p)) rs /\
  summary_total (resp_summary resp) = resp_total_records resp.
Proof.
  intros now b u off rs w resp. unfold resp, batch_response, batch.
  pose proof (batch_loop_ids now (js_or b u) off rs w) as Hi.
  destruct (batch_loop now (js_or b u) off rs w) as [items w']. cbn [fst] in Hi |- *.
  split; [reflexivity|]. split; [exact Hi|].
  cbn [resp_summary resp_total_records]. rewrite fold_count_item. cbn. apply (f_equal (@List.length _)) in Hi.
  rewrite !length_map in Hi. exact Hi.
Qed.

(** X10. With [offline_sync] set, a batch never calls the ERP and no
    result is [synced]. *)
Theorem batch_offline_never_calls_erp : forall now b u rs w,
  let '(items, w') := batch now b u true rs w in
  erp_calls w' = erp_calls w /\ forall h, ~ In (BSynced h) items.
Proof.
  intros now b u rs. unfold batch. generalize (js_or b u) as bid.
  intros bid; induction rs as [|[r ok] rs IH]; intros w; cbn [batch_loop].
  - split; [reflexivity|]. intros h [].
  - destruct w as [d calls].
    pose proof (batch_record_result now bid true r ok d calls) as Hr. cbv zeta in Hr.
    pose proof (IngestFacts.batch_record_spec now bid true r ok d calls (recordHash r)) as Hs.
    cbv zeta in Hs.
    destruct (batch_record now bid true r ok (mkWorld d calls)) as [res w1].
    specialize (IH w1). destruct (batch_loop now bid true rs w1) as [items w2].
    destruct IH as [Hc Hn]. rewrite Hc.
    destruct Hs as [Hs1 Hs2].
    destruct Hr as [(Hh & ->)|[(_ & C & _)|[(Hh & _ & _ & -> & _)|[(Hh & _ & _ & ->)|(e & _ & C & _)]]]];
      [ | discriminate | | | discriminate ];
      (split; [ first [ rewrite (Hs1 Hh); reflexivity | apply (Hs2 Hh) ] |]);
      intros h [C|C]; try discriminate; exact (Hn h C).
Qed.

Lemma batch_record_keeps_hash : forall now bid off r ok w k,
  hash_rows k (db w) <> [] -> hash_rows k (db (snd (batch_record now bid off r ok w))) <> [].
Proof.
  intros now bid off r ok w k.
  exact (proj1 (proj2 (IngestFacts.batch_record_good k now bid off r ok w))).
Qed.

Lemma batch_loop_duplicate : forall now bid off rs w h k rk,
  hash_rows h (db w) <> [] -> nth_error rs k = Some rk -> recordHash (fst rk) = h ->
  nth_error (fst (batch_loop now bid off rs w)) k = Some (BDuplicate h).
Proof.
  intros now bid off rs; induction rs as [|[r ok] rs IH]; intros w h k rk Hn Hk Hh;
    [destruct k; discriminate|].
  cbn [batch_loop].
  pose proof (batch_record_keeps_hash now bid off r ok w h Hn) as Hn1.
  destruct k as [|k].
  - cbn in Hk. injection Hk as <-. cbn [fst] in Hh. subst h.
    rewrite (IngestFacts.batch_record_duplicate now bid off r ok w Hn).
    destruct (batch_loop now bid off rs w) as [items w2]. reflexivity.
  - destruct (batch_record now bid off r ok w) as [res w1]. cbn [snd] in Hn1.
    specialize (IH w1 h k rk Hn1 Hk Hh).
    destruct (batch_loop now bid off rs w1) as [items w2]. exact IH.
Qed.

(** X11. Inside one batch, a record whose hash repeats that of an earlier
    record is answered [duplicate] (without calling the ERP), unless the
    earlier record ended in an error. *)
Theorem batch_repeated_hash_is_duplicate : forall now bid off rs w i j ri rj,
  (i < j)%nat -> nth_error rs i = Some ri -> nth_error rs j = Some rj ->
  recordHash (fst ri) = recordHash (fst rj) ->
  let items := fst (batch_loop now bid off rs w) in
  (exists e, nth_error items i = Some (BError (recordHash (fst ri)) e)) \/
  nth_error items j = Some (BDuplicate (recordHash (fst rj))).
Proof.
  intros now bid off rs; induction rs as [|[r ok] rs IH]; intros w i j ri rj Hij Hi Hj Hh items;
    [destruct i; discriminate|].
  unfold items; clear items. cbn [batch_loop].
  destruct i as [|i].
  - cbn in Hi. injection Hi as <-. cbn [fst] in Hh |- *.
    destruct j as [|j]; [lia|]. cbn in Hj.
    destruct w as [d calls].
    pose proof (batch_record_result now bid off r ok d calls) as Hr. cbv zeta in Hr.
    destruct (batch_record now bid off r ok (mkWorld d calls)) as [res w1] eqn:Eb.
    destruct Hr as [(Hn & ->)|[(_ & _ & _ & -> & Hn)|[(_ & _ & _ & -> & Hn)|[(_ & _ & _ & ->)|(e & _ & _ & _ & -> & _)]]]].
    + right. pose proof (batch_record_keeps_hash now bid off r ok (mkWorld d calls) (recordHash r) Hn) as Hn1.
      rewrite Eb in Hn1. cbn [snd] in Hn1.
      pose proof (batch_loop_duplicate now bid off rs w1 (recordHash r) j rj Hn1 Hj (eq_sym Hh)) as D.
      destruct (batch_loop now bid off rs w1) as [items w2]. cbn [fst nth_error] in D |- *.
      rewrite D, Hh. reflexivity.
    + right. pose proof (batch_loop_duplicate now bid off rs w1 (recordHash r) j rj Hn Hj (eq_sym Hh)) as D.
      destruct (batch_loop now bid off rs w1) as [items w2]. cbn [fst nth_error] in D |- *.
      rewrite D, Hh. reflexivity.
    + right. pose proof (batch_loop_duplicate now bid off rs w1 (recordHash r) j rj Hn Hj (eq_sym Hh)) as D.
      destruct (batch_loop now bid off rs w1) as [items w2]. cbn [fst nth_error] in D |- *.
      rewrite D, Hh. reflexivity.
    + left. destruct (batch_loop now bid off rs w1) as [items w2]. cbn. eexists; reflexivity.
    + left. destruct (batch_loop now bid off rs w1) as [items w2]. cbn. eexists; reflexivity.
  - destruct j as [|j]; [lia|]. cbn in Hi, Hj.
    destruct (batch_record now bid off r ok w) as [res w1].
    specialize (IH w1 i j ri rj ltac:(lia) Hi Hj Hh). cbv zeta in IH.
    destruct (batch_loop now bid off rs w1) as [items w2]. cbn [fst nth_error] in IH |- *.
    exact IH.
Qed.

Definition rec_a : AttendanceRecord :=
  mkRecord "EMP-001" "2024-05-01T08:00:00Z" "clock-in" None None None None (Some "rec-a").

Definition rec_b : AttendanceRecord :=
  mkRecord "EMP-002" "2024-05-01T08:05:00Z" "clock-in" None None None None (Some "rec-b").

Lemma batch_repeated_hash_is_duplicate_witness :
  let rs := [(rec_a, inr true); (rec_b, inr false); (rec_a, inr true)] in
  let items := fst (batch_loop 0 "batch-1" false rs empty_world) in
  (exists e, nth_error items 0 = Some (BError (recordHash rec_a) e)) \/
  nth_error items 2 = Some (BDuplicate (recordHash rec_a)).
Proof.
  exact (batch_repeated_hash_is_duplicate 0 "batch-1" false
           [(rec_a, inr true); (rec_b, inr false); (rec_a, inr true)] empty_world 0 2
           (rec_a, inr true) (rec_a, inr true) ltac:(lia) eq_refl eq_refl eq_refl).
Defined.

End BatchRouteFacts.

(** ** The ERP client *)

Module ErpFacts.

Import Erp.

(** X12. [submitCheckin] on a record without a truthy [employee_id],
    [timestamp] or [status || log_type] resolves to the missing-field
    failure without posting anything: the result is the same whatever the
    ERP would answer. *)
Theorem submitCheckin_missing_fields : forall toISOString dflt m delay send send' err err' record,
  truthy_str (ci_employee_id record) = false \/ truthy_str (ci_timestamp record) = false \/
  truthy_str (js_or_opt (ci_status record) (ci_log_type record)) = false ->
  submitCheckin toISOString dflt m delay send err record = inr (mkOutcome false (Some missing_fields)) /\
  submitCheckin toISOString dflt m delay send' err' record = inr (mkOutcome false (Some missing_fields)).
Proof.
  intros toISOString dflt m delay send send' err err' record H.
  assert (N : forall o, truthy_str o = false -> present o = None)
    by (intros o Ho; unfold present; rewrite Ho; reflexivity).
  assert (P : prepareCheckin toISOString dflt record = Missing).
  { unfold prepareCheckin.
    destruct H as [H|[H|H]]; rewrite (N _ H);
      destruct (present (ci_employee_id record)), (present (ci_timestamp record)); reflexivity. }
  unfold submitCheckin. rewrite P. split; reflexivity.
Qed.

Definition no_employee : CheckinInput :=
  mkCheckinInput (Some "") (Some "2024-05-01T08:00:00Z") (Some "clock-in") None None None
    None None None None.

Lemma submitCheckin_missing_fields_witness :
  submitCheckin (fun _ => None) None 3 1000 (fun _ _ => Upstream.Response 201)
    (fun _ => "") no_employee = inr (mkOutcome false (Some missing_fields)).
Proof.
  exact (proj1 (submitCheckin_missing_fields (fun _ => None) None 3 1000
                  (fun _ _ => Upstream.Response 201) (fun _ _ => Upstream.NetworkError)
                  (fun _ => "") (fun _ => "") no_employee (or_introl eq_refl))).
Defined.

(** X13. The payload of a check-in with all required fields and a valid
    date: [log_type] is [IN] exactly for the status [clock-in] or [IN],
    and [OUT] for every other one; the coordinates are sent only when
    latitude and longitude are both present and non-zero, and are
    otherwise both left out. *)
Theorem prepareCheckin_payload : forall toISOString dflt record emp ts st iso,
  present (ci_employee_id record) = Some emp -> present (ci_timestamp record) = Some ts ->
  present (js_or_opt (ci_status record) (ci_log_type record)) = Some st ->
  toISOString ts = Some iso ->
  exists p, prepareCheckin toISOString dflt record = Payload p /\
    c_employee p = emp /\ c_time p = format_time iso /\
    (c_log_type p = "IN" <-> st = "clock-in" \/ st = "IN") /\
    (c_log_type p = "OUT" <-> st <> "clock-in" /\ st <> "IN") /\
    c_custom_site p = js_or_null (ci_site_id record) /\
    (truthy_num (ci_latitude record) && truthy_num (ci_longitude record) = true ->
       c_custom_latitude p = ci_latitude record /\ c_custom_longitude p = ci_longitude record) /\
    (truthy_num (ci_latitude record) && truthy_num (ci_longitude record) = false ->
       c_custom_latitude p = None /\ c_custom_longitude p = None).
Proof.
  intros toISOString dflt record emp ts st iso He Ht Hs Hi.
  unfold prepareCheckin. rewrite He, Ht, Hs, Hi.
  eexists; split; [reflexivity|]. cbn [c_employee c_time c_log_type c_custom_site
                                       c_custom_latitude c_custom_longitude].
  split; [reflexivity|]. split; [reflexivity|].
  destruct (String.eqb st "clock-in") eqn:E1; [|destruct (String.eqb st "IN") eqn:E2].
  - apply String.eqb_eq in E1. subst st.
    split; [split; [auto|reflexivity]|]. split; [split; [discriminate|intros [C _]; contradiction]|].
    split; [reflexivity|].
    destruct (truthy_num _ && truthy_num _); split; intros C; try discriminate; auto.
  - apply String.eqb_eq in E2. subst st. apply String.eqb_neq in E1.
    split; [split; [auto|reflexivity]|]. split; [split; [discriminate|intros [_ C]; contradiction]|].
    split; [reflexivity|].
    destruct (truthy_num _ && truthy_num _); split; intros C; try discriminate; auto.
  - apply String.eqb_neq in E1, E2.
    split; [split; [discriminate|intros [C|C]; contradiction]|].
    split; [split; [auto|reflexivity]|].
    split; [reflexivity|].
    destruct (truthy_num _ && truthy_num _); split; intros C; try discriminate; auto.
Qed.

Definition on_equator : CheckinInput :=
  mkCheckinInput (Some "EMP-001") (Some "2024-05-01T08:00:00Z") None (Some "clock-out")
    None (Some "SITE-1") (Some 0%Z) (Some 36%Z) None None.

Lemma prepareCheckin_payload_witness :
  exists p, prepareCheckin (fun s => Some s) None on_equator = Payload p /\
    c_employee p = "EMP-001" /\ c_time p = format_time "2024-05-01T08:00:00Z" /\
    (c_log_type p = "IN" <-> "clock-out" = "clock-in" \/ "clock-out" = "IN") /\
    (c_log_type p = "OUT" <-> "clock-out" <> "clock-in" /\ "clock-out" <> "IN") /\
    c_custom_site p = js_or_null (ci_site_id on_equator) /\
    (truthy_num (ci_latitude on_equator) && truthy_num (ci_longitude on_equator) = true ->
       c_custom_latitude p = ci_latitude on_equator /\ c_custom_longitude p = ci_longitude on_equator) /\
    (truthy_num (ci_latitude on_equator) && truthy_num (ci_longitude on_equator) = false ->
       c_custom_latitude p = None /\ c_custom_longitude p = None).
Proof.
  exact (prepareCheckin_payload (fun s => Some s) None on_equator "EMP-001"
           "2024-05-01T08:00:00Z" "clock-out" "2024-05-01T08:00:00Z"
           ltac:(reflexivity) ltac:(reflexivity) ltac:(reflexivity) ltac:(reflexivity)).
Defined.

Lemma mapi_from_app : forall {A B} (f : nat -> A -> B) k l1 l2,
  mapi_from f k (l1 ++ l2) = (mapi_from f k l1 ++ mapi_from f (k + List.length l1) l2)%list.
Proof.
  intros A B f k l1; revert k; induction l1 as [|x l1 IH]; intros k l2; cbn.
  - rewrite Nat.add_0_r. reflexivity.
  - rewrite IH. replace (k + S (List.length l1))%nat with (S k + List.length l1)%nat by lia.
    reflexivity.
Qed.

Lemma chunks_from_spec : forall bs f records fuel i,
  (1 <= bs)%nat -> (List.length records <= i + fuel * bs)%nat ->
  chunks_from fuel i bs f records = mapi_from f i (skipn i records).
Proof.
  intros bs f records fuel; induction fuel as [|fuel IH]; intros i Hbs Hlen; cbn [chunks_from].
  - rewrite skipn_all2 by lia. reflexivity.
  - destruct (Nat.ltb i (List.length records)) eqn:E.
    + rewrite IH by lia.
      set (l := skipn i records).
      assert (Hs : skipn (i + bs) records = skipn bs l)
        by (unfold l; rewrite skipn_skipn; f_equal; lia).
      rewrite Hs. rewrite <- (firstn_skipn bs l) at 3. rewrite mapi_from_app.
      rewrite length_firstn.
      destruct (Nat.le_gt_cases bs (List.length l)) as [Hle|Hgt].
      * rewrite Nat.min_l by exact Hle. reflexivity.
      * rewrite (skipn_all2 (n := bs) l) by lia. reflexivity.
    + apply Nat.ltb_ge in E. rewrite skipn_all2 by exact E. reflexivity.
Qed.

Lemma mapi_from_index : forall submit k l,
  map res_index (mapi_from (batch_result submit) k l) = seq k (List.length l).
Proof.
  intros submit k l; revert k; induction l as [|x l IH]; intros k; cbn; [reflexivity|].
  rewrite IH. f_equal. unfold batch_result. destruct (submit k x); reflexivity.
Qed.

(** X14. [submitBatchCheckin] gives the same results whatever the chunk
    size: one result per record, with the indices 0, 1, ..., n-1 in the
    order of the records; [successful] plus [failed] is [total], the
    number of records, and [success] holds exactly when every result
    succeeded. *)
Theorem submitBatchCheckin_results : forall batchSize submit records,
  (1 <= batchSize)%nat ->
  let bc := submitBatchCheckin batchSize submit records in
  bc_results bc = mapi_from (batch_result submit) 0 records /\
  map res_index (bc_results bc) = seq 0 (List.length records) /\
  bc_total bc = List.length records /\
  (bc_successful bc + bc_failed bc = bc_total bc)%nat /\
  (bc_success bc = true <-> forall r, In r (bc_results bc) -> res_success r = true).
Proof.
  intros batchSize submit records Hbs bc.
  assert (Hr : bc_results bc = mapi_from (batch_result submit) 0 records).
  { unfold bc, submitBatchCheckin. cbn [bc_results].
    rewrite chunks_from_spec by nia. reflexivity. }
  split; [exact Hr|]. split; [rewrite Hr; apply mapi_from_index|].
  split; [reflexivity|].
  split.
  - unfold bc, submitBatchCheckin. cbn [bc_successful bc_failed bc_total].
    rewrite filter_length. rewrite chunks_from_spec by nia.
    pose proof (f_equal (@List.length _) (mapi_from_index submit 0 records)) as Hl.
    rewrite length_map, length_seq in Hl. exact Hl.
  - unfold bc, submitBatchCheckin. cbn [bc_success bc_results].
    set (rs := chunks_from _ _ _ _ _).
    rewrite Nat.eqb_eq, length_zero_iff_nil, CacheOpsFacts.filter_nil_iff.
    split; intros H r Hin; specialize (H r Hin); destruct (res_success r); auto; discriminate.
Qed.

Lemma submitBatchCheckin_results_witness :
  bc_total (submitBatchCheckin 2 (fun _ _ => inr (mkOutcome true None))
              [no_employee; on_equator; no_employee]) = 3%nat.
Proof.
  exact (proj1 (proj2 (proj2 (submitBatchCheckin_results 2 (fun _ _ => inr (mkOutcome true None))
                                [no_employee; on_equator; no_employee] ltac:(lia))))).
Defined.

(** X15. [healthCheck()] makes exactly one attempt and never sleeps,
    whatever [ERP_RETRY_COUNT] is, and reports [connected] exactly when
    that attempt got a 2xx answer. *)
Theorem healthCheck_single_attempt : forall config_retries retryDelay send,
  let '(connected, t) := healthCheck config_retries retryDelay send in
  Upstream.t_attempts t = [1%nat] /\ Upstream.t_delays t = [] /\
  connected = Upstream.succeeded (send 1%nat).
Proof.
  intros config_retries retryDelay send.
  unfold healthCheck, safeGet, Upstream.safePost. cbn [Upstream.max_retries Upstream.attempts_from].
  destruct (Upstream.succeeded (send 1%nat)) eqn:E; cbn; auto.
Qed.

End ErpFacts.

(** ** The queue drain *)

Module SyncDrainFacts.

Import Cache CacheOps Erp SyncDrain.

Ltac eqb_to_prop :=
  repeat match goal with
  | H : Nat.eqb _ _ = true |- _ => apply Nat.eqb_eq in H
  | H : Nat.eqb _ _ = false |- _ => apply Nat.eqb_neq in H
  end.

Lemma filter_id_map : forall (g : QueueRow -> QueueRow) m0 m l,
  (forall x, q_id (g x) = q_id x) ->
  filter (fun row => Nat.eqb (q_id row) m)
    (map (fun row => if Nat.eqb (q_id row) m0 then g row else row) l) =
  if Nat.eqb m0 m then map g (filter (fun row => Nat.eqb (q_id row) m) l)
  else filter (fun row => Nat.eqb (q_id row) m) l.
Proof.
  intros g m0 m l Hg.
  destruct (Nat.eqb m0 m) eqn:E3; induction l as [|x l IH]; cbn; trivial;
    destruct (Nat.eqb (q_id x) m0) eqn:E1; cbv beta iota; try rewrite Hg;
    destruct (Nat.eqb (q_id x) m) eqn:E2; cbn; rewrite ?IH; try reflexivity;
    eqb_to_prop; lia.
Qed.

Lemma mark_synced_queue : forall now id h db,
  exists n db', markAttendanceSynced now id h db = (inr n, db') /\
    attendance_queue db' =
      map (fun row => if Nat.eqb (q_id row) id then set_synced now row else row)
          (attendance_queue db).
Proof.
  intros now id h db. unfold markAttendanceSynced.
  destruct h as [h|]; [destruct (String.eqb h "")|]; do 2 eexists; split; reflexivity.
Qed.

Lemma mark_failed_queue : forall now id msg db,
  exists n db', markAttendanceFailed now id msg db = (inr n, db') /\
    attendance_queue db' =
      map (fun row => if Nat.eqb (q_id row) id then set_failed now msg row else row)
          (attendance_queue db).
Proof.
  intros now id msg db. do 2 eexists; split; reflexivity.
Qed.

(** The update a result makes to the row it is matched with. *)
Definition eff (now : Time) (res : BatchResult) (row : QueueRow) : QueueRow :=
  if res_success res then set_synced now row else set_failed now (res_error res) row.

Definition hits (pair : list QueueRow -> BatchResult -> option QueueRow)
    (rows : list QueueRow) (m : nat) (res : BatchResult) : bool :=
  match pair rows res with
  | Some row => Nat.eqb (q_id row) m
  | None => false
  end.

(** The rows of id [m] after the loop over [results]. *)
Fixpoint track (now : Time) (pair : list QueueRow -> BatchResult -> option QueueRow)
    (rows : list QueueRow) (m : nat) (results : list BatchResult) (l : list QueueRow)
    : list QueueRow :=
  match results with
  | [] => l
  | res :: rest =>
      track now pair rows m rest (if hits pair rows m res then map (eff now res) l else l)
  end.

Definition paired_with (pair : list QueueRow -> BatchResult -> option QueueRow)
    (rows : list QueueRow) (b : bool) (res : BatchResult) : bool :=
  match pair rows res with
  | Some _ => Bool.eqb (res_success res) b
  | None => false
  end.

Lemma paired_with_unfold : forall pair rows b res,
  paired_with pair rows b res =
  match pair rows res with Some _ => Bool.eqb (res_success res) b | None => false end.
Proof. reflexivity. Qed.

Lemma apply_results_spec : forall now pair rows m results s f db,
  exists db', apply_results now pair rows results s f db =
    (inr (s + List.length (filter (paired_with pair rows true) results),
          f + List.length (filter (paired_with pair rows false) results)), db') /\
    filter (fun row => Nat.eqb (q_id row) m) (attendance_queue db') =
    track now pair rows m results (filter (fun row => Nat.eqb (q_id row) m) (attendance_queue db)).
Proof.
  intros now pair rows m results; induction results as [|res rest IH]; intros s f db.
  - exists db. cbn. rewrite !Nat.add_0_r. split; reflexivity.
  - cbn [apply_results track filter]. rewrite !paired_with_unfold. unfold hits at 1.
    destruct (pair rows res) as [row|] eqn:Ep.
    + destruct (res_success res) eqn:Es; cbn [Bool.eqb List.length]; unfold bind.
      * destruct (mark_synced_queue now (q_id row) (Some (q_record_hash row)) db)
          as (n & db1 & E1 & Q1).
        rewrite E1. destruct (IH (S s) f db1) as (db' & E & Q). exists db'.
        rewrite E. split; [rewrite Nat.add_succ_r; reflexivity|].
        rewrite Q, Q1, (filter_id_map (set_synced now)) by reflexivity.
        unfold eff; rewrite Es. reflexivity.
      * destruct (mark_failed_queue now (q_id row) (res_error res) db) as (n & db1 & E1 & Q1).
        rewrite E1. destruct (IH s (S f) db1) as (db' & E & Q). exists db'.
        rewrite E. split; [rewrite (Nat.add_succ_r f); reflexivity|].
        rewrite Q, Q1, (filter_id_map (set_failed now (res_error res))) by reflexivity.
        unfold eff; rewrite Es. reflexivity.
    + destruct (IH s f db) as (db' & E & Q). exists db'. split; [exact E|exact Q].
Qed.

Lemma track_none : forall now pair rows m results l,
  (forall res, In res results -> hits pair rows m res = false) ->
  track now pair rows m results l = l.
Proof.
  intros now pair rows m results; induction results as [|res rest IH]; intros l H; cbn;
    [reflexivity|].
  rewrite (H res (or_introl eq_refl)). apply IH. intros r Hr; apply H; right; exact Hr.
Qed.

Lemma track_unique : forall now pair rows m results l k resk,
  nth_error results k = Some resk -> hits pair rows m resk = true ->
  (forall j res, j <> k -> nth_error results j = Some res -> hits pair rows m res = false) ->
  track now pair rows m results l = map (eff now resk) l.
Proof.
  intros now pair rows m results; induction results as [|res rest IH];
    intros l k resk Hk Hh Hother; [destruct k; discriminate|].
  destruct k as [|k]; cbn.
  - injection Hk as ->. rewrite Hh. apply track_none.
    intros r Hin. apply In_nth_error in Hin as [j Hj]. apply (Hother (S j)); [lia|exact Hj].
  - rewrite (Hother 0 res) by (reflexivity || lia).
    apply (IH l k resk Hk Hh). intros j r Hj Hr. apply (Hother (S j)); [lia|exact Hr].
Qed.

Lemma paired_total : forall pair rows results,
  (forall res, In res results -> pair rows res <> None) ->
  (List.length (filter (paired_with pair rows true) results) +
   List.length (filter (paired_with pair rows false) results))%nat = List.length results.
Proof.
  intros pair rows results; induction results as [|res rest IH]; intros H; cbn; [reflexivity|].
  rewrite !paired_with_unfold.
  destruct (pair rows res) eqn:Ep; [|exfalso; exact (H res (or_introl eq_refl) Ep)].
  rewrite <- IH by (intros r Hr; apply H; right; exact Hr).
  destruct (res_success res); cbn; lia.
Qed.

Lemma nth_error_mapi_from : forall {A B} (f : nat -> A -> B) l i j,
  nth_error (mapi_from f i l) j = option_map (f (i + j)%nat) (nth_error l j).
Proof.
  intros A B f l; induction l as [|x l IH]; intros i j; destruct j as [|j]; cbn;
    [reflexivity|reflexivity|rewrite Nat.add_0_r; reflexivity|].
  rewrite IH, Nat.add_succ_r. reflexivity.
Qed.

Lemma length_mapi_from : forall {A B} (f : nat -> A -> B) l i,
  List.length (mapi_from f i l) = List.length l.
Proof.
  intros A B f l; induction l as [|x l IH]; intros i; cbn; [reflexivity|]. rewrite IH. reflexivity.
Qed.

Lemma batch_results_eq : forall bs submit recs, (1 <= bs)%nat ->
  bc_results (submitBatchCheckin bs submit recs) = mapi_from (batch_result submit) 0 recs.
Proof.
  intros bs submit recs Hbs. unfold submitBatchCheckin. cbn [bc_results].
  rewrite ErpFacts.chunks_from_spec by nia. reflexivity.
Qed.

Lemma result_of_row : forall submit k row,
  res_index (batch_result submit k (of_row row)) = k /\
  res_record_id (batch_result submit k (of_row row)) = Some (q_record_hash row).
Proof.
  intros submit k row. unfold batch_result. destruct (submit k (of_row row)); split; reflexivity.
Qed.

Lemma find_first : forall {A} (p : A -> bool) l j y,
  nth_error l j = Some y -> p y = true ->
  (forall i z, (i < j)%nat -> nth_error l i = Some z -> p z = false) ->
  find p l = Some y.
Proof.
  intros A p l; induction l as [|x l IH]; intros j y Hj Hy Hbefore; [destruct j; discriminate|].
  destruct j as [|j]; cbn.
  - injection Hj as ->. rewrite Hy. reflexivity.
  - rewrite (Hbefore 0%nat x) by (reflexivity || lia).
    apply (IH j y Hj Hy). intros i z Hi Hz. apply (Hbefore (S i)); [lia|exact Hz].
Qed.

Lemma nth_error_seq_lt : forall s len i, (i < len)%nat -> nth_error (seq s len) i = Some (s + i)%nat.
Proof.
  intros s len; revert s; induction len as [|len IH]; intros s i Hi; [lia|].
  destruct i as [|i]; cbn; [rewrite Nat.add_0_r; reflexivity|].
  rewrite IH by lia. f_equal. lia.
Qed.

Lemma nodup_same_position : forall {A B} (g : A -> B) l i j x y,
  NoDup (map g l) -> nth_error l i = Some x -> nth_error l j = Some y -> g x = g y -> i = j.
Proof.
  intros A B g l i j x y Hnd Hx Hy Heq.
  rewrite NoDup_nth_error in Hnd. apply Hnd.
  - rewrite length_map. apply nth_error_Some. congruence.
  - rewrite !nth_error_map, Hx, Hy. cbn. congruence.
Qed.

(** X16. [syncPendingRecords] matches result [k] with the first pending
    row whose hash is the result's record id or whose id is [k]. With
    pending rows of ids 1, ..., n (n >= 2) and distinct hashes, result
    [k >= 1] is matched with the row of id [k], one before its own, so the
    row of id [n] is sent to the ERP but never updated: whatever the ERP
    answers, it stays as it was, while the drain reports [n] rows
    processed. *)
Theorem syncPendingRecords_misses_last_row :
  forall now batchSize maxRetries erpBatchSize submit db pending n,
  (1 <= erpBatchSize)%nat ->
  getPendingAttendance batchSize maxRetries db = (inr pending, db) ->
  map q_id pending = seq 1 n -> (2 <= n)%nat -> NoDup (map q_record_hash pending) ->
  exists s f db',
    syncPendingRecords now batchSize maxRetries erpBatchSize submit true db =
      (inr (Completed (Nat.eqb f 0) n s f), db') /\
    (s + f = n)%nat /\
    filter (fun row => Nat.eqb (q_id row) n) (attendance_queue db') =
    filter (fun row => Nat.eqb (q_id row) n) (attendance_queue db).
Proof.
  intros now batchSize maxRetries erpBatchSize submit db pending n Hbs Hget Hids Hn Hnd.
  assert (Hlen : List.length pending = n)
    by (rewrite <- (length_map q_id), Hids, length_seq; reflexivity).
  assert (Hid : forall i r, nth_error pending i = Some r -> q_id r = S i).
  { intros i r Hr.
    assert (Hi : (i < n)%nat) by (rewrite <- Hlen; apply nth_error_Some; congruence).
    pose proof (f_equal (fun l => nth_error l i) Hids) as E. cbv beta in E.
    rewrite nth_error_map, Hr, nth_error_seq_lt in E by exact Hi.
    cbn in E. injection E as E. exact E. }
  assert (Hpair : forall res, In res (mapi_from (batch_result submit) 0 (map of_row pending)) ->
            exists row, pair_one_stage pending res = Some row /\ q_id row <> n).
  { intros res Hin. apply In_nth_error in Hin as [k Hk].
    rewrite nth_error_mapi_from, nth_error_map in Hk.
    destruct (nth_error pending k) as [rowk|] eqn:Erk; cbn in Hk; [|discriminate].
    injection Hk as <-.
    assert (Hkn : (k < n)%nat) by (rewrite <- Hlen; apply nth_error_Some; congruence).
    destruct (result_of_row submit k rowk) as [Hi Hr].
    destruct k as [|k'].
    - exists rowk. split.
      + apply find_first with 0%nat; [exact Erk| |intros; lia].
        unfold hash_matches. rewrite Hr, String.eqb_refl. reflexivity.
      + rewrite (Hid 0%nat rowk Erk). lia.
    - destruct (nth_error pending k') as [rowp|] eqn:Erp.
      2: { apply nth_error_None in Erp. lia. }
      exists rowp. split.
      + apply find_first with k'; [exact Erp| |].
        * unfold id_matches. rewrite Hi, (Hid k' rowp Erp), Nat.eqb_refl, orb_true_r.
          reflexivity.
        * intros i z Hi' Hz. apply orb_false_iff; split.
          -- unfold hash_matches. rewrite Hr. apply String.eqb_neq. intros Heq.
             pose proof (nodup_same_position q_record_hash pending i (S k') z rowk Hnd Hz Erk Heq).
             lia.
          -- unfold id_matches. rewrite Hi, (Hid i z Hz). apply Nat.eqb_neq. lia.
      + rewrite (Hid k' rowp Erp). lia. }
  unfold syncPendingRecords, catch_error. cbn [negb]. cbv [bind].
  rewrite Hget. cbv beta iota.
  assert (E0 : Nat.eqb (List.length pending) 0 = false) by (apply Nat.eqb_neq; lia).
  rewrite E0, batch_results_eq by exact Hbs.
  destruct (apply_results_spec now pair_one_stage pending n
              (mapi_from (batch_result submit) 0 (map of_row pending)) 0 0 db)
    as (db' & E & Q).
  rewrite E. cbv beta iota zeta. unfold ret. rewrite Hlen.
  do 3 eexists. split; [reflexivity|]. split.
  - rewrite !Nat.add_0_l, paired_total, length_mapi_from, length_map by
      (intros r Hr; destruct (Hpair r Hr) as (row & Hp & _); congruence).
    exact Hlen.
  - rewrite Q. apply track_none. intros r Hr. unfold hits.
    destruct (Hpair r Hr) as (row & -> & Hne). apply Nat.eqb_neq. exact Hne.
Qed.

Definition pending_row (id : nat) (h : string) : QueueRow :=
  mkQueueRow id "EMP-001" "2024-06-10T08:30:00Z" "clock-in" None None None None h None 0 None id
    false None None.

Definition db_two_pending : DB :=
  mkDB [pending_row 1 "h-1"; pending_row 2 "h-2"] [] 3.

Lemma syncPendingRecords_misses_last_row_witness :
  exists s f db',
    syncPendingRecords 10 20 3 10 (fun _ _ => inr (mkOutcome true None)) true db_two_pending =
      (inr (Completed (Nat.eqb f 0) 2 s f), db') /\
    (s + f = 2)%nat /\
    filter (fun row => Nat.eqb (q_id row) 2) (attendance_queue db') =
    filter (fun row => Nat.eqb (q_id row) 2) (attendance_queue db_two_pending).
Proof.
  apply (syncPendingRecords_misses_last_row 10 20 3 10 (fun _ _ => inr (mkOutcome true None))
           db_two_pending [pending_row 1 "h-1"; pending_row 2 "h-2"] 2).
  - lia.
  - reflexivity.
  - reflexivity.
  - lia.
  - constructor; [cbn; intros [H|[]]; discriminate|constructor; [intros []|constructor]].
Defined.

Lemma NoDup_map_filter : forall {A B} (g : A -> B) p l,
  NoDup (map g l) -> NoDup (map g (filter p l)).
Proof.
  intros A B g p l; induction l as [|x l IH]; cbn; intros H; [constructor|].
  inversion H as [|? ? Hnotin Hnd]; subst.
  destruct (p x); cbn; [|auto].
  constructor; [|auto].
  intros Hin. apply Hnotin. apply in_map_iff in Hin as (y & Hy & Hyin).
  apply filter_In in Hyin as [Hyin _]. rewrite <- Hy. apply in_map. exact Hyin.
Qed.

Lemma NoDup_map_selection : forall {B} (g : QueueRow -> B) b p l,
  NoDup (map g l) -> NoDup (map g (firstn b (order_by_created (filter p l)))).
Proof.
  intros B g b p l H.
  assert (Hs : NoDup (map g (order_by_created (filter p l)))).
  { eapply Permutation_NoDup; [apply Permutation_map; symmetry; apply CacheOpsFacts.order_perm|].
    apply NoDup_map_filter; exact H. }
  rewrite <- firstn_map.
  rewrite <- (firstn_skipn b (map g (order_by_created (filter p l)))) in Hs.
  apply NoDup_app_remove_r in Hs. exact Hs.
Qed.

Lemma in_selection : forall b p l row,
  In row (firstn b (order_by_created (filter p l))) -> In row l.
Proof.
  intros b p l row H. apply CacheOpsFacts.in_firstn in H.
  apply (Permutation_in _ (CacheOpsFacts.order_perm _)) in H.
  apply filter_In in H as [H _]. exact H.
Qed.

Lemma filter_id_unique : forall l row,
  NoDup (map q_id l) -> In row l ->
  filter (fun r => Nat.eqb (q_id r) (q_id row)) l = [row].
Proof.
  intros l row; induction l as [|x l IH]; intros Hnd Hin; [destruct Hin|].
  inversion Hnd as [|? ? Hnotin Hnd']; subst. cbn.
  destruct Hin as [<-|Hin].
  - rewrite Nat.eqb_refl. f_equal. apply CacheOpsFacts.filter_nil_iff.
    intros r Hr. apply Nat.eqb_neq. intros Heq. apply Hnotin. rewrite <- Heq. apply in_map. exact Hr.
  - assert (Hx : Nat.eqb (q_id x) (q_id row) = false).
    { apply Nat.eqb_neq. intros Heq. apply Hnotin. rewrite Heq. apply in_map. exact Hin. }
    rewrite Hx. apply IH; assumption.
Qed.

Lemma reset_row_idem : forall row, reset_row (reset_row row) = reset_row row.
Proof. intros row. reflexivity. Qed.

Lemma reset_all_spec : forall rows m db,
  exists db', reset_all rows db = (inr tt, db') /\
    filter (fun row => Nat.eqb (q_id row) m) (attendance_queue db') =
    if existsb (fun row => Nat.eqb (q_id row) m) rows
    then map reset_row (filter (fun row => Nat.eqb (q_id row) m) (attendance_queue db))
    else filter (fun row => Nat.eqb (q_id row) m) (attendance_queue db).
Proof.
  intros rows m; induction rows as [|r rows IH]; intros db.
  - exists db. split; reflexivity.
  - cbn [reset_all]. unfold bind, reset_by_id at 1. cbv beta iota.
    destruct (IH (mkDB (map (fun row => if Nat.eqb (q_id row) (q_id r) then reset_row row else row)
                          (attendance_queue db)) (record_hashes db) (next_id db)))
      as (db' & E & Q).
    exists db'. split; [exact E|]. rewrite Q. cbn [attendance_queue existsb].
    rewrite (filter_id_map reset_row) by reflexivity.
    destruct (Nat.eqb (q_id r) m); destruct (existsb _ rows); cbn [orb]; try reflexivity.
    rewrite map_map. apply map_ext. intros x. apply reset_row_idem.
Qed.

Lemma pair_two_stage_own : forall rows j rj res,
  NoDup (map q_record_hash rows) -> nth_error rows j = Some rj ->
  res_record_id res = Some (q_record_hash rj) ->
  pair_two_stage rows res = Some rj.
Proof.
  intros rows j rj res Hnd Hj Hr. unfold pair_two_stage.
  rewrite (find_first (hash_matches res) rows j rj Hj); [reflexivity| |].
  - unfold hash_matches. rewrite Hr, String.eqb_refl. reflexivity.
  - intros i z Hi Hz. unfold hash_matches. rewrite Hr. apply String.eqb_neq. intros Heq.
    pose proof (nodup_same_position q_record_hash rows i j z rj Hnd Hz Hj Heq). lia.
Qed.

(** X17. [retryFailedRecords] matches each result with its own row: the
    [record_hash] column is [UNIQUE] and [id] is the key, so the result of
    the [k]-th selected row is looked up by its hash first and found. That
    row ends reset ([retry_count = 0], no error) and then synced, or
    failed once more with the result's error, as its own result says;
    every selected row is counted once. *)
Theorem retryFailedRecords_pairs_own_result :
  forall now batchSize maxRetries erpBatchSize submit db k row,
  (1 <= erpBatchSize)%nat ->
  NoDup (map q_id (attendance_queue db)) -> NoDup (map q_record_hash (attendance_queue db)) ->
  nth_error (firstn batchSize (order_by_created
               (filter (retry_selected maxRetries) (attendance_queue db)))) k = Some row ->
  let failedRecords := firstn batchSize (order_by_created
                         (filter (retry_selected maxRetries) (attendance_queue db))) in
  let res := batch_result submit k (of_row row) in
  exists s f db',
    retryFailedRecords now batchSize maxRetries erpBatchSize submit db =
      (inr (Completed (Nat.eqb f 0) (List.length failedRecords) s f), db') /\
    (s + f = List.length failedRecords)%nat /\
    filter (fun r => Nat.eqb (q_id r) (q_id row)) (attendance_queue db') =
      [if res_success res then set_synced now (reset_row row)
       else set_failed now (res_error res) (reset_row row)].
Proof.
  intros now batchSize maxRetries erpBatchSize submit db k row Hbs Hids Hhashes Hk.
  cbv zeta.
  remember (firstn batchSize (order_by_created
              (filter (retry_selected maxRetries) (attendance_queue db)))) as failed eqn:Hf.
  assert (Hfids : NoDup (map q_id failed)) by (rewrite Hf; apply NoDup_map_selection; exact Hids).
  assert (Hfh : NoDup (map q_record_hash failed))
    by (rewrite Hf; apply NoDup_map_selection; exact Hhashes).
  assert (Hin : In row (attendance_queue db))
    by (apply (in_selection batchSize (retry_selected maxRetries)); rewrite <- Hf;
        eapply nth_error_In; exact Hk).
  set (m := q_id row).
  set (results := mapi_from (batch_result submit) 0 (map of_row failed)).
  assert (Hpair : forall j res, nth_error results j = Some res ->
            exists rj, nth_error failed j = Some rj /\ res = batch_result submit j (of_row rj) /\
                       pair_two_stage failed res = Some rj).
  { intros j res Hj. unfold results in Hj.
    rewrite nth_error_mapi_from, nth_error_map in Hj.
    destruct (nth_error failed j) as [rj|] eqn:Erj; cbn in Hj; [|discriminate].
    injection Hj as <-. exists rj. split; [reflexivity|]. split; [reflexivity|].
    apply (pair_two_stage_own failed j rj); [exact Hfh|exact Erj|].
    apply result_of_row. }
  unfold retryFailedRecords, catch_error. cbv [bind]. cbv beta iota.
  rewrite <- Hf.
  assert (E0 : Nat.eqb (List.length failed) 0 = false).
  { apply Nat.eqb_neq. intros H0. apply length_zero_iff_nil in H0. subst failed.
    rewrite H0 in Hk. destruct k; discriminate. }
  rewrite E0.
  destruct (reset_all_spec failed m db) as (db1 & E1 & Q1). rewrite E1. cbv beta iota.
  rewrite batch_results_eq by exact Hbs. fold results.
  destruct (apply_results_spec now pair_two_stage failed m results 0 0 db1) as (db' & E & Q).
  rewrite E. cbv beta iota zeta. unfold ret.
  do 3 eexists. split; [reflexivity|]. split.
  - rewrite !Nat.add_0_l, paired_total.
    + unfold results. rewrite length_mapi_from, length_map. reflexivity.
    + intros r Hr. apply In_nth_error in Hr as [j Hj].
      destruct (Hpair j r Hj) as (rj & _ & _ & ->). discriminate.
  - rewrite Q, Q1.
    assert (Hex : existsb (fun r => Nat.eqb (q_id r) m) failed = true).
    { apply existsb_exists. exists row. split; [eapply nth_error_In; exact Hk|].
      apply Nat.eqb_refl. }
    rewrite Hex. unfold m. rewrite (filter_id_unique _ row Hids Hin).
    rewrite (track_unique now pair_two_stage failed (q_id row) results _ k
               (batch_result submit k (of_row row))).
    + reflexivity.
    + unfold results. rewrite nth_error_mapi_from, nth_error_map, Hk. reflexivity.
    + unfold hits. rewrite (pair_two_stage_own failed k row); [apply Nat.eqb_refl|exact Hfh|exact Hk|].
      apply result_of_row.
    + intros j r Hjk Hj. destruct (Hpair j r Hj) as (rj & Erj & _ & Hp).
      unfold hits. rewrite Hp. apply Nat.eqb_neq. intros Heq.
      apply Hjk. exact (nodup_same_position q_id failed j k rj row Hfids Erj Hk Heq).
Qed.

Definition failed_row (id : nat) (h : string) : QueueRow :=
  mkQueueRow id "EMP-002" "2024-06-10T17:00:00Z" "clock-out" None None None None h None 3
    (Some id) id false None (Some "ERP down").

Definition db_two_failed : DB :=
  mkDB [failed_row 1 "f-1"; failed_row 2 "f-2"] [] 3.

Lemma retryFailedRecords_pairs_own_result_witness :
  let failedRecords := firstn 20 (order_by_created
                         (filter (retry_selected 3) (attendance_queue db_two_failed))) in
  let res := batch_result (fun _ _ => inr (mkOutcome true None)) 1 (of_row (failed_row 2 "f-2")) in
  exists s f db',
    retryFailedRecords 50 20 3 10 (fun _ _ => inr (mkOutcome true None)) db_two_failed =
      (inr (Completed (Nat.eqb f 0) (List.length failedRecords) s f), db') /\
    (s + f = List.length failedRecords)%nat /\
    filter (fun r => Nat.eqb (q_id r) (q_id (failed_row 2 "f-2"))) (attendance_queue db') =
      [if res_success res then set_synced 50 (reset_row (failed_row 2 "f-2"))
       else set_failed 50 (res_error res) (reset_row (failed_row 2 "f-2"))].
Proof.
  apply (retryFailedRecords_pairs_own_result 50 20 3 10 (fun _ _ => inr (mkOutcome true None))
           db_two_failed 1 (failed_row 2 "f-2")).
  - lia.
  - constructor; [cbn; intros [H|[]]; discriminate|constructor; [intros []|constructor]].
  - constructor; [cbn; intros [H|[]]; discriminate|constructor; [intros []|constructor]].
  - reflexivity.
Defined.

End SyncDrainFacts.

(** ** Batch status *)

Module BatchStatusFacts.

Import Cache CacheOps Erp SyncDrain Ingest.

Lemma three_way : forall maxRetries rows,
  (List.length (filter q_synced rows) +
   List.length (filter (fun row => negb (q_synced row) && Nat.leb maxRetries (q_retry_count row)) rows) +
   List.length (filter (fun row => negb (q_synced row) && Nat.ltb (q_retry_count row) maxRetries) rows))%nat
  = List.length rows.
Proof.
  intros maxRetries rows; induction rows as [|x rows IH]; cbn [filter List.length];
    [reflexivity|].
  destruct (q_synced x); cbn [negb andb filter List.length]; [lia|].
  destruct (Nat.leb_spec maxRetries (q_retry_count x));
    destruct (Nat.ltb_spec (q_retry_count x) maxRetries); cbn [List.length]; lia.
Qed.

(** X18. [SyncService.getBatchStatus] only reads the store. A missing or
    empty batch id gives [Batch ID is required]; a batch id no queue row
    carries gives [Batch not found]; otherwise [total] is the number of
    queue rows of the batch, [successful], [failed] and [pending]
    partition them, and at most 10 recent records are returned. *)
Theorem getBatchStatus_spec : forall maxRetries batchId db,
  snd (getBatchStatus maxRetries batchId db) = db /\
  (truthy_str batchId = false ->
     fst (getBatchStatus maxRetries batchId db) = inr (BatchStatusError batch_id_required)) /\
  (forall b, batchId = Some b -> b <> "" ->
     let rows := filter (fun row => match q_batch_id row with
                                    | Some b' => String.eqb b' b
                                    | None => false
                                    end) (attendance_queue db) in
     (rows = [] -> fst (getBatchStatus maxRetries batchId db) = inr (BatchStatusError batch_not_found)) /\
     (rows <> [] -> exists st recent,
        fst (getBatchStatus maxRetries batchId db) = inr (BatchStatusOk b st recent) /\
        b_total st = List.length rows /\
        (b_successful st + b_failed st + b_pending st = b_total st)%nat /\
        (List.length recent <= 10)%nat)).
Proof.
  intros maxRetries batchId db. split; [|split].
  - unfold getBatchStatus. destruct batchId as [b|]; [|reflexivity].
    destruct (String.eqb b ""); [reflexivity|]. cbv zeta.
    destruct (Nat.eqb _ 0); reflexivity.
  - intros H. unfold getBatchStatus. destruct batchId as [b|]; [|reflexivity].
    cbn in H. destruct (String.eqb b "") eqn:E; [reflexivity|discriminate].
  - intros b -> Hb rows. unfold getBatchStatus.
    apply String.eqb_neq in Hb. rewrite Hb. fold rows. split.
    + intros Hr. rewrite Hr. reflexivity.
    + intros Hr. assert (E : Nat.eqb (List.length rows) 0 = false).
      { apply Nat.eqb_neq. intros H0. apply length_zero_iff_nil in H0. contradiction. }
      rewrite E. do 2 eexists. split; [reflexivity|]. cbn [b_total b_successful b_failed b_pending].
      split; [reflexivity|]. split; [apply three_way|].
      rewrite length_map, length_firstn. lia.
Qed.

Lemma batch_record_synced_queue : forall now bid r w,
  attendance_queue (Ingest.db (snd (batch_record now bid false r (inr true) w))) =
  attendance_queue (Ingest.db w).
Proof.
  intros now bid r [d calls].
  unfold batch_record, wcatch, wbind, storage, wret, submitCheckin, checkDuplicateRecord.
  cbn -[storeRecordHash queueAttendance].
  destruct (find _ _); [reflexivity|]. reflexivity.
Qed.

Lemma batch_loop_synced_queue : forall now bid records w,
  (forall r erp, In (r, erp) records -> erp = inr true) ->
  attendance_queue (Ingest.db (snd (batch_loop now bid false records w))) =
  attendance_queue (Ingest.db w).
Proof.
  intros now bid records; induction records as [|[r ok] rest IH]; intros w Hok; [reflexivity|].
  cbn [batch_loop]. rewrite (Hok r ok (or_introl eq_refl)).
  pose proof (batch_record_synced_queue now bid r w) as Hq.
  destruct (batch_record now bid false r (inr true) w) as [res w1].
  specialize (IH w1 (fun r' ok' H => Hok r' ok' (or_intror H))).
  destruct (batch_loop now bid false rest w1) as [items w2]. cbn [snd] in *.
  rewrite IH. exact Hq.
Qed.

(** X19. A [/batch] upload sent online whose every record is accepted by
    the ERP at once creates no queue row, so [getBatchStatus] on its
    batch id answers [Batch not found] (when no earlier queue row carried
    that batch id). *)
Theorem batch_synced_at_once_not_found : forall now bid uuid records w maxRetries,
  bid <> "" ->
  (forall r erp, In (r, erp) records -> erp = inr true) ->
  (forall row, In row (attendance_queue (Ingest.db w)) -> q_batch_id row <> Some bid) ->
  fst (getBatchStatus maxRetries (Some bid)
         (Ingest.db (snd (batch now (Some bid) uuid false records w)))) =
  inr (BatchStatusError batch_not_found).
Proof.
  intros now bid uuid records w maxRetries Hb Hok Hrows.
  unfold batch. assert (Hj : js_or (Some bid) uuid = bid)
    by (unfold js_or; apply String.eqb_neq in Hb; rewrite Hb; reflexivity).
  rewrite Hj. unfold getBatchStatus. apply String.eqb_neq in Hb. rewrite Hb.
  rewrite batch_loop_synced_queue by exact Hok.
  assert (Hf : filter (fun row => match q_batch_id row with
                                  | Some b' => String.eqb b' bid
                                  | None => false
                                  end) (attendance_queue (Ingest.db w)) = []).
  { apply CacheOpsFacts.filter_nil_iff. intros row Hin.
    specialize (Hrows row Hin). destruct (q_batch_id row) as [b'|]; [|reflexivity].
    apply String.eqb_neq. intros ->. apply Hrows. reflexivity. }
  cbv zeta. rewrite Hf. reflexivity.
Qed.

Definition rec_synced : AttendanceRecord :=
  mkRecord "EMP-007" "2024-06-10T08:30:00Z" "clock-in" None None None None (Some "rec-7").

Lemma batch_synced_at_once_not_found_witness :
  fst (getBatchStatus 3 (Some "batch-7")
         (Ingest.db (snd (batch 1 (Some "batch-7") "uuid-1" false [(rec_synced, inr true)] empty_world)))) =
  inr (BatchStatusError batch_not_found).
Proof.
  apply batch_synced_at_once_not_found.
  - discriminate.
  - intros r erp [H|[]]. injection H as _ <-. reflexivity.
  - intros row [].
Defined.

End BatchStatusFacts.

(** ** Session tokens *)

Module SessionOpsFacts.

Import Sessions SessionOps.

Local Open Scope Z_scope.

Lemma lookup_filter_other : forall {A} k k' (l : list (string * A)), k' <> k ->
  lookup k (filter (fun p => negb (String.eqb (fst p) k')) l) = lookup k l.
Proof.
  intros A k k' l Hne; induction l as [|[a v] l IH]; cbn; [reflexivity|].
  destruct (String.eqb a k') eqn:E1; cbn.
  - apply String.eqb_eq in E1. subst a.
    assert (E : String.eqb k' k = false) by (apply String.eqb_neq; exact Hne).
    rewrite E. exact IH.
  - destruct (String.eqb a k); [reflexivity|exact IH].
Qed.

Lemma lookup_put : forall {A} k k' (v : A) l,
  lookup k (put k' v l) = if String.eqb k' k then Some v else lookup k l.
Proof.
  intros A k k' v l. unfold put. cbn.
  destruct (String.eqb k' k) eqn:E; [reflexivity|].
  apply String.eqb_neq in E. apply lookup_filter_other. exact E.
Qed.

Lemma terminated_session : forall now sid reason r,
  lookup sid (sessions (snd (terminateSession now sid reason r))) = None \/
  exists sd, lookup sid (sessions (snd (terminateSession now sid reason r))) = Some sd /\
             sd_isActive sd = false.
Proof.
  intros now sid reason r. unfold terminateSession.
  destruct (lookup sid (sessions r)) as [sd|] eqn:E; [right|left; exact E].
  exists (mkSession (sd_userId sd) (sd_accessToken sd) (sd_refreshToken sd) false (Some reason)).
  split; [|reflexivity].
  unfold sRem, blacklistToken. cbn [snd sessions].
  destruct (0 <? token_exp (sd_accessToken sd) - now);
    destruct (0 <? token_exp (sd_refreshToken sd) - now);
    cbn [sessions]; rewrite lookup_put, String.eqb_refl; reflexivity.
Qed.

(** X20. [logout] with an access token that decodes to a session id ends
    that session: afterwards [validateToken] rejects every token of that
    session, access or refresh, whether or not it was blacklisted (a
    refresh token is never blacklisted by [logout] itself, which ignores
    its [refreshToken] argument). [logout] answers [true]. *)
Theorem logout_rejects_session_tokens :
  forall jwt_verify jwt_decode now accessToken refreshToken reason r
         jwtSecret refreshSecret t tokenType p q,
  jwt_decode accessToken = Some p -> p_sessionId p <> "" ->
  jwt_verify t (if String.eqb tokenType "access" then jwtSecret else refreshSecret) = inr q ->
  p_sessionId q = p_sessionId p ->
  fst (logout jwt_decode now accessToken refreshToken reason r) = true /\
  exists e, validateToken jwt_verify jwtSecret refreshSecret t tokenType
              (snd (logout jwt_decode now accessToken refreshToken reason r)) = inl e.
Proof.
  intros jwt_verify jwt_decode now accessToken refreshToken reason r jwtSecret refreshSecret
         t tokenType p q Hd Hs Hv Hq.
  unfold logout. rewrite Hd. apply String.eqb_neq in Hs. rewrite Hs.
  split; [reflexivity|]. cbn [snd].
  unfold validateToken. rewrite Hv.
  destruct (isTokenBlacklisted _ _); [eexists; reflexivity|].
  rewrite Hq.
  destruct (terminated_session now (p_sessionId p) reason r) as [-> | (sd & -> & Ha)];
    [|rewrite Ha]; eexists; reflexivity.
Qed.

Definition tok_a : Token := mkToken "access-1" 2000000000.
Definition tok_r : Token := mkToken "refresh-1" 2000600000.

Definition payload_s1 : Payload := mkPayload "device-1" "s1" "access" 1700000000 1700000900.

Definition decode_s1 (t : string) : option Payload :=
  if String.eqb t "access-1" then Some payload_s1 else None.

Definition verify_s1 (t secret : string) : string + Payload :=
  if String.eqb t "refresh-1" then inr payload_s1 else inl "invalid signature".

Definition redis_s1 : Redis :=
  mkRedis [("s1", mkSession "device-1" tok_a tok_r true None)] [("device-1", ["s1"])] [].

Lemma logout_rejects_session_tokens_witness :
  fst (logout decode_s1 1700000100 "access-1" "refresh-1" "user_logout" redis_s1) = true /\
  exists e, validateToken verify_s1 "secret" "refresh-secret" "refresh-1" "refresh"
              (snd (logout decode_s1 1700000100 "access-1" "refresh-1" "user_logout" redis_s1)) = inl e.
Proof.
  apply (logout_rejects_session_tokens verify_s1 decode_s1 1700000100 "access-1" "refresh-1"
           "user_logout" redis_s1 "secret" "refresh-secret" "refresh-1" "refresh"
           payload_s1 payload_s1); reflexivity || discriminate.
Defined.

(** X21. [refreshAccessToken] revokes nothing: whatever its outcome, every
    token gets the same answer from [validateToken] afterwards as before.
    In particular the access token it replaces stays valid until it
    expires; only the session's record of it changes. *)
Theorem refreshAccessToken_revokes_nothing :
  forall jwt_verify jwtSecret refreshSecret refreshToken newAccess r t tokenType,
  validateToken jwt_verify jwtSecret refreshSecret t tokenType
    (snd (refreshAccessToken jwt_verify jwtSecret refreshSecret refreshToken newAccess r)) =
  validateToken jwt_verify jwtSecret refreshSecret t tokenType r.
Proof.
  intros jwt_verify jwtSecret refreshSecret refreshToken newAccess r t tokenType.
  unfold refreshAccessToken.
  destruct (validateToken jwt_verify jwtSecret refreshSecret refreshToken "refresh" r) as [e|p];
    [reflexivity|].
  destruct (lookup (p_sessionId p) (sessions r)) as [sd|] eqn:E; [|reflexivity].
  cbn [snd]. unfold validateToken.
  destruct (jwt_verify t _) as [e|q]; [reflexivity|].
  unfold isTokenBlacklisted. cbn [blacklist sessions].
  destruct (lookup t (blacklist r)); [reflexivity|].
  rewrite lookup_put.
  destruct (String.eqb (p_sessionId p) (p_sessionId q)) eqn:Es; [|reflexivity].
  apply String.eqb_eq in Es. rewrite <- Es, E. reflexivity.
Qed.

End SessionOpsFacts.
